(** * BearWave-Paper2: the solar ephemeris, the night-shading loop and the
      foF2 estimator

    A shallow embedding of

    - [src/core/Combined.py]: the NOAA-style solar utilities
      ([julian_day] ... [sunrise_sunset_local]) and the night-shading loop of
      [optional_plot];
    - [src/generators/fig10_5mhz_generator.py]: the second copy of the solar
      utilities;
    - [src/analysis/darwin_april15_fof2_7years.py] and
      [src/analysis/guam_fof2_april.py]: [calculate_fof2_from_signal].

    Conventions.  A Python [int] is a [Z].  A Python [float] is a real number
    [R]: the arithmetic is the exact one, rounding to binary64 is not
    modelled, and [inf]/[nan] do not exist.  Where an exact value lies on
    the boundary between two branches the rounded value may take the other
    one: the real [cos (90 * PI / 180)] is 0 and [Py.div] raises, the
    binary64 cosine is [6.1e-17] and the division returns; an unclamped
    cosine of exactly 1, or a signal exactly at a threshold of the clip, is
    such a boundary too.  The properties keep their hypotheses off these
    boundaries.  Python exceptions are values of
    [result].  A naive [datetime] is the number of seconds between
    0000-12-31T00:00:00 (the midnight that begins proleptic ordinal day 0) and
    the instant it denotes, which is the quantity Python compares and shifts
    by a [timedelta]. *)

From Stdlib Require Import ZArith List Bool Reals Lra Lia Zfloor Psatz.
From stdpp Require Import base option list gmap sorting.

Set Default Proof Using "Type".

(** ** Python runtime: exceptions *)

Inductive exn : Type :=
| ZeroDivisionError
| ValueError
| OverflowError.

Inductive result (A : Type) : Type :=
| Ok (a : A)
| Raise (e : exn).
Arguments Ok {A} a.
Arguments Raise {A} e.

#[global] Instance result_ret : MRet result := fun A a => Ok a.
#[global] Instance result_bind : MBind result := fun A B k r =>
  match r with
  | Ok a => k a
  | Raise e => Raise e
  end.

Definition returns {A : Type} (r : result A) : Prop := exists a, r = Ok a.

(** ** Python runtime: numbers *)

Module Py.
Local Open Scope R_scope.

(** [math.floor] on a float. *)
Definition floor (x : R) : Z := Zfloor x.

(** [int(x)] on a float: truncation towards zero. *)
Definition int (x : R) : Z :=
  if Rle_dec 0 x then Zfloor x else Zceil x.

(** [round(x)] on a float, no [ndigits]: the nearest integer, ties going to
    the even neighbour. *)
Definition round (x : R) : Z :=
  let f := Zfloor x in
  let r := x - IZR f in
  if Rlt_dec r (1/2) then f
  else if Rlt_dec (1/2) r then (f + 1)%Z
  else if Z.even f then f else (f + 1)%Z.

(** [x % y] on floats with [y] a positive constant: the result has the sign
    of the divisor. *)
Definition fmod (x y : R) : R := x - y * IZR (Zfloor (x / y)).

(** [x / y] with a divisor that may be zero. *)
Definition div (x y : R) : result R :=
  if Req_dec_T y 0 then Raise ZeroDivisionError else Ok (x / y).

(** Builtin [max(a, b)] and [min(a, b)]: the first argument unless the second
    is strictly greater (resp. smaller). *)
Definition max (a b : R) : R := if Rlt_dec a b then b else a.
Definition min (a b : R) : R := if Rlt_dec b a then b else a.

(** [math.asin] and [math.acos] raise [ValueError] outside [[-1, 1]]. *)
Definition asin (x : R) : result R :=
  if Rle_dec (-1) x then
    if Rle_dec x 1 then Ok (Ratan.asin x) else Raise ValueError
  else Raise ValueError.

Definition acos (x : R) : result R :=
  if Rle_dec (-1) x then
    if Rle_dec x 1 then Ok (Ratan.acos x) else Raise ValueError
  else Raise ValueError.

(** [math.atan2(y, x)]: the angle of the point [(x, y)], in [(-pi, pi]]. *)
Definition atan2 (y x : R) : R :=
  if Rlt_dec 0 x then atan (y / x)
  else if Rlt_dec x 0 then
    if Rle_dec 0 y then atan (y / x) + PI else atan (y / x) - PI
  else if Rlt_dec 0 y then PI / 2
  else if Rlt_dec y 0 then - (PI / 2)
  else 0.

End Py.

(** ** Python runtime: [datetime.date] and [datetime.datetime] *)

Record date : Type := mkdate { year : Z; month : Z; day : Z }.

Module Datetime.
Local Open Scope Z_scope.

Definition MINYEAR : Z := 1.
Definition MAXYEAR : Z := 9999.
Definition MAXORDINAL : Z := 3652059.

Definition is_leap (y : Z) : bool :=
  (y mod 4 =? 0) && (negb (y mod 100 =? 0) || (y mod 400 =? 0)).

Definition days_in_month (y m : Z) : Z :=
  if m =? 2 then (if is_leap y then 29 else 28)
  else if (m =? 4) || (m =? 6) || (m =? 9) || (m =? 11) then 30
  else 31.

(** [_days_before_year]. *)
Definition days_before_year (y : Z) : Z :=
  let y := y - 1 in
  y * 365 + y / 4 - y / 100 + y / 400.

(** [_days_before_month]: the table [_DAYS_BEFORE_MONTH] plus the leap day. *)
Definition days_before_month (y m : Z) : Z :=
  (match m with
   | 1 => 0 | 2 => 31 | 3 => 59 | 4 => 90 | 5 => 120 | 6 => 151
   | 7 => 181 | 8 => 212 | 9 => 243 | 10 => 273 | 11 => 304 | _ => 334
   end) + (if (2 <? m) && is_leap y then 1 else 0).

(** [_ymd2ord]: 0001-01-01 is day 1. *)
Definition ymd2ord (y m d : Z) : Z :=
  days_before_year y + days_before_month y m + d.

(** The check of the [date] and [datetime] constructors. *)
Definition check_date_fields (y m d : Z) : bool :=
  (MINYEAR <=? y) && (y <=? MAXYEAR) && (1 <=? m) && (m <=? 12)
  && (1 <=? d) && (d <=? days_in_month y m).

Definition valid_date (d : date) : bool :=
  check_date_fields (year d) (month d) (day d).

Definition toordinal (d : date) : Z := ymd2ord (year d) (month d) (day d).

(** A naive datetime: seconds since the midnight that begins ordinal day 0. *)
Definition datetime : Type := Z.

(** [datetime(year, month, day)], the time of day left at 00:00:00. *)
Definition new (y m d : Z) : result datetime :=
  if check_date_fields y m d then Ok (ymd2ord y m d * 86400)
  else Raise ValueError.

(** [dt + timedelta(seconds=s)]: the ordinal of the sum must lie in
    [1 .. MAXORDINAL]. *)
Definition add_seconds (dt : datetime) (s : Z) : result datetime :=
  let t := dt + s in
  if (0 <? t / 86400) && (t / 86400 <=? MAXORDINAL) then Ok t
  else Raise OverflowError.

(** A time zone: the offset from UTC, in seconds, at a given UTC instant. *)
Record tzinfo : Type := mktz { utcoffset : datetime -> Z }.

Definition fixed_offset (off : Z) : tzinfo := {| utcoffset := fun _ => off |}.

(** [dt.astimezone(tz).replace(tzinfo=None)] on a datetime [dt] in UTC. *)
Definition astimezone_naive (dt : datetime) (tz : tzinfo) : result datetime :=
  add_seconds dt (utcoffset tz dt).

End Datetime.

(** ** [src/core/Combined.py]: solar utilities *)

Module Combined.
Import Datetime.
Local Open Scope R_scope.

Definition deg2rad (d : R) : R := d * PI / 180.
Definition rad2deg (r : R) : R := r * 180 / PI.

Definition julian_day (d : date) : R :=
  let '(y, m) :=
    if (month d <=? 2)%Z then (year d - 1, month d + 12)%Z
    else (year d, month d) in
  let D := day d in
  let A := Py.floor (IZR y / 100) in
  let B := (2 - A + Py.floor (IZR A / 4))%Z in
  IZR (Py.floor (365.25 * IZR (y + 4716))
       + Py.floor (30.6001 * IZR (m + 1)) + D + B) - 1524.5.

Definition jd_to_jcent (jd : R) : R := (jd - 2451545.0) / 36525.0.

Definition solar_coords (jc : R) : result (R * R * R * R * R) :=
  let M := deg2rad (Py.fmod (357.52911 + jc * (35999.05029 - 0.0001537 * jc)) 360.0) in
  let L0 := Py.fmod (280.46646 + jc * (36000.76983 + jc * 0.0003032)) 360.0 in
  let C := deg2rad (1.914602 - jc * (0.004817 + 0.000014 * jc)) * sin M
           + deg2rad (0.019993 - 0.000101 * jc) * sin (2 * M)
           + deg2rad 0.000289 * sin (3 * M) in
  let lam := deg2rad (Py.fmod (L0 + rad2deg C) 360.0) in
  let eps := deg2rad (23.439291 - jc * (0.0130042 + jc * (1.64e-7 - 5.04e-7 * jc))) in
  delta ← Py.asin (sin eps * sin lam);
  let alpha := Py.atan2 (cos eps * sin lam) (cos lam) in
  mret (M, lam, delta, alpha, eps).

Definition hour_angle (lat_rad dec altitude : R) : result R :=
  let alt := deg2rad altitude in
  cosH ← Py.div (sin alt - sin lat_rad * sin dec) (cos lat_rad * cos dec);
  let cosH := Py.min 1.0 (Py.max (-1.0) cosH) in
  Py.acos cosH.

Definition solar_transit_jd (jd lw : R) : R :=
  let n := Py.round (jd - 2451545.0009 - lw / (2 * PI)) in
  let Japprox := 2451545.0009 + lw / (2 * PI) + IZR n in
  let M_ := deg2rad (Py.fmod (357.5291 + 0.98560028 * (Japprox - 2451545)) 360.0) in
  let lam_ := deg2rad (Py.fmod (280.160 + 1.915 * sin M_ + 0.020 * sin (2 * M_)
                                + 0.0003 * sin (3 * M_)) 360.0) in
  2451545.0009 + lw / (2 * PI) + IZR n + 0.0053 * sin M_ - 0.0069 * sin (2 * lam_).

Definition jd_to_utc_datetime (jd : R) : result datetime :=
  let J := jd + 0.5 in
  let Zi := Py.int J in
  let F := J - IZR Zi in
  let A :=
    if (Zi <? 2299161)%Z then Zi
    else
      let alpha := Py.int ((IZR Zi - 1867216.25) / 36524.25) in
      (Zi + 1 + alpha - Py.int (IZR alpha / 4))%Z in
  let B := (A + 1524)%Z in
  let C := Py.int ((IZR B - 122.1) / 365.25) in
  let D := Py.int (365.25 * IZR C) in
  let E := Py.int (IZR (B - D) / 30.6001) in
  let day := IZR (B - D - Py.int (30.6001 * IZR E)) + F in
  let month := if (E <? 14)%Z then (E - 1)%Z else (E - 13)%Z in
  let year := if (2 <? month)%Z then (C - 4716)%Z else (C - 4715)%Z in
  let day_int := Py.int day in
  let frac := day - IZR day_int in
  let seconds := Py.round (frac * 86400) in
  dt ← Datetime.new year month day_int;
  Datetime.add_seconds dt seconds.

Definition sunrise_sunset_local (d : date) (lat_deg lon_deg : R) (tz : tzinfo)
  : result (datetime * datetime) :=
  let jd := julian_day d in
  let jc := jd_to_jcent jd in
  '(_, _, dec, _, _) ← solar_coords jc;
  let lw := deg2rad (- lon_deg) in
  H ← hour_angle (deg2rad lat_deg) dec (-0.833);
  let Jtransit := solar_transit_jd jd lw in
  let Jrise := Jtransit - rad2deg H / 360.0 in
  let Jset := Jtransit + rad2deg H / 360.0 in
  sr_utc ← jd_to_utc_datetime Jrise;
  sr ← astimezone_naive sr_utc tz;
  ss_utc ← jd_to_utc_datetime Jset;
  ss ← astimezone_naive ss_utc tz;
  mret (sr, ss).

(** *** The night-shading loop of [optional_plot]

    Dates are proleptic ordinals; a [Timestamp] counts nanoseconds from the
    midnight that begins ordinal day 0, or is [NaT].  The loop's effect is the
    sequence of [ax.axvspan(left, right, ...)] calls it makes, returned here
    as the list of the [(left, right)] pairs in call order. *)

Local Open Scope Z_scope.

Inductive Timestamp : Type :=
| NaT
| Ts (ns : Z).

Definition ns_per_day : Z := 86400 * 1000000000.

(** [pd.Timestamp(d)] for a [date] [d]: midnight at the start of the day. *)
Definition Timestamp_of_date (d : Z) : Timestamp := Ts (d * ns_per_day).

(** [t + pd.Timedelta(days=n)]. *)
Definition add_days (t : Timestamp) (n : Z) : Timestamp :=
  match t with
  | NaT => NaT
  | Ts ns => Ts (ns + n * ns_per_day)
  end.

Definition notna (t : Timestamp) : bool :=
  match t with NaT => false | Ts _ => true end.

(** [a < b]: every comparison with [NaT] is false. *)
Definition ts_lt (a b : Timestamp) : bool :=
  match a, b with
  | Ts x, Ts y => x <? y
  | _, _ => false
  end.

(** Builtin [max(a, b)] and [min(a, b)] on timestamps. *)
Definition ts_max (a b : Timestamp) : Timestamp := if ts_lt a b then b else a.
Definition ts_min (a b : Timestamp) : Timestamp := if ts_lt b a then b else a.

Definition span : Type := Timestamp * Timestamp.

(** [if pd.notna(left) and pd.notna(right) and left < right:
       ax.axvspan(left, right, ...)]. *)
Definition axvspan_if_nonempty (left right : Timestamp) : list span :=
  if notna left && notna right && ts_lt left right then [(left, right)] else [].

Definition dates_sorted_of (sun_map : gmap Z (option Timestamp * option Timestamp))
  : list Z :=
  merge_sort Z.le (elements (dom sun_map : gset Z)).

(** One iteration of [for i, d in enumerate(dates_sorted)]. *)
Definition shade_iteration
    (sun_map : gmap Z (option Timestamp * option Timestamp))
    (dates_sorted : list Z) (start_dt end_dt : Timestamp)
    (i : nat) (d : Z) : list span :=
  let sr := v ← sun_map !! d; v.1 in
  let ss := v ← sun_map !! d; v.2 in
  let sr_next := d' ← dates_sorted !! (i + 1)%nat; v ← sun_map !! d'; v.1 in
  (match ss, sr_next, dates_sorted !! (i + 1)%nat with
   | Some ss, Some sr_next, Some next_date =>
       let current_date := d in
       let day_gap := next_date - current_date in
       if day_gap <=? 1 then
         let left := ts_max ss start_dt in
         let right := ts_min sr_next end_dt in
         axvspan_if_nonempty left right
       else
         let left := ts_max ss start_dt in
         let midnight := add_days (Timestamp_of_date current_date) 1 in
         let right := ts_min midnight end_dt in
         axvspan_if_nonempty left right
         ++ (if bool_decide (next_date ∈ dates_sorted) then
               let next_midnight := Timestamp_of_date next_date in
               let left := ts_max next_midnight start_dt in
               let right := ts_min sr_next end_dt in
               axvspan_if_nonempty left right
             else [])
   | _, _, _ => []
   end)
  ++ (if (length dates_sorted =? 1)%nat then
        (match sr with
         | Some sr =>
             let left := start_dt in
             let right := ts_min sr end_dt in
             axvspan_if_nonempty left right
         | None => []
         end)
        ++ (match ss with
            | Some ss =>
                let left := ts_max ss start_dt in
                let right := end_dt in
                axvspan_if_nonempty left right
            | None => []
            end)
      else []).

(** The whole loop, lines 365-414 of [optional_plot]. *)
Definition night_spans
    (sun_map : gmap Z (option Timestamp * option Timestamp))
    (start_dt end_dt : Timestamp) : list span :=
  let dates_sorted := dates_sorted_of sun_map in
  concat (imap (shade_iteration sun_map dates_sorted start_dt end_dt) dates_sorted).

End Combined.

(** ** [src/generators/fig10_5mhz_generator.py]: the second copy of the solar
    utilities (lines 25-96) *)

Module Fig10.
Import Datetime.
Local Open Scope R_scope.

Definition deg2rad (d : R) : R := d * PI / 180.
Definition rad2deg (r : R) : R := r * 180 / PI.

Definition julian_day (d : date) : R :=
  let '(y, m) :=
    if (month d <=? 2)%Z then (year d - 1, month d + 12)%Z
    else (year d, month d) in
  let D := day d in
  let A := Py.floor (IZR y / 100) in
  let B := (2 - A + Py.floor (IZR A / 4))%Z in
  IZR (Py.floor (365.25 * IZR (y + 4716))
       + Py.floor (30.6001 * IZR (m + 1)) + D + B) - 1524.5.

Definition jd_to_jcent (jd : R) : R := (jd - 2451545.0) / 36525.0.

Definition solar_coords (jc : R) : result (R * R * R * R * R) :=
  let M := deg2rad (Py.fmod (357.52911 + jc * (35999.05029 - 0.0001537 * jc)) 360.0) in
  let L0 := Py.fmod (280.46646 + jc * (36000.76983 + jc * 0.0003032)) 360.0 in
  let C := deg2rad (1.914602 - jc * (0.004817 + 0.000014 * jc)) * sin M
           + deg2rad (0.019993 - 0.000101 * jc) * sin (2 * M)
           + deg2rad 0.000289 * sin (3 * M) in
  let lam := deg2rad (Py.fmod (L0 + rad2deg C) 360.0) in
  let eps := deg2rad (23.439291 - jc * (0.0130042 + jc * (1.64e-7 - 5.04e-7 * jc))) in
  delta ← Py.asin (sin eps * sin lam);
  let alpha := Py.atan2 (cos eps * sin lam) (cos lam) in
  mret (M, lam, delta, alpha, eps).

Definition hour_angle (lat_rad dec altitude : R) : result R :=
  let alt := deg2rad altitude in
  cosH ← Py.div (sin alt - sin lat_rad * sin dec) (cos lat_rad * cos dec);
  let cosH := Py.min 1.0 (Py.max (-1.0) cosH) in
  Py.acos cosH.

Definition solar_transit_jd (jd lw : R) : R :=
  let n := Py.round (jd - 2451545.0009 - lw / (2 * PI)) in
  let Japprox := 2451545.0009 + lw / (2 * PI) + IZR n in
  let M_ := deg2rad (Py.fmod (357.5291 + 0.98560028 * (Japprox - 2451545)) 360.0) in
  let lam_ := deg2rad (Py.fmod (280.160 + 1.915 * sin M_ + 0.020 * sin (2 * M_)
                                + 0.0003 * sin (3 * M_)) 360.0) in
  2451545.0009 + lw / (2 * PI) + IZR n + 0.0053 * sin M_ - 0.0069 * sin (2 * lam_).

Definition jd_to_utc_datetime (jd : R) : result datetime :=
  let J := jd + 0.5 in
  let Zi := Py.int J in
  let F := J - IZR Zi in
  let A :=
    if (Zi <? 2299161)%Z then Zi
    else
      let alpha := Py.int ((IZR Zi - 1867216.25) / 36524.25) in
      (Zi + 1 + alpha - Py.int (IZR alpha / 4))%Z in
  let B := (A + 1524)%Z in
  let C := Py.int ((IZR B - 122.1) / 365.25) in
  let D := Py.int (365.25 * IZR C) in
  let E := Py.int (IZR (B - D) / 30.6001) in
  let day := IZR (B - D - Py.int (30.6001 * IZR E)) + F in
  let month := if (E <? 14)%Z then (E - 1)%Z else (E - 13)%Z in
  let year := if (2 <? month)%Z then (C - 4716)%Z else (C - 4715)%Z in
  let day_int := Py.int day in
  let frac := day - IZR day_int in
  let seconds := Py.round (frac * 86400) in
  dt ← Datetime.new year month day_int;
  Datetime.add_seconds dt seconds.

Definition sunrise_sunset_local (d : date) (lat_deg lon_deg : R) (tz : tzinfo)
  : result (datetime * datetime) :=
  let jd := julian_day d in
  let jc := jd_to_jcent jd in
  '(_, _, dec, _, _) ← solar_coords jc;
  let lw := deg2rad (- lon_deg) in
  H ← hour_angle (deg2rad lat_deg) dec (-0.833);
  let Jtransit := solar_transit_jd jd lw in
  let Jrise := Jtransit - rad2deg H / 360.0 in
  let Jset := Jtransit + rad2deg H / 360.0 in
  sr_utc ← jd_to_utc_datetime Jrise;
  sr ← astimezone_naive sr_utc tz;
  ss_utc ← jd_to_utc_datetime Jset;
  ss ← astimezone_naive ss_utc tz;
  mret (sr, ss).

End Fig10.

(** ** [calculate_fof2_from_signal]

    The callers apply the function to a pandas column from which the missing
    readings were dropped ([df.dropna(subset=[year])]); the model is the
    function on one reading. *)

Module Estimator.
Local Open Scope R_scope.

(** [np.clip(a, a_min, a_max)]: [minimum(maximum(a, a_min), a_max)]. *)
Definition np_clip (a a_min a_max : R) : R := Rmin (Rmax a a_min) a_max.

(** [src/analysis/darwin_april15_fof2_7years.py], lines 83-98. *)
Module Darwin.
Definition calculate_fof2_from_signal (signal_db frequency_mhz : R) : R :=
  let baseline_fof2 := 9.0 in
  let signal_factor := signal_db / 12.0 in
  let estimated_fof2 := baseline_fof2 + signal_factor in
  let estimated_fof2 := np_clip estimated_fof2 3.0 15.0 in
  estimated_fof2.
End Darwin.

(** [src/analysis/guam_fof2_april.py], lines 80-94. *)
Module Guam.
Definition calculate_fof2_from_signal (signal_db frequency_mhz : R) : R :=
  let baseline_fof2 := 10.5 in
  let signal_factor := signal_db / 10.0 in
  let estimated_fof2 := baseline_fof2 + signal_factor in
  let estimated_fof2 := np_clip estimated_fof2 4.0 18.0 in
  estimated_fof2.
End Guam.

(** The estimator as the specification words it:
    [estimate(signal, baseline, scale, min, max)
       = clamp(baseline + signal/scale, min, max)]. *)
Definition clamp (x lo hi : R) : R :=
  if Rlt_dec x lo then lo else if Rlt_dec hi x then hi else x.

Definition estimate (signal baseline scale lo hi : R) : R :=
  clamp (baseline + signal / scale) lo hi.

End Estimator.

(** ** The calendar arithmetic on integers

    [julian_day] and the date part of [jd_to_utc_datetime] take integer parts
    of quotients of integers; these are the same computations written with
    integer division ([/] rounds down like [math.floor], [÷] truncates like
    [int]).  The section on calendar properties proves that they agree with
    the functions of [Combined]. *)

Module Civil.
Local Open Scope Z_scope.

(** [julian_day d + 0.5]. *)
Definition jdn (d : date) : Z :=
  let '(y, m) :=
    if month d <=? 2 then (year d - 1, month d + 12) else (year d, month d) in
  let A := y / 100 in
  let B := 2 - A + A / 4 in
  (1461 * (y + 4716)) / 4 + (306001 * (m + 1)) / 10000 + day d + B - 1524.

(** The [(year, month, day_int)] that [jd_to_utc_datetime] computes from [B]
    (the lines from [C = ...] on), and from [Zi = int(jd + 0.5)]. *)
Definition of_B (B : Z) : Z * Z * Z :=
  let C := (20 * B - 2442) ÷ 7305 in
  let D := (1461 * C) ÷ 4 in
  let E := (10000 * (B - D)) ÷ 306001 in
  let day := B - D - (306001 * E) ÷ 10000 in
  let month := if E <? 14 then E - 1 else E - 13 in
  let year := if 2 <? month then C - 4716 else C - 4715 in
  (year, month, day).

Definition of_jdn (Zi : Z) : Z * Z * Z :=
  let A :=
    if Zi <? 2299161 then Zi
    else
      let alpha := (4 * Zi - 7468865) ÷ 146097 in
      Zi + 1 + alpha - alpha ÷ 4 in
  let B := A + 1524 in
  of_B B.

(** A calendar given by its leap years [leap] and by the number of days
    before each year [before_year]: month lengths, day count and validity of
    a [(year, month, day)] triple. *)
Section Calendar.
Variable leap : Z -> bool.
Variable before_year : Z -> Z.

Definition cal_days_in_month (y m : Z) : Z :=
  if m =? 2 then (if leap y then 29 else 28)
  else if (m =? 4) || (m =? 6) || (m =? 9) || (m =? 11) then 30
  else 31.

Definition cal_before_month (y m : Z) : Z :=
  (match m with
   | 1 => 0 | 2 => 31 | 3 => 59 | 4 => 90 | 5 => 120 | 6 => 151
   | 7 => 181 | 8 => 212 | 9 => 243 | 10 => 273 | 11 => 304 | _ => 334
   end) + (if (2 <? m) && leap y then 1 else 0).

Definition cal_ord (y m d : Z) : Z := before_year y + cal_before_month y m + d.

Definition cal_valid (y m d : Z) : Prop :=
  1 <= m <= 12 /\ 1 <= d <= cal_days_in_month y m.

End Calendar.

(** The proleptic Gregorian calendar of [Datetime], and the Julian calendar
    with a leap year every fourth year, its day count aligned so that
    0001-01-01 (Julian) is day 1. *)
Definition julian_leap (y : Z) : bool := y mod 4 =? 0.
Definition julian_before_year (y : Z) : Z := (y - 1) * 365 + (y - 1) / 4.
Definition julian_days_in_month : Z -> Z -> Z := cal_days_in_month julian_leap.
Definition julian_ymd2ord : Z -> Z -> Z -> Z :=
  cal_ord julian_leap julian_before_year.

(** Lexicographic rank of a [(year, month, day)] triple with
    [1 <= month <= 12] and [1 <= day <= 31]. *)
Definition rank (y m d : Z) : Z := (y * 12 + m) * 32 + d.

(** [f] holds on the [n] integers from [lo] on. *)
Fixpoint all_from (f : Z -> bool) (lo : Z) (n : positive) : bool :=
  match n with
  | xH => f lo
  | xO p => all_from f lo p && all_from f (lo + Zpos p) p
  | xI p => f lo && all_from f (lo + 1) p && all_from f (lo + 1 + Zpos p) p
  end.

(** In the Gregorian branch the triple is a date of the proleptic Gregorian
    calendar whose ordinal is [Zi - 1721425]. *)
Definition gregorian_ok (Zi : Z) : bool :=
  let '(y, m, d) := of_jdn Zi in
  (1 <=? m) && (m <=? 12) && (1 <=? d) && (d <=? Datetime.days_in_month y m)
  && (Datetime.ymd2ord y m d =? Zi - 1721425).

(** In the Julian branch the triple is a date of the Julian calendar whose
    day count is [Zi - 1721423]. *)
Definition julian_ok (Zi : Z) : bool :=
  let '(y, m, d) := of_jdn Zi in
  (1 <=? m) && (m <=? 12) && (1 <=? d) && (d <=? julian_days_in_month y m)
  && (julian_ymd2ord y m d =? Zi - 1721423).

End Civil.

(** ** The specification's Julian Day at noon

    The Julian Day Number of a proleptic Gregorian date by the standard
    integer formula (Fliegel and Van Flandern), which is the Julian Day at
    12:00 UTC of that date: 2000-01-01 has number 2451545. *)

Module Spec.
Local Open Scope Z_scope.

Definition julian_day_number (d : date) : Z :=
  let a := (month d - 14) ÷ 12 in
  (1461 * (year d + 4800 + a)) ÷ 4
  + (367 * (month d - 2 - 12 * a)) ÷ 12
  - (3 * ((year d + 4900 + a) ÷ 100)) ÷ 4
  + day d - 32075.

Definition julian_day_at_noon (d : date) : R := IZR (julian_day_number d).

(** The first date that [jd_to_utc_datetime] reads in the Gregorian
    calendar. *)
Definition gregorian_start : date := mkdate 1582 10 15.

End Spec.

(** ** Sample data for the shading loop

    A table with the dates 2023-04-01, 2023-04-02 and 2023-04-05 (a gap after
    April 2), sunrise at 06:10 and sunset at 18:20 on each, and a plot window
    from 2023-03-31 23:00 to 2023-04-06 01:00. *)

Module Sample.
Import Combined.
Local Open Scope Z_scope.

Definition april (d : Z) : Z := Datetime.ymd2ord 2023 4 d.

Definition clock (date h m : Z) : Z :=
  date * ns_per_day + (h * 3600 + m * 60) * 1000000000.

Definition sun_row (date : Z) : Z * (option Timestamp * option Timestamp) :=
  (date, (Some (Ts (clock date 6 10)), Some (Ts (clock date 18 20)))).

Definition sun_map : gmap Z (option Timestamp * option Timestamp) :=
  list_to_map [sun_row (april 5); sun_row (april 1); sun_row (april 2)].

Definition plot_start : Z := clock (april 1) (-1) 0.
Definition plot_end : Z := clock (april 6) 1 0.

End Sample.

(** ** [src/generators/fig10_5mhz_generator.py]: [compute_sun_map] and the
    shading loop of [main]

    The same conventions as for the loop of [Combined]: dates are proleptic
    ordinals, the keys of [sun_map] are the ordinals of the dates, and the
    loop's effect is the list of its [ax.axvspan] calls.  A [datetime] that
    [sunrise_sunset_local] returns (seconds) is the [Timestamp] of the same
    instant (nanoseconds). *)

Module Fig10Plot.
Import Datetime Combined.
Local Open Scope Z_scope.

Definition to_timestamp (t : datetime) : Timestamp := Ts (t * 1000000000).

(** [try: sr, ss = sunrise_sunset_local(...)]
    [except Exception: sr, ss = (None, None)]. *)
Definition sun_entry (r : result (datetime * datetime))
  : option Timestamp * option Timestamp :=
  match r with
  | Ok (sr, ss) => (Some (to_timestamp sr), Some (to_timestamp ss))
  | Raise _ => (None, None)
  end.

(** Lines 143-151. *)
Definition compute_sun_map (unique_days : list date) (lat lon : R) (tz : tzinfo)
  : gmap Z (option Timestamp * option Timestamp) :=
  foldl (fun sun d =>
           <[toordinal d := sun_entry (Fig10.sunrise_sunset_local d lat lon tz)]> sun)
        ∅ unique_days.

(** One iteration of the loop of lines 167-176. *)
Definition shade_iteration
    (sun_map : gmap Z (option Timestamp * option Timestamp))
    (dates_sorted : list Z) (start_date end_date : Timestamp)
    (i : nat) (d : Z) : list span :=
  let ss := (default (None, None) (sun_map !! d)).2 in
  let sr_next :=
    match dates_sorted !! (i + 1)%nat with
    | Some d' => (default (None, None) (sun_map !! d')).1
    | None => None
    end in
  match ss, sr_next with
  | Some ss, Some sr_next =>
      let left := ts_max ss start_date in
      let right := ts_min sr_next end_date in
      axvspan_if_nonempty left right
  | _, _ => []
  end.

(** The loop of lines 166-176, [dates_sorted = sorted(unique_days)]. *)
Definition night_spans (unique_days : list Z)
    (sun_map : gmap Z (option Timestamp * option Timestamp))
    (start_date end_date : Timestamp) : list span :=
  let dates_sorted := merge_sort Z.le unique_days in
  concat (imap (shade_iteration sun_map dates_sorted start_date end_date) dates_sorted).

End Fig10Plot.

(** ** [src/core/Combined.py]: [compute_sun_table], the sun table of
    [optional_plot] and the file name of the plot *)

Module CombinedPlot.
Import Datetime Combined.
Local Open Scope Z_scope.

(** Python compares [date] objects as the tuples [(year, month, day)]. *)
Definition date_lt (a b : date) : Prop :=
  year a < year b
  \/ (year a = year b
      /\ (month a < month b \/ (month a = month b /\ day a < day b))).

Definition date_le (a b : date) : Prop := date_lt a b \/ a = b.

#[global] Instance date_eq_dec : EqDecision date.
Proof. solve_decision. Defined.

#[global] Instance date_lt_dec (a b : date) : Decision (date_lt a b).
Proof. unfold date_lt. apply _. Defined.

#[global] Instance date_le_dec (a b : date) : Decision (date_le a b).
Proof. unfold date_le. apply _. Defined.

(** A row of the sun table: [{"Date": pd.Timestamp(d), "Sunrise": sr,
    "Sunset": ss}]. *)
Record sun_row : Type := mkrow { Date : Timestamp; Sunrise : datetime; Sunset : datetime }.

(** The loop of [compute_sun_table] over the sorted distinct dates: an
    exception of [sunrise_sunset_local] ends the loop and the function. *)
Fixpoint sun_rows (days : list date) (lat lon : R) (tz : tzinfo)
  : result (list sun_row) :=
  match days with
  | [] => mret []
  | d :: days =>
      '(sr, ss) ← sunrise_sunset_local d lat lon tz;
      recs ← sun_rows days lat lon tz;
      mret (mkrow (Timestamp_of_date (toordinal d)) sr ss :: recs)
  end.

(** Lines 192-200; [None] stands for a date that is [NaT].
    [sorted({d for d in ... if pd.notna(d)})] is the sorted list of the
    distinct dates. *)
Definition compute_sun_table (dates : list (option date)) (lat lon : R) (tz : tzinfo)
  : result (list sun_row) :=
  sun_rows (merge_sort date_le (remove_dups (omap (fun d => d) dates))) lat lon tz.

(** The sun table of [optional_plot] when the file has no Sunrise and Sunset
    columns, lines 346-353. *)
Definition plot_sun_map (unique_days : list date) (lat lon : R) (tz : tzinfo)
  : gmap Z (option Timestamp * option Timestamp) :=
  foldl (fun sun_map d =>
           <[toordinal d :=
               match sunrise_sunset_local d lat lon tz with
               | Ok (sr, ss) =>
                   (Some (Fig10Plot.to_timestamp sr), Some (Fig10Plot.to_timestamp ss))
               | Raise _ => (None, None)
               end]> sun_map)
        ∅ unique_days.

(** A Python [str] is the list of its code points; [s.replace(old, new)] for
    a one-character [old]. *)
Definition str : Type := list N.

Definition replace_char (old : N) (new : str) (s : str) : str :=
  c ← s; if (c =? old)%N then new else [c].

(** Code points: [":"] 58, ["/"] 47, the plus-minus sign 177, [" "] 32,
    ["("] 40, [")"] 41, [","] 44, ["-"] 45, ["+"] 43, ["_"] 95. *)
Definition safe_title (title : str) : str :=
  let safe_title :=
    replace_char 32 [95%N]
      (replace_char 177 [43%N; 45%N]
         (replace_char 47 [45%N] (replace_char 58 [45%N] title))) in
  replace_char 44 [] (replace_char 41 [] (replace_char 40 [] safe_title)).

End CombinedPlot.

(** ** Dates read ten days early

    The check that on [Zi] the date part of [jd_to_utc_datetime] is a valid
    proleptic Gregorian date ten days before the day with Julian Day Number
    [Zi]. *)

Module Switch.
Local Open Scope Z_scope.

Definition ten_days_early (Zi : Z) : bool :=
  let '(y, m, d) := Civil.of_jdn Zi in
  Datetime.check_date_fields y m d
  && (Datetime.ymd2ord y m d =? Zi - 1721425 - 10).

End Switch.

(** ** The order of the shaded intervals

    What is asked of a sun table, and what it means for one interval to come
    before another. *)

Module NightOrder.
Import Combined.
Local Open Scope Z_scope.

(** The event [t] of the date [d] lies within the day [d]. *)
Definition within_day (d : Z) (t : Timestamp) : Prop :=
  match t with
  | Ts ns => d * ns_per_day <= ns < (d + 1) * ns_per_day
  | NaT => True
  end.

(** A sun table whose sunrises and sunsets lie within their days, the
    sunrise before the sunset. *)
Definition sun_table_ok (sun_map : gmap Z (option Timestamp * option Timestamp))
  : Prop :=
  forall d sr ss,
    sun_map !! d = Some (sr, ss) ->
    (forall t, sr = Some t -> within_day d t)
    /\ (forall t, ss = Some t -> within_day d t)
    /\ (forall a b, sr = Some (Ts a) -> ss = Some (Ts b) -> a < b).

(** The interval [sp1] ends before [sp2] begins. *)
Definition span_before (sp1 sp2 : span) : Prop :=
  match sp1.2, sp2.1 with
  | Ts r, Ts l => r <= l
  | _, _ => False
  end.

End NightOrder.

(** * Properties *)

(** ** The foF2 estimator *)

Section EstimatorFacts.
Import Estimator.
Local Open Scope R_scope.

Lemma np_clip_clamp (x lo hi : R) : lo <= hi -> np_clip x lo hi = clamp x lo hi.
Proof.
  intros Hlh. unfold np_clip, clamp, Rmin, Rmax.
  repeat (destruct Rle_dec); repeat (destruct Rlt_dec); lra.
Qed.

Lemma np_clip_bounds (x lo hi : R) : lo <= hi -> lo <= np_clip x lo hi <= hi.
Proof.
  intros Hlh. unfold np_clip, Rmin, Rmax.
  repeat (destruct Rle_dec); lra.
Qed.

(** C8.  On every signal reading the Darwin and the Guam estimators return
    the specification's [estimate], i.e. [clamp(baseline + s/scale, min, max)],
    with the constants (9.0, 12.0, 3.0, 15.0) and (10.5, 10.0, 4.0, 18.0);
    the Darwin result always lies in [[3.0, 15.0]]. *)
Theorem calculate_fof2_from_signal_is_clamp (s f : R) :
  Darwin.calculate_fof2_from_signal s f = estimate s 9.0 12.0 3.0 15.0
  /\ Guam.calculate_fof2_from_signal s f = estimate s 10.5 10.0 4.0 18.0
  /\ Darwin.calculate_fof2_from_signal s f
     = clamp (9.0 + s / 12.0) 3.0 15.0
  /\ 3.0 <= Darwin.calculate_fof2_from_signal s f <= 15.0.
Proof.
  unfold Darwin.calculate_fof2_from_signal, Guam.calculate_fof2_from_signal,
    estimate.
  repeat split; try (apply np_clip_clamp; lra); apply np_clip_bounds; lra.
Qed.

End EstimatorFacts.

(** ** The two copies of the solar utilities *)

Section Copies.
Import Datetime.

Lemma julian_day_copies (d : date) : Combined.julian_day d = Fig10.julian_day d.
Proof. reflexivity. Qed.

Lemma solar_coords_copies (jc : R) : Combined.solar_coords jc = Fig10.solar_coords jc.
Proof. reflexivity. Qed.

Lemma hour_angle_copies (lat_rad dec altitude : R) :
  Combined.hour_angle lat_rad dec altitude = Fig10.hour_angle lat_rad dec altitude.
Proof. reflexivity. Qed.

Lemma solar_transit_jd_copies (jd lw : R) :
  Combined.solar_transit_jd jd lw = Fig10.solar_transit_jd jd lw.
Proof. reflexivity. Qed.

Lemma jd_to_utc_datetime_copies (jd : R) :
  Combined.jd_to_utc_datetime jd = Fig10.jd_to_utc_datetime jd.
Proof. reflexivity. Qed.

(** C10.  The solar calculator of [Combined.py] and its copy in
    [fig10_5mhz_generator.py] return the same result (the same pair, or the
    same exception) on every date, latitude, longitude and time zone. *)
Theorem sunrise_sunset_local_copies_agree (d : date) (lat_deg lon_deg : R) (tz : tzinfo) :
  Combined.sunrise_sunset_local d lat_deg lon_deg tz
  = Fig10.sunrise_sunset_local d lat_deg lon_deg tz.
Proof.
  unfold Combined.sunrise_sunset_local, Fig10.sunrise_sunset_local.
  rewrite julian_day_copies.
  unfold Combined.jd_to_jcent, Combined.deg2rad, Combined.rad2deg.
  rewrite solar_coords_copies.
  destruct (Fig10.solar_coords _) as [[[[[M lam] dec] alpha] eps]|e]; [|reflexivity].
  cbn. rewrite hour_angle_copies, solar_transit_jd_copies.
  destruct (Fig10.hour_angle _ _ _) as [H|e]; [|reflexivity].
  cbn. now rewrite !jd_to_utc_datetime_copies.
Qed.

End Copies.

(** ** The night-shading loop *)

Section Shading.
Import Combined.
Local Open Scope Z_scope.

Implicit Types sun_map : gmap Z (option Timestamp * option Timestamp).

Lemma ts_max_Ts (x y : Z) : ts_max (Ts x) (Ts y) = Ts (Z.max x y).
Proof. unfold ts_max; cbn. destruct (Z.ltb_spec x y); f_equal; lia. Qed.

Lemma ts_min_Ts (x y : Z) : ts_min (Ts x) (Ts y) = Ts (Z.min x y).
Proof. unfold ts_min; cbn. destruct (Z.ltb_spec y x); f_equal; lia. Qed.

Lemma axvspan_if_nonempty_Ts (l r : Z) :
  axvspan_if_nonempty (Ts l) (Ts r) = if l <? r then [(Ts l, Ts r)] else [].
Proof. reflexivity. Qed.

Lemma elem_of_span_if (l r : Z) (sp : span) :
  sp ∈ (if l <? r then [(Ts l, Ts r)] else []) <-> l < r /\ sp = (Ts l, Ts r).
Proof.
  destruct (Z.ltb_spec l r); [rewrite list_elem_of_singleton | rewrite elem_of_nil];
    intuition lia.
Qed.

Lemma elem_of_concat_2 {A : Type} (x : A) (l : list A) (ls : list (list A)) :
  x ∈ l -> l ∈ ls -> x ∈ concat ls.
Proof.
  intros Hx. induction ls as [|l' ls IH]; cbn.
  - now intros ?%elem_of_nil.
  - rewrite elem_of_cons, elem_of_app. intros [<-|Hl]; auto.
Qed.

(** What the loop emits in iteration [i] is part of what the loop emits. *)
Lemma shade_iteration_in_night_spans sun_map (start_dt end_dt : Timestamp)
    (i : nat) (d : Z) (sp : span) :
  dates_sorted_of sun_map !! i = Some d ->
  sp ∈ shade_iteration sun_map (dates_sorted_of sun_map) start_dt end_dt i d ->
  sp ∈ night_spans sun_map start_dt end_dt.
Proof.
  intros Hi Hsp. unfold night_spans.
  eapply elem_of_concat_2; [exact Hsp|]. now apply elem_of_lookup_imap_2.
Qed.

(** With a successor in the list, the list has at least two dates. *)
Lemma successor_not_single (ds : list Z) (i : nat) (d' : Z) :
  ds !! (i + 1)%nat = Some d' -> (length ds =? 1)%nat = false.
Proof. intros H%lookup_lt_Some. apply Nat.eqb_neq. lia. Qed.

(** C5.  When the next date [d'] of the sorted dates is at most one day after
    [d], iteration [d] of the loop emits the interval
    [[max(sunset(d), plot_start), min(sunrise(d'), plot_end)]] if its left end
    is strictly before its right end, and nothing otherwise. *)
Theorem consecutive_days_night_span sun_map (plot_start plot_end : Z)
    (i : nat) (d d' : Z) (sunrise_d ss_d' : option Timestamp)
    (sunset_d sunrise_d' : Z) :
  dates_sorted_of sun_map !! i = Some d ->
  dates_sorted_of sun_map !! (i + 1)%nat = Some d' ->
  sun_map !! d = Some (sunrise_d, Some (Ts sunset_d)) ->
  sun_map !! d' = Some (Some (Ts sunrise_d'), ss_d') ->
  d' - d <= 1 ->
  let left := Z.max sunset_d plot_start in
  let right := Z.min sunrise_d' plot_end in
  shade_iteration sun_map (dates_sorted_of sun_map) (Ts plot_start) (Ts plot_end) i d
  = (if left <? right then [(Ts left, Ts right)] else [])
  /\ (left < right ->
      (Ts left, Ts right) ∈ night_spans sun_map (Ts plot_start) (Ts plot_end)).
Proof.
  intros Hi Hi' Hd Hd' Hgap left right.
  assert (Hit : shade_iteration sun_map (dates_sorted_of sun_map)
                  (Ts plot_start) (Ts plot_end) i d
                = (if left <? right then [(Ts left, Ts right)] else [])).
  { unfold shade_iteration. rewrite Hi', Hd. cbn. rewrite Hd'. cbn.
    rewrite (successor_not_single _ _ _ Hi'), app_nil_r.
    destruct (Z.leb_spec (d' - d) 1); [|lia].
    now rewrite ts_max_Ts, ts_min_Ts, axvspan_if_nonempty_Ts. }
  split; [exact Hit|]. intros Hlt.
  apply (shade_iteration_in_night_spans _ _ _ i d); [exact Hi|].
  rewrite Hit. apply elem_of_span_if. auto.
Qed.

Lemma consecutive_days_night_span_witness :
  shade_iteration Sample.sun_map (dates_sorted_of Sample.sun_map)
    (Ts Sample.plot_start) (Ts Sample.plot_end) 0 (Sample.april 1)
  = [(Ts (Sample.clock (Sample.april 1) 18 20),
      Ts (Sample.clock (Sample.april 2) 6 10))].
Proof.
  apply (consecutive_days_night_span Sample.sun_map Sample.plot_start
           Sample.plot_end 0 (Sample.april 1) (Sample.april 2)
           (Some (Ts (Sample.clock (Sample.april 1) 6 10)))
           (Some (Ts (Sample.clock (Sample.april 2) 18 20)))
           (Sample.clock (Sample.april 1) 18 20)
           (Sample.clock (Sample.april 2) 6 10));
    vm_compute; first [reflexivity | discriminate].
Defined.

(** C4.  When the next date [d'] of the sorted dates is more than one day
    after [d], iteration [d] of the loop emits exactly two pieces, each only
    if non-empty: [[max(sunset(d), plot_start), min(midnight ending d,
    plot_end)]] and [[max(midnight starting d', plot_start),
    min(sunrise(d'), plot_end)]].  Every interval of the iteration ends by the
    midnight that ends [d] or starts at or after the midnight that starts
    [d'], so none spans the days without data. *)
Theorem gap_days_night_spans sun_map (plot_start plot_end : Z)
    (i : nat) (d d' : Z) (sunrise_d ss_d' : option Timestamp)
    (sunset_d sunrise_d' : Z) :
  dates_sorted_of sun_map !! i = Some d ->
  dates_sorted_of sun_map !! (i + 1)%nat = Some d' ->
  sun_map !! d = Some (sunrise_d, Some (Ts sunset_d)) ->
  sun_map !! d' = Some (Some (Ts sunrise_d'), ss_d') ->
  1 < d' - d ->
  let midnight_end_d := (d + 1) * ns_per_day in
  let midnight_start_d' := d' * ns_per_day in
  let left1 := Z.max sunset_d plot_start in
  let right1 := Z.min midnight_end_d plot_end in
  let left2 := Z.max midnight_start_d' plot_start in
  let right2 := Z.min sunrise_d' plot_end in
  let emitted :=
    shade_iteration sun_map (dates_sorted_of sun_map)
      (Ts plot_start) (Ts plot_end) i d in
  emitted = (if left1 <? right1 then [(Ts left1, Ts right1)] else [])
            ++ (if left2 <? right2 then [(Ts left2, Ts right2)] else [])
  /\ midnight_end_d < midnight_start_d'
  /\ (forall l r : Z, (Ts l, Ts r) ∈ emitted ->
        r <= midnight_end_d \/ midnight_start_d' <= l)
  /\ (forall sp, sp ∈ emitted ->
        sp ∈ night_spans sun_map (Ts plot_start) (Ts plot_end)).
Proof.
  intros Hi Hi' Hd Hd' Hgap me ms left1 right1 left2 right2 emitted.
  assert (Hit : emitted
                = (if left1 <? right1 then [(Ts left1, Ts right1)] else [])
                  ++ (if left2 <? right2 then [(Ts left2, Ts right2)] else [])).
  { unfold emitted, shade_iteration. rewrite Hi', Hd. cbn. rewrite Hd'. cbn.
    rewrite (successor_not_single _ _ _ Hi'), app_nil_r.
    destruct (Z.leb_spec (d' - d) 1); [lia|].
    rewrite bool_decide_eq_true_2 by (eapply list_elem_of_lookup_2; exact Hi').
    unfold Timestamp_of_date; cbn.
    rewrite !ts_max_Ts, !ts_min_Ts, !axvspan_if_nonempty_Ts.
    subst left1 right1 left2 right2 me ms.
    now replace (d * ns_per_day + 1 * ns_per_day) with ((d + 1) * ns_per_day) by lia. }
  assert (Hns : 0 < ns_per_day) by (unfold ns_per_day; lia).
  split; [exact Hit|]. split; [subst me ms; nia|]. split.
  - intros l r. rewrite Hit, elem_of_app, !elem_of_span_if.
    intros [[_ [= -> ->]]|[_ [= -> ->]]]; subst right1 left2; lia.
  - intros sp Hsp. now apply (shade_iteration_in_night_spans _ _ _ i d).
Qed.

Lemma gap_days_night_spans_witness :
  shade_iteration Sample.sun_map (dates_sorted_of Sample.sun_map)
    (Ts Sample.plot_start) (Ts Sample.plot_end) 1 (Sample.april 2)
  = [(Ts (Sample.clock (Sample.april 2) 18 20), Ts (Sample.clock (Sample.april 3) 0 0));
     (Ts (Sample.clock (Sample.april 5) 0 0), Ts (Sample.clock (Sample.april 5) 6 10))].
Proof.
  apply (gap_days_night_spans Sample.sun_map Sample.plot_start
           Sample.plot_end 1 (Sample.april 2) (Sample.april 5)
           (Some (Ts (Sample.clock (Sample.april 2) 6 10)))
           (Some (Ts (Sample.clock (Sample.april 5) 18 20)))
           (Sample.clock (Sample.april 2) 18 20)
           (Sample.clock (Sample.april 5) 6 10));
    vm_compute; first [reflexivity | discriminate].
Defined.

(** The gap scenario of the specification: the dates April 1, 2 and 5 in a
    window that covers them all give one full night, then the evening of
    April 2 up to midnight and the morning of April 5 from midnight. *)
Example night_spans_gap_scenario :
  night_spans Sample.sun_map (Ts Sample.plot_start) (Ts Sample.plot_end)
  = [(Ts (Sample.clock (Sample.april 1) 18 20), Ts (Sample.clock (Sample.april 2) 6 10));
     (Ts (Sample.clock (Sample.april 2) 18 20), Ts (Sample.clock (Sample.april 3) 0 0));
     (Ts (Sample.clock (Sample.april 5) 0 0), Ts (Sample.clock (Sample.april 5) 6 10))].
Proof. vm_compute. reflexivity. Qed.

(** C6.  With a single date [d] in the data, the loop emits the pre-sunrise
    interval [[plot_start, min(sunrise(d), plot_end)]] and the post-sunset
    interval [[max(sunset(d), plot_start), plot_end]], each only if
    non-empty, and nothing else. *)
Theorem single_date_night_spans (plot_start plot_end d sunrise_d sunset_d : Z) :
  night_spans {[ d := (Some (Ts sunrise_d), Some (Ts sunset_d)) ]}
    (Ts plot_start) (Ts plot_end)
  = (if plot_start <? Z.min sunrise_d plot_end
     then [(Ts plot_start, Ts (Z.min sunrise_d plot_end))] else [])
    ++ (if Z.max sunset_d plot_start <? plot_end
        then [(Ts (Z.max sunset_d plot_start), Ts plot_end)] else []).
Proof.
  unfold night_spans, dates_sorted_of.
  rewrite dom_singleton_L, elements_singleton. cbn.
  unfold shade_iteration. cbn. rewrite lookup_singleton_eq. cbn.
  rewrite ts_max_Ts, ts_min_Ts, !axvspan_if_nonempty_Ts.
  now rewrite app_nil_r.
Qed.

End Shading.

(** ** Calendar arithmetic *)

Section IntegerParts.
Local Open Scope R_scope.

Lemma floor_ratio (a b : Z) : (0 < b)%Z -> Py.floor (IZR a / IZR b) = (a / b)%Z.
Proof.
  intros Hb. apply Zfloor_eq.
  pose proof (Z.div_mod a b ltac:(lia)) as Hdm.
  pose proof (Z.mod_pos_bound a b Hb) as Hm.
  assert (Hb' : 0 < IZR b) by now apply IZR_lt.
  assert (E : IZR a = IZR b * IZR (a / b) + IZR (a mod b)).
  { rewrite <- mult_IZR, <- plus_IZR. now f_equal. }
  assert (H0 : 0 <= IZR (a mod b) < IZR b).
  { split; [apply IZR_le | apply IZR_lt]; lia. }
  rewrite E. split.
  - apply Rmult_le_reg_r with (IZR b); [lra|].
    unfold Rdiv. rewrite Rmult_assoc, Rinv_l by lra. nra.
  - apply Rmult_lt_reg_r with (IZR b); [lra|].
    unfold Rdiv. rewrite Rmult_assoc, Rinv_l by lra. nra.
Qed.

Lemma int_ratio (a b : Z) : (0 < b)%Z -> Py.int (IZR a / IZR b) = (a ÷ b)%Z.
Proof.
  intros Hb. assert (Hb' : 0 < IZR b) by now apply IZR_lt.
  unfold Py.int. destruct (Rle_dec 0 (IZR a / IZR b)) as [Hq|Hq].
  - assert (0 <= a)%Z.
    { apply le_IZR. apply Rmult_le_reg_r with (/ IZR b).
      - now apply Rinv_0_lt_compat.
      - rewrite Rmult_0_l. exact Hq. }
    rewrite Z.quot_div_nonneg by lia. now apply floor_ratio.
  - assert (a < 0)%Z.
    { apply lt_IZR. apply Rnot_le_lt in Hq.
      apply Rmult_lt_reg_r with (/ IZR b).
      - now apply Rinv_0_lt_compat.
      - rewrite Rmult_0_l. exact Hq. }
    unfold Zceil. replace (- (IZR a / IZR b)) with (IZR (- a) / IZR b)
      by (rewrite opp_IZR; unfold Rdiv; ring).
    change (Zfloor (IZR (- a) / IZR b)) with (Py.floor (IZR (- a) / IZR b)).
    rewrite floor_ratio by exact Hb.
    rewrite <- (Z.quot_div_nonneg (- a) b) by lia.
    rewrite Z.quot_opp_l by lia. lia.
Qed.

Lemma int_IZR (k : Z) : Py.int (IZR k) = k.
Proof.
  replace (IZR k) with (IZR k / IZR 1) by (unfold Rdiv; rewrite Rinv_1; ring).
  rewrite int_ratio by lia. apply Z.quot_1_r.
Qed.

(** Adding a fraction in [[0, 1)] to a non-negative integer does not change
    the integer part. *)
Lemma int_plus_frac (k : Z) (f : R) :
  (0 <= k)%Z -> 0 <= f < 1 -> Py.int (IZR k + f) = k.
Proof.
  intros Hk Hf. apply IZR_le in Hk. unfold Py.int.
  destruct (Rle_dec 0 (IZR k + f)); [|lra]. apply Zfloor_eq. lra.
Qed.

Lemma round_bounds (x : R) : x - 1 / 2 <= IZR (Py.round x) <= x + 1 / 2.
Proof.
  unfold Py.round. pose proof (Zfloor_bound x) as Hf.
  destruct (Rlt_dec _ _); [lra|]. destruct (Rlt_dec _ _).
  - rewrite plus_IZR. lra.
  - destruct (Z.even _); [|rewrite plus_IZR]; lra.
Qed.

Lemma round_IZR (k : Z) : Py.round (IZR k) = k.
Proof.
  unfold Py.round. rewrite ZfloorZ.
  destruct (Rlt_dec _ _) as [|H]; [reflexivity|]. exfalso. apply H. lra.
Qed.

End IntegerParts.

Section JulianDay.
Import Datetime Civil Combined.
Local Open Scope Z_scope.

Lemma all_from_spec (f : Z -> bool) (n : positive) :
  forall lo, all_from f lo n = true ->
  forall z, lo <= z < lo + Zpos n -> f z = true.
Proof.
  induction n as [p IH|p IH|]; intros lo Hall z Hz; cbn in Hall.
  - apply andb_prop in Hall as [Hall H2]. apply andb_prop in Hall as [H0 H1].
    destruct (Z.eq_dec z lo) as [->|]; [exact H0|].
    destruct (Z_lt_le_dec z (lo + 1 + Zpos p)).
    + apply (IH _ H1). lia.
    + apply (IH _ H2). lia.
  - apply andb_prop in Hall as [H1 H2].
    destruct (Z_lt_le_dec z (lo + Zpos p)).
    + apply (IH _ H1). lia.
    + apply (IH _ H2). lia.
  - assert (z = lo) as -> by lia. exact Hall.
Qed.

Lemma check_date_fields_spec (y m d : Z) :
  check_date_fields y m d = true <->
  1 <= y <= 9999 /\ 1 <= m <= 12 /\ 1 <= d <= days_in_month y m.
Proof.
  unfold check_date_fields, MINYEAR, MAXYEAR.
  rewrite !andb_true_iff, !Z.leb_le. lia.
Qed.

Lemma month_cases (m : Z) :
  1 <= m <= 12 ->
  m = 1 \/ m = 2 \/ m = 3 \/ m = 4 \/ m = 5 \/ m = 6 \/ m = 7 \/ m = 8
  \/ m = 9 \/ m = 10 \/ m = 11 \/ m = 12.
Proof. lia. Qed.

Ltac each_month Hm :=
  apply month_cases in Hm;
  repeat (destruct Hm as [Hm|Hm]); subst.

Lemma is_leap_spec (y : Z) :
  is_leap y = true <-> y mod 4 = 0 /\ (y mod 100 <> 0 \/ y mod 400 = 0).
Proof.
  unfold is_leap. rewrite andb_true_iff, orb_true_iff, negb_true_iff,
    Z.eqb_neq, !Z.eqb_eq. tauto.
Qed.

(** [julian_day] is half a day less than the integer [jdn]. *)
Lemma julian_day_jdn (d : date) : julian_day d = (IZR (jdn d) - 0.5)%R.
Proof.
  unfold julian_day, jdn.
  destruct (month d <=? 2); cbn zeta.
  - replace (365.25 * IZR (year d - 1 + 4716))%R
      with (IZR (1461 * (year d - 1 + 4716)) / IZR 4)%R
      by (rewrite !mult_IZR; lra).
    replace (30.6001 * IZR (month d + 12 + 1))%R
      with (IZR (306001 * (month d + 12 + 1)) / IZR 10000)%R
      by (rewrite !mult_IZR; lra).
    rewrite !floor_ratio by lia.
    rewrite (minus_IZR _ 1524). lra.
  - replace (365.25 * IZR (year d + 4716))%R
      with (IZR (1461 * (year d + 4716)) / IZR 4)%R
      by (rewrite !mult_IZR; lra).
    replace (30.6001 * IZR (month d + 1))%R
      with (IZR (306001 * (month d + 1)) / IZR 10000)%R
      by (rewrite !mult_IZR; lra).
    rewrite !floor_ratio by lia.
    rewrite (minus_IZR _ 1524). lra.
Qed.

(** The integer [jdn] is the ordinal of the date shifted by the Julian Day
    Number of 0000-12-31. *)
Lemma jdn_toordinal (d : date) :
  1 <= month d <= 12 -> jdn d = toordinal d + 1721425.
Proof.
  destruct d as [y m dd]; cbn. intros Hm.
  unfold jdn, toordinal, ymd2ord, days_before_year, days_before_month; cbn.
  each_month Hm; cbn;
    destruct (is_leap y) eqn:Hl;
    try (apply is_leap_spec in Hl);
    try (apply not_true_iff_false in Hl; rewrite is_leap_spec in Hl);
    Z.div_mod_to_equations; lia.
Qed.

Lemma spec_julian_day_number_toordinal (d : date) :
  1 <= year d -> 1 <= month d <= 12 ->
  Spec.julian_day_number d = toordinal d + 1721425.
Proof.
  destruct d as [y m dd]; cbn. intros Hy Hm.
  unfold Spec.julian_day_number, toordinal, ymd2ord, days_before_year,
    days_before_month; cbn.
  each_month Hm; cbn;
    repeat match goal with
      | |- context [?a ÷ ?b] =>
          let v := eval vm_compute in (a ÷ b) in
          lazymatch v with Z0 => idtac | Zpos _ => idtac | Zneg _ => idtac end;
          change (a ÷ b) with v
      | |- context [?a ÷ ?b] =>
          rewrite (Z.quot_div_nonneg a b) by (Z.div_mod_to_equations; lia)
      end;
    destruct (is_leap y) eqn:Hl;
    try (apply is_leap_spec in Hl);
    try (apply not_true_iff_false in Hl; rewrite is_leap_spec in Hl);
    Z.div_mod_to_equations; lia.
Qed.

(** *** The date part of [jd_to_utc_datetime] is a calendar conversion *)

Lemma of_B_shift (B k : Z) :
  123 <= B -> 0 <= k ->
  of_B (B + 1461 * k) = let '(y, m, d) := of_B B in (y + 4 * k, m, d).
Proof.
  intros HB Hk. unfold of_B.
  assert (HC : (20 * (B + 1461 * k) - 2442) ÷ 7305 = (20 * B - 2442) ÷ 7305 + 4 * k).
  { rewrite !Z.quot_div_nonneg by lia. Z.div_mod_to_equations; lia. }
  rewrite HC. set (C := (20 * B - 2442) ÷ 7305).
  assert (HC0 : 0 <= C) by (apply Z.quot_pos; lia).
  assert (HD : (1461 * (C + 4 * k)) ÷ 4 = (1461 * C) ÷ 4 + 1461 * k).
  { rewrite !Z.quot_div_nonneg by lia. Z.div_mod_to_equations; lia. }
  rewrite HD. set (D := (1461 * C) ÷ 4).
  replace (B + 1461 * k - (D + 1461 * k)) with (B - D) by lia.
  set (E := (10000 * (B - D)) ÷ 306001).
  destruct (E <? 14); cbn zeta.
  - destruct (2 <? E - 1); f_equal; f_equal; lia.
  - destruct (2 <? E - 13); f_equal; f_equal; lia.
Qed.

Lemma is_leap_400 (y : Z) : is_leap (y + 400) = is_leap y.
Proof.
  unfold is_leap.
  replace ((y + 400) mod 4) with (y mod 4) by (Z.div_mod_to_equations; lia).
  replace ((y + 400) mod 100) with (y mod 100) by (Z.div_mod_to_equations; lia).
  replace ((y + 400) mod 400) with (y mod 400) by (Z.div_mod_to_equations; lia).
  reflexivity.
Qed.

Lemma days_in_month_400 (y m : Z) : days_in_month (y + 400) m = days_in_month y m.
Proof. unfold days_in_month. now rewrite is_leap_400. Qed.

Lemma ymd2ord_400 (y m d : Z) : ymd2ord (y + 400) m d = ymd2ord y m d + 146097.
Proof.
  unfold ymd2ord, days_before_month, days_before_year. rewrite is_leap_400.
  cbn zeta. Z.div_mod_to_equations; lia.
Qed.

Lemma of_jdn_400 (Zi : Z) :
  2299161 <= Zi ->
  of_jdn (Zi + 146097) = let '(y, m, d) := of_jdn Zi in (y + 400, m, d).
Proof.
  intros HZ. unfold of_jdn.
  destruct (Z.ltb_spec (Zi + 146097) 2299161); [lia|].
  destruct (Z.ltb_spec Zi 2299161); [lia|]. cbn zeta.
  assert (Ha : (4 * (Zi + 146097) - 7468865) ÷ 146097
               = (4 * Zi - 7468865) ÷ 146097 + 4).
  { rewrite !Z.quot_div_nonneg by lia. Z.div_mod_to_equations; lia. }
  rewrite Ha. set (alpha := (4 * Zi - 7468865) ÷ 146097).
  assert (Hal : 0 <= alpha) by (apply Z.quot_pos; lia).
  assert (Ha4 : (alpha + 4) ÷ 4 = alpha ÷ 4 + 1).
  { rewrite !Z.quot_div_nonneg by lia. Z.div_mod_to_equations; lia. }
  rewrite Ha4.
  assert (Hq : 0 <= alpha ÷ 4 <= alpha).
  { rewrite Z.quot_div_nonneg by lia. Z.div_mod_to_equations; lia. }
  replace (Zi + 146097 + 1 + (alpha + 4) - (alpha ÷ 4 + 1) + 1524)
    with (Zi + 1 + alpha - alpha ÷ 4 + 1524 + 1461 * 100) by lia.
  rewrite of_B_shift by lia.
  now destruct (of_B _) as [[y m] d].
Qed.

Lemma gregorian_window : all_from gregorian_ok 2299161 146097 = true.
Proof. vm_cast_no_check (eq_refl true). Qed.

Lemma gregorian_ok_400 (Zi : Z) :
  2299161 <= Zi -> gregorian_ok Zi = true -> gregorian_ok (Zi + 146097) = true.
Proof.
  intros HZ. unfold gregorian_ok. rewrite of_jdn_400 by exact HZ.
  destruct (of_jdn Zi) as [[y m] d].
  rewrite days_in_month_400, ymd2ord_400, !andb_true_iff, !Z.leb_le, !Z.eqb_eq.
  lia.
Qed.

(** Every [Zi] of the Gregorian branch gives the date with ordinal
    [Zi - 1721425]. *)
Lemma gregorian_ok_all (Zi : Z) : 2299161 <= Zi -> gregorian_ok Zi = true.
Proof.
  intros HZ.
  assert (Hk : forall k : nat, forall z,
             2299161 <= z < 2299161 + 146097 * (Z.of_nat k + 1) ->
             gregorian_ok z = true).
  { induction k as [|k IH]; intros z Hz.
    - apply (all_from_spec _ _ _ gregorian_window). lia.
    - destruct (Z_lt_le_dec z (2299161 + 146097)).
      + apply (all_from_spec _ _ _ gregorian_window). lia.
      + replace z with (z - 146097 + 146097) by lia.
        apply gregorian_ok_400; [lia|]. apply IH. lia. }
  apply (Hk (Z.to_nat ((Zi - 2299161) / 146097))).
  rewrite Z2Nat.id by (apply Z.div_pos; lia).
  Z.div_mod_to_equations; lia.
Qed.

Lemma julian_window : all_from julian_ok 0 1461 = true.
Proof. vm_cast_no_check (eq_refl true). Qed.

Lemma julian_ok_4 (Zi : Z) :
  0 <= Zi -> Zi + 1461 < 2299161 -> julian_ok Zi = true ->
  julian_ok (Zi + 1461) = true.
Proof.
  intros HZ HZ'. unfold julian_ok, of_jdn.
  destruct (Z.ltb_spec (Zi + 1461) 2299161); [|lia].
  destruct (Z.ltb_spec Zi 2299161); [|lia]. cbn zeta.
  replace (Zi + 1461 + 1524) with (Zi + 1524 + 1461 * 1) by lia.
  rewrite of_B_shift by lia.
  destruct (of_B _) as [[y m] d].
  unfold julian_days_in_month, julian_ymd2ord, cal_days_in_month, cal_ord,
    cal_before_month, julian_leap, julian_before_year.
  replace ((y + 4 * 1) mod 4) with (y mod 4) by (Z.div_mod_to_equations; lia).
  rewrite !andb_true_iff, !Z.leb_le, !Z.eqb_eq.
  intros [[[[? ?] ?] ?] Ho]. repeat split; try assumption.
  revert Ho. replace (y + 4 * 1 - 1) with (y - 1 + 4) by lia.
  destruct ((2 <? m) && (y mod 4 =? 0)); Z.div_mod_to_equations; lia.
Qed.

(** Every [Zi] of the Julian branch gives the Julian-calendar date with day
    count [Zi - 1721423]. *)
Lemma julian_ok_all (Zi : Z) : 0 <= Zi < 2299161 -> julian_ok Zi = true.
Proof.
  intros HZ.
  assert (Hk : forall k : nat, forall z,
             0 <= z < 1461 * (Z.of_nat k + 1) -> z < 2299161 ->
             julian_ok z = true).
  { induction k as [|k IH]; intros z Hz Hz'.
    - apply (all_from_spec _ _ _ julian_window). lia.
    - destruct (Z_lt_le_dec z 1461).
      + apply (all_from_spec _ _ _ julian_window). lia.
      + replace z with (z - 1461 + 1461) by lia.
        apply julian_ok_4; [lia|lia|]. apply IH; lia. }
  apply (Hk (Z.to_nat (Zi / 1461))); [|lia].
  rewrite Z2Nat.id by (apply Z.div_pos; lia).
  Z.div_mod_to_equations; lia.
Qed.

(** *** [jd_to_utc_datetime] through the integer computation *)

Lemma int_century (z : Z) :
  Py.int ((IZR z - 1867216.25) / 36524.25) = (4 * z - 7468865) ÷ 146097.
Proof.
  rewrite <- int_ratio by lia. f_equal.
  rewrite minus_IZR, mult_IZR. lra.
Qed.

Lemma int_quarter (z : Z) : Py.int (IZR z / 4) = z ÷ 4.
Proof. now rewrite <- int_ratio by lia. Qed.

Lemma int_years (z : Z) :
  Py.int ((IZR z - 122.1) / 365.25) = (20 * z - 2442) ÷ 7305.
Proof.
  rewrite <- int_ratio by lia. f_equal.
  rewrite minus_IZR, mult_IZR. lra.
Qed.

Lemma int_year_days (z : Z) : Py.int (365.25 * IZR z) = (1461 * z) ÷ 4.
Proof. rewrite <- int_ratio by lia. f_equal. rewrite mult_IZR. lra. Qed.

Lemma int_months (z : Z) : Py.int (IZR z / 30.6001) = (10000 * z) ÷ 306001.
Proof. rewrite <- int_ratio by lia. f_equal. rewrite mult_IZR. lra. Qed.

Lemma int_month_days (z : Z) : Py.int (30.6001 * IZR z) = (306001 * z) ÷ 10000.
Proof. rewrite <- int_ratio by lia. f_equal. rewrite mult_IZR. lra. Qed.

(** When [jd + 0.5] is [Zi] plus a fraction [F] of a day, the result is the
    midnight of the date [of_jdn Zi] plus [round(F * 86400)] seconds. *)
Lemma jd_to_utc_datetime_of_jdn (jd F : R) (Zi y m d : Z) :
  (jd + 0.5 = IZR Zi + F)%R -> (0 <= F < 1)%R -> 0 <= Zi ->
  of_jdn Zi = (y, m, d) -> 0 <= d ->
  jd_to_utc_datetime jd
  = (dt ← Datetime.new y m d; add_seconds dt (Py.round (F * 86400))).
Proof.
  intros HJ HF HZ Hof Hd. unfold jd_to_utc_datetime. cbv zeta.
  rewrite HJ, (int_plus_frac Zi F HZ HF).
  rewrite int_century, int_quarter, !int_years, !int_year_days, !int_months,
    !int_month_days.
  unfold of_jdn, of_B in Hof. cbv zeta in Hof.
  injection Hof as Hy Hm Hdd. rewrite Hy, Hm, Hdd.
  replace (IZR Zi + F - IZR Zi)%R with F by lra.
  rewrite (int_plus_frac d F Hd HF).
  now replace (IZR d + F - IZR d)%R with F by lra.
Qed.

End JulianDay.

(** *** Day counts follow the order of (year, month, day) *)

Section DayCount.
Local Open Scope Z_scope.

(** A calendar is given by its leap years and the days before each year. *)
Variable leap : Z -> bool.
Variable before_year : Z -> Z.
Hypothesis before_year_succ :
  forall y, before_year (y + 1) = before_year y + (if leap y then 366 else 365).

Local Abbreviation cal_days_in_month := (Civil.cal_days_in_month leap).
Local Abbreviation cal_before_month := (Civil.cal_before_month leap).
Local Abbreviation cal_ord := (Civil.cal_ord leap before_year).
Local Abbreviation cal_valid := (Civil.cal_valid leap).

Lemma before_year_mono (y1 y2 : Z) : y1 <= y2 -> before_year y1 <= before_year y2.
Proof using before_year_succ.
  intros H. replace y2 with (y1 + Z.of_nat (Z.to_nat (y2 - y1))) by lia.
  induction (Z.to_nat (y2 - y1)) as [|n IH].
  - now rewrite Z.add_0_r.
  - rewrite Nat2Z.inj_succ, <- Z.add_1_r, Z.add_assoc, before_year_succ.
    destruct (leap _); lia.
Qed.

Lemma cal_days_in_month_le (y m : Z) : 28 <= cal_days_in_month y m <= 31.
Proof.
  unfold cal_days_in_month.
  destruct (m =? 2); [destruct (leap y); lia|].
  destruct (_ || _); lia.
Qed.

Lemma cal_before_next_month (y m : Z) :
  1 <= m <= 11 ->
  cal_before_month y (m + 1) = cal_before_month y m + cal_days_in_month y m.
Proof.
  intros Hm. unfold cal_before_month, cal_days_in_month.
  assert (m = 1 \/ m = 2 \/ m = 3 \/ m = 4 \/ m = 5 \/ m = 6 \/ m = 7 \/ m = 8
          \/ m = 9 \/ m = 10 \/ m = 11) as Hc by lia.
  repeat (destruct Hc as [Hc|Hc]); subst; cbn; destruct (leap y); reflexivity.
Qed.

Lemma cal_before_month_mono (y m1 m2 : Z) :
  1 <= m1 -> m1 <= m2 -> m2 <= 12 ->
  cal_before_month y m1 <= cal_before_month y m2.
Proof.
  intros H1 H H2. replace m2 with (m1 + Z.of_nat (Z.to_nat (m2 - m1))) in * by lia.
  induction (Z.to_nat (m2 - m1)) as [|n IH].
  - rewrite Z.add_0_r. lia.
  - rewrite Nat2Z.inj_succ, <- Z.add_1_r, Z.add_assoc in *.
    rewrite cal_before_next_month by lia.
    pose proof (cal_days_in_month_le y (m1 + Z.of_nat n)). lia.
Qed.

Lemma cal_year_end (y m d : Z) :
  cal_valid y m d -> before_year y + 1 <= cal_ord y m d <= before_year (y + 1).
Proof using before_year_succ.
  intros [Hm Hd]. unfold cal_ord. rewrite before_year_succ.
  assert (cal_before_month y m + cal_days_in_month y m
          <= if leap y then 366 else 365).
  { unfold cal_before_month, cal_days_in_month.
    assert (m = 1 \/ m = 2 \/ m = 3 \/ m = 4 \/ m = 5 \/ m = 6 \/ m = 7
            \/ m = 8 \/ m = 9 \/ m = 10 \/ m = 11 \/ m = 12) as Hc by lia.
    repeat (destruct Hc as [Hc|Hc]); subst; cbn; destruct (leap y); lia. }
  assert (0 <= cal_before_month y m).
  { pose proof (cal_before_month_mono y 1 m). unfold cal_before_month in *.
    cbn in *. lia. }
  lia.
Qed.

(** The day count is strictly increasing in the lexicographic rank. *)
Lemma cal_ord_rank_lt (y1 m1 d1 y2 m2 d2 : Z) :
  cal_valid y1 m1 d1 -> cal_valid y2 m2 d2 ->
  Civil.rank y1 m1 d1 < Civil.rank y2 m2 d2 ->
  cal_ord y1 m1 d1 < cal_ord y2 m2 d2.
Proof using before_year_succ.
  intros V1 V2 Hr.
  pose proof (cal_year_end _ _ _ V1) as E1.
  pose proof (cal_year_end _ _ _ V2) as E2.
  destruct V1 as [Hm1 Hd1], V2 as [Hm2 Hd2].
  pose proof (cal_days_in_month_le y1 m1). pose proof (cal_days_in_month_le y2 m2).
  unfold Civil.rank in Hr.
  destruct (Z_lt_le_dec y1 y2) as [Hy|Hy].
  - pose proof (before_year_mono (y1 + 1) y2). lia.
  - assert (y1 = y2) as -> by lia.
    destruct (Z_lt_le_dec m1 m2) as [Hm|Hm].
    + pose proof (cal_before_month_mono y2 (m1 + 1) m2).
      unfold cal_ord. rewrite cal_before_next_month in * by lia. lia.
    + assert (m1 = m2) as -> by lia. unfold cal_ord. lia.
Qed.

Lemma cal_ord_rank_le (y1 m1 d1 y2 m2 d2 : Z) :
  cal_valid y1 m1 d1 -> cal_valid y2 m2 d2 ->
  cal_ord y1 m1 d1 <= cal_ord y2 m2 d2 ->
  Civil.rank y1 m1 d1 <= Civil.rank y2 m2 d2.
Proof using before_year_succ.
  intros V1 V2 Ho.
  destruct (Z_lt_le_dec (Civil.rank y2 m2 d2) (Civil.rank y1 m1 d1)) as [Hr|]; [|lia].
  pose proof (cal_ord_rank_lt _ _ _ _ _ _ V2 V1 Hr). lia.
Qed.

(** Dates with the same day count are the same date. *)
Lemma cal_ord_inj (y1 m1 d1 y2 m2 d2 : Z) :
  cal_valid y1 m1 d1 -> cal_valid y2 m2 d2 ->
  cal_ord y1 m1 d1 = cal_ord y2 m2 d2 ->
  y1 = y2 /\ m1 = m2 /\ d1 = d2.
Proof using before_year_succ.
  intros V1 V2 Ho.
  assert (Civil.rank y1 m1 d1 = Civil.rank y2 m2 d2) as Hr.
  { pose proof (cal_ord_rank_le _ _ _ _ _ _ V1 V2).
    pose proof (cal_ord_rank_le _ _ _ _ _ _ V2 V1). lia. }
  destruct V1 as [Hm1 Hd1], V2 as [Hm2 Hd2].
  pose proof (cal_days_in_month_le y1 m1). pose proof (cal_days_in_month_le y2 m2).
  unfold Civil.rank in Hr. lia.
Qed.

End DayCount.

Section Calendars.
Import Datetime Civil Combined.
Local Open Scope Z_scope.

Lemma days_before_year_succ (y : Z) :
  days_before_year (y + 1) = days_before_year y + (if is_leap y then 366 else 365).
Proof.
  unfold days_before_year. cbn zeta. replace (y + 1 - 1) with y by lia.
  destruct (is_leap y) eqn:Hl;
    [apply is_leap_spec in Hl
    |apply not_true_iff_false in Hl; rewrite is_leap_spec in Hl];
    Z.div_mod_to_equations; lia.
Qed.

Lemma julian_before_year_succ (y : Z) :
  julian_before_year (y + 1)
  = julian_before_year y + (if julian_leap y then 366 else 365).
Proof.
  unfold julian_before_year, julian_leap. replace (y + 1 - 1) with y by lia.
  destruct (Z.eqb_spec (y mod 4) 0); Z.div_mod_to_equations; lia.
Qed.

Lemma check_date_fields_valid (y m d : Z) :
  check_date_fields y m d = true <->
  1 <= y <= 9999 /\ cal_valid is_leap y m d.
Proof. rewrite check_date_fields_spec. unfold cal_valid. tauto. Qed.

(** Valid dates have ordinals between 1 and [MAXORDINAL]. *)
Lemma ymd2ord_range (y m d : Z) :
  check_date_fields y m d = true -> 1 <= ymd2ord y m d <= MAXORDINAL.
Proof.
  intros [Hy V]%check_date_fields_valid.
  pose proof (cal_year_end is_leap days_before_year days_before_year_succ _ _ _ V) as E.
  pose proof (before_year_mono is_leap days_before_year days_before_year_succ 1 y).
  pose proof (before_year_mono is_leap days_before_year days_before_year_succ (y + 1) 10000).
  change (cal_ord is_leap days_before_year y m d) with (ymd2ord y m d) in E.
  change (days_before_year 1) with 0 in *.
  change (days_before_year 10000) with 3652059 in *.
  unfold MAXORDINAL. lia.
Qed.

Lemma ymd2ord_inj (y1 m1 d1 y2 m2 d2 : Z) :
  check_date_fields y1 m1 d1 = true -> cal_valid is_leap y2 m2 d2 ->
  ymd2ord y1 m1 d1 = ymd2ord y2 m2 d2 ->
  y1 = y2 /\ m1 = m2 /\ d1 = d2.
Proof.
  intros [_ V1]%check_date_fields_valid V2.
  apply (cal_ord_inj is_leap days_before_year days_before_year_succ); assumption.
Qed.

Lemma gregorian_of_jdn (Zi : Z) :
  2299161 <= Zi ->
  exists y m d, of_jdn Zi = (y, m, d) /\ cal_valid is_leap y m d
                /\ ymd2ord y m d = Zi - 1721425.
Proof.
  intros HZ. pose proof (gregorian_ok_all Zi HZ) as H. unfold gregorian_ok in H.
  destruct (of_jdn Zi) as [[y m] d]. exists y, m, d.
  rewrite !andb_true_iff, !Z.leb_le, Z.eqb_eq in H.
  unfold cal_valid. change (cal_days_in_month is_leap y m) with (days_in_month y m).
  intuition lia.
Qed.

Lemma julian_of_jdn (Zi : Z) :
  0 <= Zi < 2299161 ->
  exists y m d, of_jdn Zi = (y, m, d) /\ cal_valid julian_leap y m d
                /\ julian_ymd2ord y m d = Zi - 1721423.
Proof.
  intros HZ. pose proof (julian_ok_all Zi HZ) as H. unfold julian_ok in H.
  destruct (of_jdn Zi) as [[y m] d]. exists y, m, d.
  rewrite !andb_true_iff, !Z.leb_le, Z.eqb_eq in H.
  unfold cal_valid, julian_days_in_month in *. intuition lia.
Qed.

(** The Julian Day of a date after the calendar conversion of its integer:
    on and after 1582-10-15 [of_jdn] undoes [jdn]. *)
Lemma of_jdn_jdn (d : date) :
  valid_date d = true -> toordinal Spec.gregorian_start <= toordinal d ->
  of_jdn (jdn d) = (year d, month d, day d).
Proof.
  intros Hv Hs. pose proof Hv as [Hy [Hm Hd]]%check_date_fields_spec.
  pose proof (jdn_toordinal d Hm) as Hj.
  change (toordinal Spec.gregorian_start) with 577736 in Hs.
  destruct (gregorian_of_jdn (jdn d)) as (y & m & dd & Hof & V & Ho); [lia|].
  rewrite Hof.
  destruct (ymd2ord_inj (year d) (month d) (day d) y m dd Hv V) as (-> & -> & ->).
  - unfold toordinal in Hj. lia.
  - reflexivity.
Qed.

(** The value of [julian_day].  For every calendar date [julian_day] is the
    Julian Day of 00:00 UTC of that date: half a day less than the Julian Day
    at 12:00 UTC given by the standard proleptic Gregorian formula, that is
    the ordinal of the date plus 1721424.5. *)
Theorem julian_day_is_midnight (d : date) :
  valid_date d = true ->
  julian_day d = (Spec.julian_day_at_noon d - 0.5)%R
  /\ julian_day d = (IZR (toordinal d) + 1721424.5)%R.
Proof.
  intros [Hy [Hm Hd]]%check_date_fields_spec.
  rewrite julian_day_jdn. unfold Spec.julian_day_at_noon.
  rewrite spec_julian_day_number_toordinal, jdn_toordinal by lia.
  rewrite plus_IZR. split; lra.
Qed.

Lemma julian_day_is_midnight_witness :
  julian_day (mkdate 2023 4 18)
  = (Spec.julian_day_at_noon (mkdate 2023 4 18) - 0.5)%R.
Proof. apply (julian_day_is_midnight (mkdate 2023 4 18)). reflexivity. Defined.

(** C9.  For every calendar date [d] on or after 1582-10-15,
    [jd_to_utc_datetime (julian_day d)] is the datetime built from the year,
    month and day of [d] with the time of day 00:00:00. *)
Theorem jd_to_utc_datetime_julian_day (d : date) :
  valid_date d = true -> toordinal Spec.gregorian_start <= toordinal d ->
  jd_to_utc_datetime (julian_day d) = Datetime.new (year d) (month d) (day d)
  /\ jd_to_utc_datetime (julian_day d) = Ok (toordinal d * 86400).
Proof.
  intros Hv Hs. pose proof Hv as [Hy [Hm Hd]]%check_date_fields_spec.
  pose proof (ymd2ord_range _ _ _ Hv) as Hr. unfold MAXORDINAL in Hr.
  assert (E : jd_to_utc_datetime (julian_day d) = Ok (toordinal d * 86400)).
  { rewrite (jd_to_utc_datetime_of_jdn (julian_day d) 0 (jdn d)
               (year d) (month d) (day d)).
    - unfold Datetime.new. unfold valid_date in Hv. rewrite Hv. cbn.
      rewrite Rmult_0_l, (round_IZR 0). unfold add_seconds.
      rewrite Z.add_0_r, Z.div_mul by lia. fold (toordinal d).
      unfold toordinal, MAXORDINAL.
      destruct (Z.ltb_spec 0 (ymd2ord (year d) (month d) (day d))); [|lia].
      destruct (Z.leb_spec (ymd2ord (year d) (month d) (day d)) 3652059); [|lia].
      reflexivity.
    - rewrite julian_day_jdn. lra.
    - lra.
    - rewrite jdn_toordinal by lia. unfold toordinal. lia.
    - now apply of_jdn_jdn.
    - lia. }
  split; [|exact E]. rewrite E. unfold Datetime.new.
  unfold valid_date in Hv. now rewrite Hv.
Qed.

Lemma jd_to_utc_datetime_julian_day_witness :
  jd_to_utc_datetime (julian_day (mkdate 2023 4 18))
  = Datetime.new 2023 4 18.
Proof.
  apply (jd_to_utc_datetime_julian_day (mkdate 2023 4 18)).
  - reflexivity.
  - vm_compute. discriminate.
Defined.

(** "On or after 1582-10-15" is the condition [julian_day d + 0.5 >= 2299161]
    under which [jd_to_utc_datetime] takes its Gregorian branch. *)
Lemma gregorian_start_julian_day (d : date) :
  valid_date d = true ->
  toordinal Spec.gregorian_start <= toordinal d
  <-> (2299161 <= julian_day d + 0.5)%R.
Proof.
  intros [Hy [Hm Hd]]%check_date_fields_spec.
  rewrite julian_day_jdn, jdn_toordinal by lia.
  change (toordinal Spec.gregorian_start) with 577736. split.
  - intros H. apply IZR_le in H. rewrite plus_IZR. lra.
  - intros H. assert (IZR 2299161 <= IZR (toordinal d + 1721425))%R by lra.
    apply le_IZR in H0. lia.
Qed.

End Calendars.

(** ** The solar position and the hour angle *)

Section Solar.
Import Datetime Civil Combined.
Local Open Scope R_scope.

Lemma PI_bounds : 3 < PI <= 4.
Proof. pose proof PI2_3_2. pose proof PI_4. lra. Qed.

Lemma sin_ge_cubic (x : R) : 0 <= x <= 1 -> x - x ^ 3 / 6 <= sin x.
Proof.
  intros Hx. pose proof PI_bounds as HPI.
  destruct (SIN x) as [Hl _]; [lra | lra |].
  unfold sin_lb, sin_approx, sin_term in Hl. cbn [sum_f_R0] in Hl.
  replace (INR (fact (2 * 0 + 1))) with 1 in Hl by (cbn; lra).
  replace (INR (fact (2 * 1 + 1))) with 6 in Hl by (cbn; lra).
  replace (INR (fact (2 * 2 + 1))) with 120 in Hl by (cbn; lra).
  replace (INR (fact (2 * 3 + 1))) with 5040 in Hl
    by (rewrite INR_IZR_INZ; reflexivity).
  cbn [Nat.mul Nat.add] in Hl.
  assert (0 <= x ^ 5 * (42 - x ^ 2)).
  { apply Rmult_le_pos; [apply pow_le; lra | nra]. }
  nra.
Qed.

Lemma cos_ge_quadratic (x : R) : 0 <= x <= 1 -> 1 - x ^ 2 / 2 <= cos x.
Proof.
  intros Hx. pose proof PI_bounds as HPI.
  replace x with (2 * (x / 2)) at 2 by lra. rewrite cos_2a_sin.
  destruct (Req_dec x 0) as [->|Hn].
  - replace (0 / 2) with 0 by lra. rewrite sin_0. lra.
  - assert (Hs : sin (x / 2) < x / 2) by (apply sin_lt_x; lra).
    assert (Hs0 : 0 <= sin (x / 2)) by (apply sin_ge_0; lra).
    nra.
Qed.

(** The clamp [min(1.0, max(-1.0, x))]. *)
Lemma clamp_range (x : R) : -1 <= Py.min 1.0 (Py.max (-1.0) x) <= 1.
Proof. unfold Py.min, Py.max. repeat destruct Rlt_dec; lra. Qed.

Lemma clamp_le (x u : R) :
  x <= u -> -1 <= u -> Py.min 1.0 (Py.max (-1.0) x) <= u.
Proof. unfold Py.min, Py.max. repeat destruct Rlt_dec; lra. Qed.

Lemma acos_returns (c : R) : -1 <= c <= 1 -> Py.acos c = Ok (acos c).
Proof.
  intros Hc. unfold Py.acos.
  destruct (Rle_dec (-1) c); [|lra]. destruct (Rle_dec c 1); [|lra]. reflexivity.
Qed.

(** [hour_angle] returns the arc cosine of the clamped quotient, an angle in
    [[0, pi]], whenever the divisor is not zero. *)
Lemma hour_angle_returns (lat_rad dec altitude : R) :
  cos lat_rad * cos dec <> 0 ->
  exists H, hour_angle lat_rad dec altitude = Ok H
            /\ H = acos (Py.min 1.0 (Py.max (-1.0)
                   ((sin (deg2rad altitude) - sin lat_rad * sin dec)
                    / (cos lat_rad * cos dec))))
            /\ 0 <= H <= PI.
Proof.
  intros Hden. unfold hour_angle, Py.div. cbv zeta.
  destruct (Req_dec_T _ 0) as [E|_]; [contradiction|]. cbn.
  eexists. split; [apply acos_returns, clamp_range|].
  split; [reflexivity|]. apply acos_bound.
Qed.

Lemma hour_angle_zero_division (lat_rad dec altitude : R) :
  cos lat_rad * cos dec = 0 ->
  hour_angle lat_rad dec altitude = Raise ZeroDivisionError.
Proof.
  intros Hden. unfold hour_angle, Py.div. cbv zeta.
  now destruct (Req_dec_T _ 0) as [_|N].
Qed.

(** The obliquity of the ecliptic of [solar_coords], in degrees. *)
Local Abbreviation obliquity_deg jc :=
  (23.439291 - jc * (0.0130042 + jc * (1.64e-7 - 5.04e-7 * jc))).

(** [solar_coords] always returns: the argument of [asin] is a product of two
    sines. *)
Lemma solar_coords_returns (jc : R) :
  exists M lam alpha,
    solar_coords jc
    = Ok (M, lam, asin (sin (deg2rad (obliquity_deg jc)) * sin lam), alpha,
          deg2rad (obliquity_deg jc)).
Proof.
  unfold solar_coords. cbv zeta.
  match goal with
  | |- context [Py.asin (sin ?e * sin ?l)] =>
      pose proof (SIN_bound e); pose proof (SIN_bound l);
      assert (Hx : -1 <= sin e * sin l <= 1) by nra
  end.
  unfold Py.asin.
  destruct (Rle_dec (-1) _); [|lra]. destruct (Rle_dec _ 1); [|lra].
  cbn. eauto.
Qed.

(** Between the years 1 and 9999 the obliquity stays between 22 and 23.7
    degrees. *)
Lemma obliquity_deg_bounds (jc : R) :
  -20 <= jc <= 80 -> 22 <= obliquity_deg jc <= 23.7.
Proof.
  intros Hjc.
  assert (Hq : -0.0033 <= jc * (1.64e-7 - 5.04e-7 * jc) <= 0.00002) by nra.
  nra.
Qed.

Lemma jd_to_jcent_range (d : date) :
  valid_date d = true -> -20 <= jd_to_jcent (julian_day d) <= 80.
Proof.
  intros Hv. pose proof Hv as [Hy [Hm Hd]]%check_date_fields_spec.
  pose proof (ymd2ord_range _ _ _ Hv) as [Hlo Hhi]. unfold MAXORDINAL in Hhi.
  unfold jd_to_jcent. rewrite julian_day_jdn, jdn_toordinal by lia.
  unfold toordinal. rewrite plus_IZR.
  apply IZR_le in Hlo, Hhi. lra.
Qed.

(** The declination is at most the obliquity in absolute value. *)
Lemma declination_bound (eps lam : R) :
  0 <= eps < PI / 2 ->
  - eps <= asin (sin eps * sin lam) <= eps.
Proof.
  intros He. pose proof PI_bounds as HPI.
  pose proof (SIN_bound lam) as Hl.
  assert (Hse : 0 <= sin eps <= 1).
  { split; [apply sin_ge_0; lra | apply SIN_bound]. }
  assert (Hx : -1 <= sin eps * sin lam <= 1) by nra.
  pose proof (asin_bound (sin eps * sin lam)) as Hb.
  pose proof (sin_asin _ Hx) as Hs.
  split.
  - destruct (Rle_dec (- eps) (asin (sin eps * sin lam))) as [|N]; [assumption|].
    exfalso. apply Rnot_le_lt in N.
    assert (sin (asin (sin eps * sin lam)) < sin (- eps)).
    { apply sin_increasing_1; lra. }
    rewrite sin_neg in *. nra.
  - destruct (Rle_dec (asin (sin eps * sin lam)) eps) as [|N]; [assumption|].
    exfalso. apply Rnot_le_lt in N.
    assert (sin eps < sin (asin (sin eps * sin lam))).
    { apply sin_increasing_1; lra. }
    nra.
Qed.

(** The transit is within 0.5122 days of the Julian Day it is computed
    from, and the hour angle moves the events by at most half a day. *)
Lemma solar_transit_jd_near (jd lw : R) :
  jd - 0.5122 <= solar_transit_jd jd lw <= jd + 0.5122.
Proof.
  unfold solar_transit_jd. cbv zeta.
  set (q := lw / (2 * PI)).
  pose proof (round_bounds (jd - 2451545.0009 - q)) as Hn.
  set (n := Py.round (jd - 2451545.0009 - q)) in *.
  match goal with
  | |- context [_ + 0.0053 * sin ?a - 0.0069 * sin ?b] =>
      pose proof (SIN_bound a); pose proof (SIN_bound b);
      set (sa := sin a) in *; set (sb := sin b) in *
  end.
  lra.
Qed.

Lemma hour_fraction_range (H : R) :
  0 <= H <= PI -> 0 <= rad2deg H / 360.0 <= 1 / 2.
Proof.
  intros HH. pose proof PI_bounds as HPI. unfold rad2deg, Rdiv.
  assert (Hi : 0 < / PI) by (apply Rinv_0_lt_compat; lra).
  assert (Hp : PI * / PI = 1) by (apply Rinv_r; lra).
  set (i := / PI) in *. nra.
Qed.

Lemma hour_fraction_lower (H : R) :
  0.1 <= H <= PI -> 0.0125 <= rad2deg H / 360.0.
Proof.
  intros HH. pose proof PI_bounds as HPI. unfold rad2deg, Rdiv.
  assert (Hi : / 4 <= / PI) by (apply Rinv_le_contravar; lra).
  assert (Hi0 : 0 < / PI) by (apply Rinv_0_lt_compat; lra).
  set (i := / PI) in *. nra.
Qed.

End Solar.

(** ** From Julian Days to datetimes, in order *)

Section Instants.
Import Datetime Civil Combined.
Local Open Scope Z_scope.

Lemma of_jdn_day_pos (Zi y m d : Z) :
  0 <= Zi -> of_jdn Zi = (y, m, d) -> 1 <= m <= 12 /\ 1 <= d <= 31.
Proof.
  intros HZ Hof. destruct (Z_lt_le_dec Zi 2299161).
  - destruct (julian_of_jdn Zi) as (y' & m' & d' & Hof' & [Hm Hd] & _); [lia|].
    rewrite Hof in Hof'. injection Hof' as <- <- <-.
    pose proof (cal_days_in_month_le julian_leap y m). lia.
  - destruct (gregorian_of_jdn Zi) as (y' & m' & d' & Hof' & [Hm Hd] & _); [lia|].
    rewrite Hof in Hof'. injection Hof' as <- <- <-.
    pose proof (cal_days_in_month_le is_leap y m). lia.
Qed.

(** What a successful [jd_to_utc_datetime] returns. *)
Lemma jd_to_utc_datetime_Ok (J : R) (t : datetime) :
  (0 <= J + 0.5)%R -> jd_to_utc_datetime J = Ok t ->
  exists (Zi : Z) (F : R) (y m d : Z),
    (J + 0.5 = IZR Zi + F)%R /\ (0 <= F < 1)%R /\ 0 <= Zi
    /\ of_jdn Zi = (y, m, d) /\ check_date_fields y m d = true
    /\ t = ymd2ord y m d * 86400 + Py.round (F * 86400).
Proof.
  intros HJ Hok.
  pose proof (Zfloor_bound (J + 0.5)) as Hfl.
  set (Zi := Zfloor (J + 0.5)) in *.
  assert (HZ : 0 <= Zi) by (apply Zfloor_lub; exact HJ).
  destruct (of_jdn Zi) as [[y m] d] eqn:Hof.
  pose proof (of_jdn_day_pos _ _ _ _ HZ Hof) as [_ Hd].
  exists Zi, (J + 0.5 - IZR Zi)%R, y, m, d.
  rewrite (jd_to_utc_datetime_of_jdn J (J + 0.5 - IZR Zi) Zi y m d) in Hok;
    [|lra|lra|lia|exact Hof|lia].
  unfold Datetime.new in Hok.
  destruct (check_date_fields y m d) eqn:Hc; [|discriminate]. cbn in Hok.
  unfold add_seconds in Hok. destruct (_ && _); [|discriminate].
  injection Hok as <-. repeat split; try assumption; try lra.
Qed.

(** The next integer gives a later date. *)
Lemma of_jdn_next_day (Zi y1 m1 d1 y2 m2 d2 : Z) :
  0 <= Zi -> of_jdn Zi = (y1, m1, d1) -> of_jdn (Zi + 1) = (y2, m2, d2) ->
  check_date_fields y1 m1 d1 = true -> check_date_fields y2 m2 d2 = true ->
  ymd2ord y1 m1 d1 + 1 <= ymd2ord y2 m2 d2.
Proof.
  intros HZ H1 H2 [_ V1]%check_date_fields_valid [_ V2]%check_date_fields_valid.
  destruct (Z_lt_le_dec (Zi + 1) 2299161) as [Hj|Hg].
  - (* both in the Julian branch *)
    destruct (julian_of_jdn Zi) as (? & ? & ? & E1 & J1 & O1); [lia|].
    destruct (julian_of_jdn (Zi + 1)) as (? & ? & ? & E2 & J2 & O2); [lia|].
    rewrite H1 in E1. injection E1 as <- <- <-.
    rewrite H2 in E2. injection E2 as <- <- <-.
    assert (Hr : rank y1 m1 d1 < rank y2 m2 d2).
    { destruct (Z_lt_le_dec (rank y1 m1 d1) (rank y2 m2 d2)) as [|Hr]; [assumption|].
      exfalso.
      destruct (Z.eq_dec (rank y2 m2 d2) (rank y1 m1 d1)) as [E|N].
      - assert (julian_ymd2ord y2 m2 d2 <= julian_ymd2ord y1 m1 d1); [|lia].
        destruct J1 as [? ?], J2 as [? ?].
        pose proof (cal_days_in_month_le julian_leap y1 m1).
        pose proof (cal_days_in_month_le julian_leap y2 m2).
        unfold rank in E.
        assert (y2 = y1 /\ m2 = m1 /\ d2 = d1) as (-> & -> & ->) by lia. lia.
      - pose proof (cal_ord_rank_lt julian_leap julian_before_year
                      julian_before_year_succ _ _ _ _ _ _ J2 J1 ltac:(lia)).
        unfold julian_ymd2ord in *. lia. }
    pose proof (cal_ord_rank_lt is_leap days_before_year days_before_year_succ
                  _ _ _ _ _ _ V1 V2 Hr) as Ho.
    change (cal_ord is_leap days_before_year) with ymd2ord in Ho. lia.
  - destruct (Z.eq_dec Zi 2299160) as [->|N].
    + (* the switch of calendars *)
      change (of_jdn 2299160) with (1582, 10, 4) in H1.
      change (of_jdn (2299160 + 1)) with (1582, 10, 15) in H2.
      injection H1 as <- <- <-. injection H2 as <- <- <-. vm_compute. discriminate.
    + (* both in the Gregorian branch *)
      destruct (gregorian_of_jdn Zi) as (? & ? & ? & E1 & _ & O1); [lia|].
      destruct (gregorian_of_jdn (Zi + 1)) as (? & ? & ? & E2 & _ & O2); [lia|].
      rewrite H1 in E1. injection E1 as <- <- <-.
      rewrite H2 in E2. injection E2 as <- <- <-. lia.
Qed.

(** Two Julian Days more than a second and at most a day apart convert to
    datetimes in the same strict order. *)
Lemma jd_to_utc_datetime_lt (J1 J2 : R) (t1 t2 : datetime) :
  (0 <= J1 + 0.5)%R -> (1 < (J2 - J1) * 86400)%R -> (J2 - J1 <= 1)%R ->
  jd_to_utc_datetime J1 = Ok t1 -> jd_to_utc_datetime J2 = Ok t2 ->
  t1 < t2.
Proof.
  intros H0 Hgap Hday Hok1 Hok2.
  destruct (jd_to_utc_datetime_Ok J1 t1 H0 Hok1)
    as (Z1 & F1 & y1 & m1 & d1 & HJ1 & HF1 & HZ1 & Hof1 & Hc1 & ->).
  destruct (jd_to_utc_datetime_Ok J2 t2 ltac:(lra) Hok2)
    as (Z2 & F2 & y2 & m2 & d2 & HJ2 & HF2 & HZ2 & Hof2 & Hc2 & ->).
  pose proof (round_bounds (F1 * 86400)) as R1.
  pose proof (round_bounds (F2 * 86400)) as R2.
  assert (HZ : Z1 <= Z2 <= Z1 + 1).
  { split.
    - apply Z.lt_succ_r, lt_IZR. rewrite succ_IZR. lra.
    - apply Z.lt_succ_r, lt_IZR. rewrite succ_IZR, plus_IZR. lra. }
  destruct (Z.eq_dec Z2 Z1) as [->|N].
  - rewrite Hof1 in Hof2. injection Hof2 as <- <- <-.
    assert (Py.round (F1 * 86400) < Py.round (F2 * 86400)); [|lia].
    apply lt_IZR. lra.
  - assert (Z2 = Z1 + 1) as -> by lia.
    pose proof (of_jdn_next_day _ _ _ _ _ _ _ HZ1 Hof1 Hof2 Hc1 Hc2) as Ho.
    rewrite plus_IZR in HJ2.
    assert (Py.round (F1 * 86400) < 86400 + Py.round (F2 * 86400)); [|lia].
    apply lt_IZR. rewrite plus_IZR. lra.
Qed.

End Instants.

(** ** Sunrise and sunset *)

Section Sunrise.
Import Datetime Civil Combined.
Local Open Scope R_scope.

(** Below 66.5 degrees of latitude, with a declination of at most 23.7
    degrees, the hour angle is at least 0.1 radian. *)
Lemma hour_angle_lower (lat_deg dec : R) :
  -66.5 < lat_deg < 66.5 ->
  - deg2rad 23.7 <= dec <= deg2rad 23.7 ->
  exists H, hour_angle (deg2rad lat_deg) dec (-0.833) = Ok H /\ 0.1 <= H <= PI.
Proof.
  intros Hlat Hdec. pose proof PI_bounds as HPI.
  unfold deg2rad in Hdec.
  set (phi := deg2rad lat_deg).
  assert (Hphi : - (66.5 * PI / 180) < phi < 66.5 * PI / 180).
  { unfold phi, deg2rad. nra. }
  assert (Hcp : 0 < cos phi) by (apply cos_gt_0; lra).
  assert (Hcd : 0 < cos dec) by (apply cos_gt_0; lra).
  pose proof (COS_bound phi) as Bp. pose proof (COS_bound dec) as Bd.
  assert (Hden : 0 < cos phi * cos dec <= 1) by nra.
  destruct (hour_angle_returns phi dec (-0.833)) as (H & HH & HHeq & HHr); [lra|].
  exists H. split; [exact HH|]. split; [|lra].
  (* the cosine of the angle between latitude and declination *)
  assert (Hth : - (0.2 * PI / 180) <= cos (phi - dec)).
  { assert (Hc : cos (90.2 * PI / 180) <= cos (phi - dec)).
    { destruct (Rle_dec 0 (phi - dec)).
      - apply cos_decr_1; lra.
      - rewrite <- (cos_neg (phi - dec)). apply cos_decr_1; lra. }
    replace (90.2 * PI / 180) with (PI / 2 + 0.2 * PI / 180) in Hc by lra.
    pose proof (sin_cos (0.2 * PI / 180)) as Hsc.
    assert (sin (0.2 * PI / 180) < 0.2 * PI / 180) by (apply sin_lt_x; lra).
    lra. }
  (* the sine of the altitude *)
  assert (Halt : sin (deg2rad (-0.833)) <= - 0.0138).
  { unfold deg2rad. replace (-0.833 * PI / 180) with (- (0.833 * PI / 180)) by lra.
    rewrite sin_neg.
    pose proof (sin_ge_cubic (0.833 * PI / 180) ltac:(lra)) as Hs.
    set (a := 0.833 * PI / 180) in *.
    assert (Ha : 0.01388 <= a <= 0.0186) by (unfold a; lra).
    assert (a ^ 3 <= 0.00001) by nra.
    lra. }
  rewrite cos_minus in Hth.
  set (raw := (sin (deg2rad (-0.833)) - sin phi * sin dec) / (cos phi * cos dec)) in *.
  assert (Hraw : raw <= 0.991).
  { unfold raw. apply Rmult_le_reg_r with (cos phi * cos dec); [lra|].
    unfold Rdiv. rewrite Rmult_assoc, Rinv_l by lra. nra. }
  pose proof (clamp_le raw 0.991 Hraw ltac:(lra)) as Hc.
  pose proof (clamp_range raw) as Hcr.
  set (c := Py.min 1.0 (Py.max (-1.0) raw)) in *.
  pose proof (cos_acos c Hcr) as Hca. rewrite <- HHeq in Hca.
  destruct (Rle_dec 0.1 H) as [|N]; [assumption|]. exfalso.
  apply Rnot_le_lt in N.
  assert (cos 0.1 <= cos H) by (apply cos_decr_1; lra).
  pose proof (cos_ge_quadratic 0.1 ltac:(lra)). nra.
Qed.

(** For a calendar date the declination that [solar_coords] returns is at
    most 23.7 degrees in absolute value. *)
Lemma solar_coords_of_date (d : date) :
  valid_date d = true ->
  exists M lam dec alpha eps,
    solar_coords (jd_to_jcent (julian_day d)) = Ok (M, lam, dec, alpha, eps)
    /\ - deg2rad 23.7 <= dec <= deg2rad 23.7.
Proof.
  intros Hv. pose proof PI_bounds as HPI.
  pose proof (jd_to_jcent_range d Hv) as Hjc.
  set (jc := jd_to_jcent (julian_day d)) in *.
  destruct (solar_coords_returns jc) as (M & lam & alpha & E).
  do 5 eexists. split; [exact E|].
  pose proof (obliquity_deg_bounds jc Hjc) as Ho.
  set (o := 23.439291 - jc * (0.0130042 + jc * (1.64e-7 - 5.04e-7 * jc))) in *.
  assert (He : 0 <= deg2rad o < PI / 2) by (unfold deg2rad; nra).
  pose proof (declination_bound (deg2rad o) lam He) as Hd.
  unfold deg2rad in *. nra.
Qed.

Lemma cos_declination_pos (dec : R) :
  - deg2rad 23.7 <= dec <= deg2rad 23.7 -> 0 < cos dec.
Proof.
  intros Hd. pose proof PI_bounds. unfold deg2rad in Hd.
  apply cos_gt_0; lra.
Qed.

(** The shape of a call on a calendar date at a latitude whose cosine is not
    zero: the two Julian Days that are converted lie a fraction [h] of a day
    on either side of a transit that is within 0.5122 days of
    [julian_day d]. *)
Lemma sunrise_sunset_local_shape (d : date) (lat_deg lon_deg : R) (tz : tzinfo) :
  valid_date d = true -> cos (deg2rad lat_deg) <> 0 ->
  exists Jt h,
    Jt = solar_transit_jd (julian_day d) (deg2rad (- lon_deg))
    /\ 0 <= h <= 1 / 2
    /\ (-66.5 < lat_deg < 66.5 -> 0.0125 <= h)
    /\ sunrise_sunset_local d lat_deg lon_deg tz
       = (sr_utc ← jd_to_utc_datetime (Jt - h);
          sr ← astimezone_naive sr_utc tz;
          ss_utc ← jd_to_utc_datetime (Jt + h);
          ss ← astimezone_naive ss_utc tz;
          mret (sr, ss)).
Proof.
  intros Hv Hlat.
  destruct (solar_coords_of_date d Hv) as (M & lam & dec & alpha & eps & E & Hd).
  pose proof (cos_declination_pos dec Hd) as Hcd.
  destruct (hour_angle_returns (deg2rad lat_deg) dec (-0.833))
    as (H & HH & _ & HHr); [nra|].
  exists (solar_transit_jd (julian_day d) (deg2rad (- lon_deg))),
    (rad2deg H / 360.0).
  split; [reflexivity|]. split; [now apply hour_fraction_range|]. split.
  - intros Hl. destruct (hour_angle_lower lat_deg dec Hl Hd) as (H' & HH' & Hlo).
    rewrite HH in HH'. injection HH' as <-. now apply hour_fraction_lower.
  - unfold sunrise_sunset_local. cbv zeta. rewrite E. cbn. rewrite HH. reflexivity.
Qed.

Lemma julian_day_lower (d : date) : valid_date d = true -> 1721425 <= julian_day d.
Proof.
  intros Hv. pose proof Hv as [Hy [Hm Hd]]%check_date_fields_spec.
  pose proof (ymd2ord_range _ _ _ Hv) as [Hlo _].
  rewrite julian_day_jdn, jdn_toordinal by lia. unfold toordinal.
  rewrite plus_IZR. apply IZR_le in Hlo. lra.
Qed.

Lemma add_seconds_Ok (t s t' : datetime) :
  add_seconds t s = Ok t' -> t' = (t + s)%Z.
Proof.
  unfold add_seconds. cbv zeta. destruct (_ && _); [|discriminate].
  now intros [= <-].
Qed.

Lemma add_seconds_returns (t s : datetime) :
  (86400 <= t + s < 86400 * 3652060)%Z -> add_seconds t s = Ok (t + s)%Z.
Proof.
  intros Hr. unfold add_seconds, MAXORDINAL. cbv zeta.
  destruct (Z.ltb_spec 0 ((t + s) / 86400));
    [|exfalso; Z.div_mod_to_equations; lia].
  destruct (Z.leb_spec ((t + s) / 86400) 3652059);
    [|exfalso; Z.div_mod_to_equations; lia].
  reflexivity.
Qed.

(** The seconds added to the midnight are between 0 and 86400. *)
Lemma round_seconds_range (F : R) :
  0 <= F < 1 -> (0 <= Py.round (F * 86400) <= 86400)%Z.
Proof.
  intros HF. pose proof (round_bounds (F * 86400)) as Hr. split.
  - apply Z.lt_succ_r, lt_IZR. rewrite succ_IZR. lra.
  - apply Z.lt_succ_r, lt_IZR. rewrite succ_IZR. lra.
Qed.

Lemma year_of_ordinal (y m dd : Z) :
  cal_valid is_leap y m dd -> (1 <= ymd2ord y m dd <= MAXORDINAL)%Z ->
  (1 <= y <= 9999)%Z.
Proof.
  intros V Ho. unfold MAXORDINAL in Ho.
  pose proof (cal_year_end is_leap days_before_year days_before_year_succ _ _ _ V) as E.
  change (cal_ord is_leap days_before_year y m dd) with (ymd2ord y m dd) in E.
  split.
  - destruct (Z_lt_le_dec y 1) as [Hy|]; [|assumption]. exfalso.
    pose proof (before_year_mono is_leap days_before_year days_before_year_succ
                  (y + 1) 1 ltac:(lia)) as Hm.
    change (days_before_year 1) with 0%Z in Hm. lia.
  - destruct (Z_lt_le_dec 9999 y) as [Hy|]; [|assumption]. exfalso.
    pose proof (before_year_mono is_leap days_before_year days_before_year_succ
                  10000 y ltac:(lia)) as Hm.
    change (days_before_year 10000) with 3652059%Z in Hm. lia.
Qed.

(** In the Gregorian branch, away from the last days of the year 9999, the
    conversion returns a datetime on the day [floor(J + 0.5) - 1721425] or
    at the following midnight. *)
Lemma jd_to_utc_datetime_returns (J : R) (n : Z) :
  (2299163 <= n <= 5373120)%Z ->
  IZR n - 1.1 <= J + 0.5 <= IZR n + 1.1 ->
  exists t, jd_to_utc_datetime J = Ok t
            /\ (86400 * (n - 1721425 - 2) <= t <= 86400 * (n - 1721425 + 2))%Z.
Proof.
  intros Hn HJ.
  pose proof (Zfloor_bound (J + 0.5)) as Hfl.
  set (Zi := Zfloor (J + 0.5)) in *.
  assert (HZ : (n - 2 <= Zi <= n + 1)%Z).
  { split.
    - apply Zfloor_lub. rewrite minus_IZR. lra.
    - apply Z.lt_succ_r, lt_IZR. rewrite succ_IZR, plus_IZR. lra. }
  destruct (gregorian_of_jdn Zi) as (y & m & dd & Hof & V & Ho); [lia|].
  assert (Hy : (1 <= y <= 9999)%Z).
  { apply (year_of_ordinal y m dd V). unfold MAXORDINAL. lia. }
  assert (Hc : check_date_fields y m dd = true).
  { apply check_date_fields_valid. auto. }
  pose proof (round_seconds_range (J + 0.5 - IZR Zi) ltac:(lra)) as Hr.
  exists (ymd2ord y m dd * 86400 + Py.round ((J + 0.5 - IZR Zi) * 86400))%Z.
  split; [|lia].
  rewrite (jd_to_utc_datetime_of_jdn J (J + 0.5 - IZR Zi) Zi y m dd);
    [|lra|lra|lia|exact Hof|destruct V; lia].
  unfold Datetime.new. rewrite Hc. cbn.
  apply add_seconds_returns. lia.
Qed.

(** C1.  On every calendar date, at every latitude strictly between -66.5
    and +66.5 degrees, for every longitude and every fixed-offset zone, a
    pair returned by [sunrise_sunset_local] has its sunrise strictly before
    its sunset; and for the years 1583 to 9998 and an offset of less than a
    day a pair is returned. *)
Theorem sunrise_before_sunset (d : date) (lat_deg lon_deg : R) (off : Z) :
  valid_date d = true -> -66.5 < lat_deg < 66.5 ->
  (forall sr ss,
      sunrise_sunset_local d lat_deg lon_deg (fixed_offset off) = Ok (sr, ss) ->
      (sr < ss)%Z)
  /\ ((1583 <= year d <= 9998)%Z -> (-86400 < off < 86400)%Z ->
      exists sr ss,
        sunrise_sunset_local d lat_deg lon_deg (fixed_offset off) = Ok (sr, ss)
        /\ (sr < ss)%Z).
Proof.
  intros Hv Hlat. pose proof PI_bounds as HPI.
  assert (Hcos : cos (deg2rad lat_deg) <> 0).
  { assert (0 < cos (deg2rad lat_deg)); [|lra].
    apply cos_gt_0; unfold deg2rad; nra. }
  destruct (sunrise_sunset_local_shape d lat_deg lon_deg (fixed_offset off) Hv Hcos)
    as (Jt & h & HJt & Hh & Hlow & Eq).
  specialize (Hlow Hlat).
  pose proof (solar_transit_jd_near (julian_day d) (deg2rad (- lon_deg))) as Hnear.
  rewrite <- HJt in Hnear.
  pose proof (julian_day_lower d Hv) as Hjd.
  assert (Hord : forall sr ss,
             sunrise_sunset_local d lat_deg lon_deg (fixed_offset off) = Ok (sr, ss) ->
             (sr < ss)%Z).
  { intros sr ss. rewrite Eq.
    destruct (jd_to_utc_datetime (Jt - h)) as [t1|e] eqn:E1; [|discriminate]. cbn.
    unfold astimezone_naive, fixed_offset. cbn.
    destruct (add_seconds t1 off) as [sr'|e] eqn:A1; [|discriminate]. cbn.
    destruct (jd_to_utc_datetime (Jt + h)) as [t2|e] eqn:E2; [|discriminate]. cbn.
    destruct (add_seconds t2 off) as [ss'|e] eqn:A2; [|discriminate]. cbn.
    intros [= <- <-].
    apply add_seconds_Ok in A1, A2. subst sr' ss'.
    assert (t1 < t2)%Z; [|lia].
    apply (jd_to_utc_datetime_lt (Jt - h) (Jt + h)); try assumption; lra. }
  split; [exact Hord|]. intros Hyr Hoff.
  pose proof Hv as [Hy [Hm Hd]]%check_date_fields_spec.
  (* the ordinal of the date, from its year *)
  assert (Hn : (2299239 <= jdn d <= 5373119)%Z).
  { rewrite jdn_toordinal by lia. unfold toordinal.
    pose proof (cal_year_end is_leap days_before_year days_before_year_succ
                  (year d) (month d) (day d) (conj Hm Hd)) as E.
    change (cal_ord is_leap days_before_year) with ymd2ord in E.
    pose proof (before_year_mono is_leap days_before_year days_before_year_succ
                  1583 (year d) ltac:(lia)) as M1.
    pose proof (before_year_mono is_leap days_before_year days_before_year_succ
                  (year d + 1) 9999 ltac:(lia)) as M2.
    change (days_before_year 1583) with 577813%Z in M1.
    change (days_before_year 9999) with 3651694%Z in M2. lia. }
  assert (Hjd' : julian_day d = IZR (jdn d) - 0.5) by apply julian_day_jdn.
  destruct (jd_to_utc_datetime_returns (Jt - h) (jdn d)) as (t1 & E1 & B1);
    [lia|lra|].
  destruct (jd_to_utc_datetime_returns (Jt + h) (jdn d)) as (t2 & E2 & B2);
    [lia|lra|].
  assert (Eres : sunrise_sunset_local d lat_deg lon_deg (fixed_offset off)
                 = Ok ((t1 + off)%Z, (t2 + off)%Z)).
  { rewrite Eq, E1. cbn. unfold astimezone_naive, fixed_offset. cbn.
    rewrite (add_seconds_returns t1 off) by lia. cbn. rewrite E2. cbn.
    rewrite (add_seconds_returns t2 off) by lia. reflexivity. }
  exists (t1 + off)%Z, (t2 + off)%Z. split; [exact Eres|].
  now apply Hord.
Qed.

Lemma sunrise_before_sunset_witness :
  exists sr ss,
    sunrise_sunset_local (mkdate 2023 4 18) 5.4139 118.0385 (fixed_offset 28800)
    = Ok (sr, ss) /\ (sr < ss)%Z.
Proof.
  apply (sunrise_before_sunset (mkdate 2023 4 18) 5.4139 118.0385 28800).
  - reflexivity.
  - lra.
  - cbn. lia.
  - lia.
Defined.

(** *** A date on which no pair is returned

    The proleptic Gregorian date 1500-03-10 has the Julian Day of the
    Julian-calendar date 1500-02-29; below 2299161 [jd_to_utc_datetime]
    reads the Julian calendar and hands that year, month and day to the
    [datetime] constructor, which knows no February 29th in 1500. *)

Lemma round_unique (x : R) (k : Z) :
  IZR k - 1 / 2 < x < IZR k + 1 / 2 -> Py.round x = k.
Proof.
  intros Hx. pose proof (round_bounds x) as Hr.
  assert (k - 1 < Py.round x < k + 1)%Z; [|lia].
  split; apply lt_IZR; rewrite ?minus_IZR, ?plus_IZR; lra.
Qed.

(** At longitude 90 degrees east the transit is 0.2509 days, give or take
    0.0122, after the midnight Julian Day of the date. *)
Lemma solar_transit_jd_east_90 (n : Z) :
  IZR n - 0.5 + 0.2387 <= solar_transit_jd (IZR n - 0.5) (deg2rad (- (90)))
  <= IZR n - 0.5 + 0.2631.
Proof.
  pose proof PI_bounds as HPI.
  unfold solar_transit_jd. cbv zeta.
  assert (Hq : deg2rad (- (90)) / (2 * PI) = - 0.25).
  { replace (- 0.25) with (- (1 / 4)) by lra. unfold deg2rad. field. lra. }
  rewrite Hq.
  rewrite (round_unique _ (n - 2451545)) by (rewrite minus_IZR; lra).
  rewrite minus_IZR.
  match goal with
  | |- context [_ + 0.0053 * sin ?a - 0.0069 * sin ?b] =>
      pose proof (SIN_bound a); pose proof (SIN_bound b);
      set (sa := sin a) in *; set (sb := sin b) in *
  end.
  lra.
Qed.

(** At longitude 0 the transit computed from the midnight Julian Day
    [IZR n - 0.5] of a date is within 0.0131 days of [IZR n - 1], the noon of
    the day before. *)
Lemma solar_transit_jd_greenwich (n : Z) :
  IZR n - 1 - 0.0113 <= solar_transit_jd (IZR n - 0.5) (deg2rad (- 0))
  <= IZR n - 1 + 0.0131.
Proof.
  pose proof PI_bounds as HPI.
  unfold solar_transit_jd. cbv zeta.
  assert (Hq : deg2rad (- 0) / (2 * PI) = 0).
  { unfold deg2rad. field. lra. }
  rewrite Hq.
  rewrite (round_unique _ (n - 2451546)) by (rewrite minus_IZR; lra).
  rewrite minus_IZR.
  match goal with
  | |- context [_ + 0.0053 * sin ?a - 0.0069 * sin ?b] =>
      pose proof (SIN_bound a); pose proof (SIN_bound b);
      set (sa := sin a) in *; set (sb := sin b) in *
  end.
  lra.
Qed.

(** C3.  The code contradicts the claim.  At latitude 89.9 degrees (cosine
    not zero), longitude 90 degrees east and UTC, the call for the calendar
    date 1500-03-10 raises [ValueError] instead of returning a pair:
    [julian_day] counts the date in the proleptic Gregorian calendar and
    [jd_to_utc_datetime] reads the Julian Day of the sunset in the Julian
    calendar, as February 29th, 1500. *)
Lemma sunrise_sunset_local_raises_on_1500_03_10 :
  valid_date (mkdate 1500 3 10) = true
  /\ cos (deg2rad 89.9) <> 0
  /\ sunrise_sunset_local (mkdate 1500 3 10) 89.9 90 (fixed_offset 0)
     = Raise ValueError.
Proof.
  pose proof PI_bounds as HPI.
  assert (Hcos : cos (deg2rad 89.9) <> 0).
  { assert (0 < cos (deg2rad 89.9)); [|lra]. apply cos_gt_0; unfold deg2rad; lra. }
  split; [reflexivity|]. split; [exact Hcos|].
  destruct (sunrise_sunset_local_shape (mkdate 1500 3 10) 89.9 90 (fixed_offset 0)
              eq_refl Hcos) as (Jt & h & HJt & Hh & _ & Eq).
  rewrite Eq. clear Eq.
  rewrite julian_day_jdn in HJt. change (jdn (mkdate 1500 3 10)) with 2268992%Z in HJt.
  pose proof (solar_transit_jd_east_90 2268992) as Hnear. rewrite <- HJt in Hnear.
  (* the sunset is on the day 2268992 *)
  assert (E2 : jd_to_utc_datetime (Jt + h) = Raise ValueError).
  { rewrite (jd_to_utc_datetime_of_jdn (Jt + h) (Jt + h + 0.5 - IZR 2268992)
               2268992 1500 2 29); [reflexivity|lra|lra|lia|reflexivity|lia]. }
  (* the sunrise is on that day or on the day before *)
  destruct (Rlt_dec (Jt - h + 0.5) (IZR 2268992)) as [Hb|Hb].
  - rewrite (jd_to_utc_datetime_of_jdn (Jt - h) (Jt - h + 0.5 - IZR 2268991)
               2268991 1500 2 28); [|lra|lra|lia|reflexivity|lia].
    pose proof (round_seconds_range (Jt - h + 0.5 - IZR 2268991) ltac:(lra)) as Hr.
    set (r := Py.round _) in *.
    change (Datetime.new 1500 2 28) with (@Ok datetime (547557 * 86400)%Z). cbn.
    rewrite (add_seconds_returns _ r) by lia. cbn.
    unfold astimezone_naive, fixed_offset. cbn.
    rewrite (add_seconds_returns _ 0%Z) by lia. cbn.
    now rewrite E2.
  - rewrite (jd_to_utc_datetime_of_jdn (Jt - h) (Jt - h + 0.5 - IZR 2268992)
               2268992 1500 2 29); [reflexivity|lra|lra|lia|reflexivity|lia].
Qed.

End Sunrise.

(** * Further properties of the code *)

(** ** The shading loop of [optional_plot]: what it keeps and what it
    leaves out *)

Section ShadingInvariants.
Import Combined.
Local Open Scope Z_scope.

Implicit Types sun_map : gmap Z (option Timestamp * option Timestamp).

Lemma elem_of_concat_1 {A : Type} (x : A) (ls : list (list A)) :
  x ∈ concat ls -> exists l, l ∈ ls /\ x ∈ l.
Proof.
  induction ls as [|l ls IH]; cbn.
  - now intros ?%elem_of_nil.
  - rewrite elem_of_app. intros [Hx|Hx].
    + exists l. split; [left|exact Hx].
    + destruct (IH Hx) as (l' & Hl' & Hx'). exists l'. split; [now right|exact Hx'].
Qed.

Lemma elem_of_axvspan (left right : Timestamp) (sp : span) :
  sp ∈ axvspan_if_nonempty left right ->
  exists l r, left = Ts l /\ right = Ts r /\ l < r /\ sp = (Ts l, Ts r).
Proof.
  unfold axvspan_if_nonempty.
  destruct left as [|l], right as [|r]; cbn; try now intros ?%elem_of_nil.
  destruct (Z.ltb_spec l r); [|now intros ?%elem_of_nil].
  intros ->%list_elem_of_singleton. exists l, r. auto.
Qed.

Lemma ts_max_window (x : Timestamp) (a l : Z) : ts_max x (Ts a) = Ts l -> a <= l.
Proof.
  unfold ts_max. destruct x as [|t]; cbn; [discriminate|].
  destruct (Z.ltb_spec t a); intros [= <-]; lia.
Qed.

Lemma ts_min_window (x : Timestamp) (b r : Z) : ts_min x (Ts b) = Ts r -> r <= b.
Proof.
  unfold ts_min. destruct x as [|t]; cbn; [discriminate|].
  destruct (Z.ltb_spec b t); intros [= <-]; lia.
Qed.

Lemma shade_iteration_within_window sun_map (ds : list Z) (a b : Z)
    (i : nat) (d : Z) (sp : span) :
  sp ∈ shade_iteration sun_map ds (Ts a) (Ts b) i d ->
  exists l r, sp = (Ts l, Ts r) /\ a <= l /\ l < r /\ r <= b.
Proof.
  unfold shade_iteration.
  assert (Hs : forall L R, sp ∈ axvspan_if_nonempty (ts_max L (Ts a)) (ts_min R (Ts b)) ->
                exists l r, sp = (Ts l, Ts r) /\ a <= l /\ l < r /\ r <= b).
  { intros L R (l & r & HL & HR & Hlt & ->)%elem_of_axvspan.
    exists l, r. apply ts_max_window in HL. apply ts_min_window in HR. auto. }
  rewrite elem_of_app. intros [Hn|H1].
  - destruct (_ ≫= _) as [ss|]; [|now apply elem_of_nil in Hn].
    destruct (_ ≫= _) as [sr_next|]; [|now apply elem_of_nil in Hn].
    destruct (ds !! _) as [next_date|]; [|now apply elem_of_nil in Hn].
    cbv zeta in Hn. destruct (_ <=? 1); [now apply Hs in Hn|].
    apply elem_of_app in Hn as [Hn|Hn]; [now apply Hs in Hn|].
    destruct (bool_decide _); [now apply Hs in Hn|now apply elem_of_nil in Hn].
  - destruct (_ =? _)%nat; [|now apply elem_of_nil in H1].
    apply elem_of_app in H1 as [H1|H1].
    + destruct (_ ≫= _) as [sr|]; [|now apply elem_of_nil in H1].
      apply elem_of_axvspan in H1 as (l & r & [= <-] & HR & Hlt & ->).
      apply ts_min_window in HR. exists a, r. auto with lia.
    + destruct (_ ≫= _) as [ss|]; [|now apply elem_of_nil in H1].
      apply elem_of_axvspan in H1 as (l & r & HL & [= <-] & Hlt & ->).
      apply ts_max_window in HL. exists l, b. auto with lia.
Qed.

(** Every interval that the loop shades, whatever the sun table holds, has
    its left end strictly before its right end and lies inside the plot
    window. *)
Theorem night_spans_within_window sun_map (plot_start plot_end : Z) (sp : span) :
  sp ∈ night_spans sun_map (Ts plot_start) (Ts plot_end) ->
  exists l r, sp = (Ts l, Ts r) /\ plot_start <= l /\ l < r /\ r <= plot_end.
Proof.
  unfold night_spans. intros (chunk & Hc & Hsp)%elem_of_concat_1.
  apply elem_of_lookup_imap_1 in Hc as (i & d & -> & _).
  now apply shade_iteration_within_window in Hsp.
Qed.

Lemma night_spans_within_window_witness :
  exists l r,
    (Ts (Sample.clock (Sample.april 1) 18 20), Ts (Sample.clock (Sample.april 2) 6 10))
    = (Ts l, Ts r)
    /\ Sample.plot_start <= l /\ l < r /\ r <= Sample.plot_end.
Proof.
  apply (night_spans_within_window Sample.sun_map).
  vm_compute. left.
Defined.

(** With two or more dates in the table, an iteration emits nothing when the
    date is the last one, when it has no sunset, or when the next date has
    no sunrise: the evening after the last sunset and the morning before the
    first sunrise are not shaded. *)
Theorem shade_iteration_nothing sun_map (start_dt end_dt : Timestamp)
    (i : nat) (d : Z) :
  length (dates_sorted_of sun_map) <> 1%nat ->
  dates_sorted_of sun_map !! (i + 1)%nat = None
  \/ (v ← sun_map !! d; v.2) = None
  \/ (d' ← dates_sorted_of sun_map !! (i + 1)%nat; v ← sun_map !! d'; v.1) = None ->
  shade_iteration sun_map (dates_sorted_of sun_map) start_dt end_dt i d = [].
Proof.
  intros Hlen Hc. unfold shade_iteration.
  apply Nat.eqb_neq in Hlen. rewrite Hlen, app_nil_r.
  destruct Hc as [Hc|[Hc|Hc]].
  - rewrite Hc. cbn. now destruct (_ ≫= _).
  - now rewrite Hc.
  - rewrite Hc. destruct (sun_map !! d ≫= _) as [ss|]; reflexivity.
Qed.

Lemma shade_iteration_nothing_witness :
  shade_iteration Sample.sun_map (dates_sorted_of Sample.sun_map)
    (Ts Sample.plot_start) (Ts Sample.plot_end) 2 (Sample.april 5) = [].
Proof.
  apply shade_iteration_nothing.
  - vm_compute. discriminate.
  - left. vm_compute. reflexivity.
Defined.

(** When the plot window is undefined (both ends [NaT], as for a table with
    no parsable DateTime), nothing is clamped: for consecutive dates the
    loop shades from the sunset to the next sunrise themselves. *)
Theorem shade_iteration_undefined_window sun_map
    (i : nat) (d d' : Z) (sunrise_d ss_d' : option Timestamp)
    (sunset_d sunrise_d' : Z) :
  dates_sorted_of sun_map !! i = Some d ->
  dates_sorted_of sun_map !! (i + 1)%nat = Some d' ->
  sun_map !! d = Some (sunrise_d, Some (Ts sunset_d)) ->
  sun_map !! d' = Some (Some (Ts sunrise_d'), ss_d') ->
  d' - d <= 1 ->
  shade_iteration sun_map (dates_sorted_of sun_map) NaT NaT i d
  = if sunset_d <? sunrise_d' then [(Ts sunset_d, Ts sunrise_d')] else [].
Proof.
  intros Hi Hi' Hd Hd' Hgap.
  unfold shade_iteration. rewrite Hi', Hd. cbn. rewrite Hd'. cbn.
  rewrite (successor_not_single _ _ _ Hi'), app_nil_r.
  destruct (Z.leb_spec (d' - d) 1); [|lia]. reflexivity.
Qed.

Lemma shade_iteration_undefined_window_witness :
  shade_iteration Sample.sun_map (dates_sorted_of Sample.sun_map) NaT NaT 0
    (Sample.april 1)
  = [(Ts (Sample.clock (Sample.april 1) 18 20),
      Ts (Sample.clock (Sample.april 2) 6 10))].
Proof.
  apply (shade_iteration_undefined_window Sample.sun_map 0 (Sample.april 1)
           (Sample.april 2)
           (Some (Ts (Sample.clock (Sample.april 1) 6 10)))
           (Some (Ts (Sample.clock (Sample.april 2) 18 20)))
           (Sample.clock (Sample.april 1) 18 20)
           (Sample.clock (Sample.april 2) 6 10));
    vm_compute; first [reflexivity | discriminate].
Defined.

End ShadingInvariants.

(** ** The shading loop of [fig10_5mhz_generator.py] against the loop of
    [optional_plot] *)

Section Fig10Loop.
Import Combined.
Local Open Scope Z_scope.

Implicit Types sun_map : gmap Z (option Timestamp * option Timestamp).

(** Both loops read the same sunset and the same next sunrise. *)
Lemma sunset_lookup sun_map (d : Z) :
  (default (None, None) (sun_map !! d)).2 = (v ← sun_map !! d; v.2).
Proof. now destruct (sun_map !! d) as [[? ?]|]. Qed.

Lemma next_sunrise_lookup sun_map (ds : list Z) (i : nat) :
  match ds !! (i + 1)%nat with
  | Some d' => (default (None, None) (sun_map !! d')).1
  | None => None
  end = (d' ← ds !! (i + 1)%nat; v ← sun_map !! d'; v.1).
Proof.
  destruct (ds !! (i + 1)%nat) as [d'|]; [|reflexivity]. cbn.
  now destruct (sun_map !! d') as [[? ?]|].
Qed.

(** Where the loop of [optional_plot] stops at midnight, the loop of fig10
    does not: when the next date with data is more than a day later, the
    window holds both events, the sunset is before the midnight that ends
    its day and the sunrise after the midnight that starts its day, fig10
    shades one interval from the sunset to that sunrise, across the days
    without data, and [optional_plot] shades the evening and the morning. *)
Theorem fig10_loop_bridges_gaps sun_map (plot_start plot_end : Z)
    (i : nat) (d d' : Z) (sunrise_d ss_d' : option Timestamp)
    (sunset_d sunrise_d' : Z) :
  dates_sorted_of sun_map !! i = Some d ->
  dates_sorted_of sun_map !! (i + 1)%nat = Some d' ->
  sun_map !! d = Some (sunrise_d, Some (Ts sunset_d)) ->
  sun_map !! d' = Some (Some (Ts sunrise_d'), ss_d') ->
  1 < d' - d ->
  plot_start <= sunset_d < (d + 1) * ns_per_day ->
  d' * ns_per_day < sunrise_d' <= plot_end ->
  Fig10Plot.shade_iteration sun_map (dates_sorted_of sun_map)
    (Ts plot_start) (Ts plot_end) i d
  = [(Ts sunset_d, Ts sunrise_d')]
  /\ shade_iteration sun_map (dates_sorted_of sun_map)
       (Ts plot_start) (Ts plot_end) i d
     = [(Ts sunset_d, Ts ((d + 1) * ns_per_day));
        (Ts (d' * ns_per_day), Ts sunrise_d')]
  /\ sunset_d < (d + 1) * ns_per_day
  /\ (d + 1) * ns_per_day < d' * ns_per_day
  /\ d' * ns_per_day < sunrise_d'.
Proof.
  intros Hi Hi' Hd Hd' Hgap Hss Hsr.
  assert (Hns : 0 < ns_per_day) by (unfold ns_per_day; lia).
  assert (Hmid : (d + 1) * ns_per_day < d' * ns_per_day) by nia.
  split; [|split; [|lia]].
  - unfold Fig10Plot.shade_iteration. rewrite Hi', Hd, Hd'. cbn.
    rewrite ts_max_Ts, ts_min_Ts, axvspan_if_nonempty_Ts.
    rewrite Z.max_l, Z.min_l by lia.
    destruct (Z.ltb_spec sunset_d sunrise_d'); [reflexivity|lia].
  - unfold shade_iteration. rewrite Hi', Hd. cbn. rewrite Hd'. cbn.
    rewrite (successor_not_single _ _ _ Hi'), app_nil_r.
    destruct (Z.leb_spec (d' - d) 1); [lia|].
    rewrite bool_decide_eq_true_2 by (eapply list_elem_of_lookup_2; exact Hi').
    unfold Timestamp_of_date; cbn.
    rewrite !ts_max_Ts, !ts_min_Ts, !axvspan_if_nonempty_Ts.
    replace (d * ns_per_day + 1 * ns_per_day) with ((d + 1) * ns_per_day) by lia.
    rewrite (Z.max_l sunset_d), (Z.min_l _ plot_end), (Z.max_l _ plot_start),
      (Z.min_l sunrise_d') by lia.
    destruct (Z.ltb_spec sunset_d ((d + 1) * ns_per_day)); [|lia].
    destruct (Z.ltb_spec (d' * ns_per_day) sunrise_d'); [|lia].
    reflexivity.
Qed.

Lemma fig10_loop_bridges_gaps_witness :
  Fig10Plot.shade_iteration Sample.sun_map (dates_sorted_of Sample.sun_map)
    (Ts Sample.plot_start) (Ts Sample.plot_end) 1 (Sample.april 2)
  = [(Ts (Sample.clock (Sample.april 2) 18 20),
      Ts (Sample.clock (Sample.april 5) 6 10))].
Proof.
  apply (fig10_loop_bridges_gaps Sample.sun_map Sample.plot_start
           Sample.plot_end 1 (Sample.april 2) (Sample.april 5)
           (Some (Ts (Sample.clock (Sample.april 2) 6 10)))
           (Some (Ts (Sample.clock (Sample.april 5) 18 20)))
           (Sample.clock (Sample.april 2) 18 20)
           (Sample.clock (Sample.april 5) 6 10));
    vm_compute; first [reflexivity | discriminate | split; congruence].
Defined.

(** On a table of two or more dates, each at most a day from the next, the
    two loops shade the same intervals in the same order. *)
Theorem loops_agree_without_gaps sun_map (plot_start plot_end : Timestamp) :
  length (dates_sorted_of sun_map) <> 1%nat ->
  (forall i d d',
      dates_sorted_of sun_map !! i = Some d ->
      dates_sorted_of sun_map !! (i + 1)%nat = Some d' -> d' - d <= 1) ->
  Fig10Plot.night_spans (elements (dom sun_map : gset Z)) sun_map plot_start plot_end
  = night_spans sun_map plot_start plot_end.
Proof.
  intros Hlen Hgap. unfold Fig10Plot.night_spans, night_spans.
  fold (dates_sorted_of sun_map). f_equal. apply imap_ext. intros i d Hi.
  unfold Fig10Plot.shade_iteration, shade_iteration.
  rewrite sunset_lookup, next_sunrise_lookup.
  apply Nat.eqb_neq in Hlen. rewrite Hlen, app_nil_r.
  destruct (sun_map !! d ≫= _) as [ss|]; [|reflexivity].
  destruct (dates_sorted_of sun_map !! (i + 1)%nat) as [d'|] eqn:Hi'; [|reflexivity].
  cbn. destruct (sun_map !! d' ≫= _) as [sr_next|]; [|reflexivity].
  cbv zeta. specialize (Hgap i d d' Hi Hi').
  now destruct (Z.leb_spec (d' - d) 1); [|lia].
Qed.

Lemma loops_agree_without_gaps_witness :
  let sun_map : gmap Z (option Timestamp * option Timestamp) :=
    list_to_map [Sample.sun_row (Sample.april 1); Sample.sun_row (Sample.april 2)] in
  Fig10Plot.night_spans (elements (dom sun_map : gset Z)) sun_map
    (Ts Sample.plot_start) (Ts Sample.plot_end)
  = night_spans sun_map (Ts Sample.plot_start) (Ts Sample.plot_end).
Proof.
  intros sun_map. apply loops_agree_without_gaps.
  - vm_compute. discriminate.
  - assert (E : dates_sorted_of sun_map = [Sample.april 1; Sample.april 2])
      by (vm_compute; reflexivity).
    rewrite E. intros [|[|i]] d d'; cbn; intros [= <-] [= <-].
    vm_compute. discriminate.
Defined.

Lemma length_axvspan (left right : Timestamp) :
  (length (axvspan_if_nonempty left right) <= 1)%nat.
Proof. unfold axvspan_if_nonempty. destruct (_ && _); cbn; lia. Qed.

Lemma fig10_shade_iteration_last (ds : list Z) sun_map
    (start_date end_date : Timestamp) (i : nat) (d : Z) :
  ds !! (i + 1)%nat = None ->
  Fig10Plot.shade_iteration sun_map ds start_date end_date i d = [].
Proof.
  intros Hi. unfold Fig10Plot.shade_iteration. rewrite Hi.
  now destruct (default _ _).2.
Qed.

Lemma length_concat_imap_pred {A B : Type} (l : list A) :
  forall f : nat -> A -> list B,
    (forall i x, (length (f i x) <= 1)%nat) ->
    (forall i x, l !! i = Some x -> l !! (i + 1)%nat = None -> f i x = []) ->
    (length (concat (imap f l)) <= pred (length l))%nat.
Proof.
  induction l as [|x l IH]; intros f H1 Hlast; [cbn; lia|].
  cbn. rewrite length_app. destruct l as [|y l].
  - rewrite (Hlast 0%nat x) by reflexivity. cbn. lia.
  - specialize (IH (f ∘ S) ltac:(intros; apply H1)
                  ltac:(intros i z Hi Hn; apply (Hlast (S i) z Hi Hn))).
    specialize (H1 0%nat x). cbn in IH |- *. lia.
Qed.

(** The loop of fig10 shades at most one interval for each pair of
    successive dates: at most [n - 1] intervals for [n] dates, and none for
    a single date, where the loop of [optional_plot] shades the morning
    before the sunrise and the evening after the sunset. *)
Theorem fig10_night_spans_count (unique_days : list Z) sun_map
    (start_date end_date : Timestamp) :
  (length (Fig10Plot.night_spans unique_days sun_map start_date end_date)
   <= pred (length unique_days))%nat.
Proof.
  unfold Fig10Plot.night_spans. cbv zeta.
  rewrite <- (Permutation_length (merge_sort_Permutation Z.le unique_days)).
  apply length_concat_imap_pred.
  - intros i d. unfold Fig10Plot.shade_iteration.
    destruct (default _ _).2; [|cbn; lia].
    destruct (match _ !! _ with Some _ => _ | None => _ end); [|cbn; lia].
    apply length_axvspan.
  - intros i d _ Hn. now apply fig10_shade_iteration_last.
Qed.

End Fig10Loop.

(** ** The shaded intervals are disjoint and in order *)

Section ShadingOrder.
Import Combined NightOrder.
Local Open Scope Z_scope.

Implicit Types sun_map : gmap Z (option Timestamp * option Timestamp).

Lemma StronglySorted_lookup {A : Type} (R : relation A) (l : list A) :
  StronglySorted R l ->
  forall i j x y, (i < j)%nat -> l !! i = Some x -> l !! j = Some y -> R x y.
Proof.
  induction 1 as [|a l Hs IH Ha]; intros i j x y Hij Hi Hj; [discriminate|].
  destruct j as [|j]; [lia|]. cbn in Hj. destruct i as [|i]; cbn in Hi.
  - injection Hi as <-. rewrite Forall_forall in Ha.
    apply Ha. eapply list_elem_of_lookup_2; exact Hj.
  - apply (IH i j); [lia|assumption|assumption].
Qed.

Lemma dates_sorted_lt sun_map (i j : nat) (a b : Z) :
  (i < j)%nat -> dates_sorted_of sun_map !! i = Some a ->
  dates_sorted_of sun_map !! j = Some b -> a < b.
Proof.
  intros Hij Hi Hj. unfold dates_sorted_of in *.
  set (ds := merge_sort Z.le (elements (dom sun_map : gset Z))) in *.
  assert (Hs : StronglySorted Z.le ds).
  { apply (StronglySorted_merge_sort Z.le); apply _. }
  assert (Hn : NoDup ds).
  { unfold ds. rewrite merge_sort_Permutation. apply NoDup_elements. }
  pose proof (StronglySorted_lookup Z.le ds Hs i j a b Hij Hi Hj) as Hle.
  destruct (Z.eq_dec a b) as [->|]; [|lia].
  pose proof (NoDup_lookup ds i j b Hn Hi Hj). lia.
Qed.

Lemma StronglySorted_concat_imap {A B : Type} (R : relation B) (l : list A) :
  forall f : nat -> A -> list B,
    (forall i x, l !! i = Some x -> StronglySorted R (f i x)) ->
    (forall i j x y a b,
        (i < j)%nat -> l !! i = Some x -> l !! j = Some y ->
        a ∈ f i x -> b ∈ f j y -> R a b) ->
    StronglySorted R (concat (imap f l)).
Proof.
  induction l as [|x l IH]; intros f Hin Hout; [constructor|].
  cbn. apply StronglySorted_app_2.
  - intros a b Ha Hb. apply elem_of_concat_1 in Hb as (c & Hc & Hb).
    apply elem_of_lookup_imap_1 in Hc as (j & y & -> & Hj).
    apply (Hout 0%nat (S j) x y); [lia|reflexivity|exact Hj|exact Ha|exact Hb].
  - now apply (Hin 0%nat).
  - apply IH.
    + intros i y Hi. now apply (Hin (S i)).
    + intros i j y z a b Hij Hi Hj. apply (Hout (S i) (S j)); [lia|exact Hi|exact Hj].
Qed.

Lemma ts_max_lower (x s : Timestamp) (l : Z) :
  ts_max x s = Ts l -> forall a, x = Ts a -> a <= l.
Proof.
  unfold ts_max. intros H a ->. destruct s as [|b]; cbn in H.
  - injection H as <-. lia.
  - destruct (Z.ltb_spec a b); injection H as <-; lia.
Qed.

Lemma ts_min_upper (y e : Timestamp) (r : Z) :
  ts_min y e = Ts r -> forall b, y = Ts b -> r <= b.
Proof.
  unfold ts_min. intros H b ->. destruct e as [|c]; cbn in H.
  - injection H as <-. lia.
  - destruct (Z.ltb_spec c b); injection H as <-; lia.
Qed.

Lemma ts_max_Ts_inv (x s : Timestamp) (l : Z) :
  ts_max x s = Ts l -> exists a, x = Ts a.
Proof.
  unfold ts_max. destruct x as [|a]; cbn; [discriminate|eauto].
Qed.

Lemma ts_min_Ts_inv (y e : Timestamp) (r : Z) :
  ts_min y e = Ts r -> exists b, y = Ts b.
Proof.
  unfold ts_min. destruct y as [|b], e as [|c]; cbn; try discriminate; eauto.
Qed.

(** An interval of [axvspan_if_nonempty (max x s) (min y e)] begins at or
    after [x] and ends at or before [y]. *)
Lemma elem_of_clamped_span (x y s e : Timestamp) (sp : span) :
  sp ∈ axvspan_if_nonempty (ts_max x s) (ts_min y e) ->
  exists a b l r, x = Ts a /\ y = Ts b /\ sp = (Ts l, Ts r) /\ a <= l /\ r <= b.
Proof.
  intros (l & r & Hl & Hr & _ & ->)%elem_of_axvspan.
  destruct (ts_max_Ts_inv _ _ _ Hl) as [a ->].
  destruct (ts_min_Ts_inv _ _ _ Hr) as [b ->].
  exists a, b, l, r. repeat split; try reflexivity.
  - now apply (ts_max_lower _ _ _ Hl).
  - now apply (ts_min_upper _ _ _ Hr).
Qed.

Lemma axvspan_sorted (left right : Timestamp) :
  StronglySorted span_before (axvspan_if_nonempty left right).
Proof.
  unfold axvspan_if_nonempty. destruct (_ && _); repeat constructor.
Qed.

(** In a well-formed table of two or more dates, an interval of the
    iteration of [d] begins within or after the day [d] and after the
    sunrise of [d], and ends by the midnight that begins the next date or by
    the sunrise of the next date. *)
Lemma shade_iteration_between sun_map (s e : Timestamp) (i : nat) (d : Z) (sp : span) :
  sun_table_ok sun_map ->
  length (dates_sorted_of sun_map) <> 1%nat ->
  sp ∈ shade_iteration sun_map (dates_sorted_of sun_map) s e i d ->
  exists d' l r,
    dates_sorted_of sun_map !! (i + 1)%nat = Some d'
    /\ sp = (Ts l, Ts r) /\ d * ns_per_day <= l
    /\ (forall srn ssd, sun_map !! d = Some (Some (Ts srn), ssd) -> srn <= l)
    /\ (r <= d' * ns_per_day
        \/ exists sr' ss', sun_map !! d' = Some (Some (Ts sr'), ss') /\ r <= sr').
Proof.
  intros Hok Hlen. unfold shade_iteration.
  apply Nat.eqb_neq in Hlen. rewrite Hlen, app_nil_r. clear Hlen.
  destruct (dates_sorted_of sun_map !! (i + 1)%nat) as [d'|] eqn:Hi'; cbn.
  2:{ destruct (sun_map !! d ≫= _); intros H; now apply elem_of_nil in H. }
  destruct (sun_map !! d) as [[sr ss]|] eqn:Hd; cbn;
    [|intros H; now apply elem_of_nil in H].
  destruct ss as [ss|]; [|intros H; now apply elem_of_nil in H].
  destruct (sun_map !! d') as [[sr' ss']|] eqn:Hd'; cbn;
    [|intros H; now apply elem_of_nil in H].
  destruct sr' as [sr'|]; [|intros H; now apply elem_of_nil in H].
  assert (Hns : 0 < ns_per_day) by (unfold ns_per_day; lia).
  destruct (Hok d sr (Some ss) Hd) as (Hsr & Hss & Hlt).
  assert (Hev : forall a l, ss = Ts a -> a <= l ->
            d * ns_per_day <= l
            /\ (forall srn ssd,
                  Some (sr, Some ss) = Some (Some (Ts srn), ssd) -> srn <= l)).
  { intros a l -> Ha. pose proof (Hss (Ts a) eq_refl) as Hw. cbn in Hw.
    split; [lia|]. intros srn ssd [= -> <-].
    pose proof (Hlt srn a eq_refl eq_refl). lia. }
  destruct (Z.leb_spec (d' - d) 1) as [Hgap|Hgap].
  - intros (a & b & l & r & -> & -> & -> & Ha & Hb)%elem_of_clamped_span.
    destruct (Hev a l eq_refl Ha) as [H1 H2].
    exists d', l, r. repeat split; auto. right. eauto.
  - rewrite elem_of_app. intros [H|H].
    + apply elem_of_clamped_span in H as (a & b & l & r & -> & Hm & -> & Ha & Hb).
      unfold Timestamp_of_date in Hm. cbn in Hm. injection Hm as <-.
      destruct (Hev a l eq_refl Ha) as [H1 H2].
      exists d', l, r. repeat split; auto. left. nia.
    + destruct (bool_decide _); [|now apply elem_of_nil in H].
      apply elem_of_clamped_span in H as (a & b & l & r & Hm & -> & -> & Ha & Hb).
      unfold Timestamp_of_date in Hm. injection Hm as <-.
      exists d', l, r. repeat split; auto.
      * nia.
      * intros srn ssd [= -> <-].
        pose proof (Hsr (Ts srn) eq_refl) as Hw. cbn in Hw. nia.
      * right. eauto.
Qed.

Lemma shade_iteration_sorted sun_map (s e : Timestamp) (i : nat) (d : Z) :
  sun_table_ok sun_map ->
  StronglySorted span_before
    (shade_iteration sun_map (dates_sorted_of sun_map) s e i d).
Proof.
  intros Hok. unfold shade_iteration.
  assert (Hns : 0 < ns_per_day) by (unfold ns_per_day; lia).
  destruct (length (dates_sorted_of sun_map) =? 1)%nat eqn:Hlen.
  - (* a single date: nothing from the first part *)
    apply Nat.eqb_eq in Hlen.
    assert (Hn : dates_sorted_of sun_map !! (i + 1)%nat = None).
    { apply lookup_ge_None. lia. }
    rewrite Hn. cbn.
    replace (match sun_map !! d ≫= _ with Some _ | _ => [] end) with (@nil span)
      by now destruct (sun_map !! d ≫= _).
    cbn. destruct (sun_map !! d) as [[sr ss]|] eqn:Hd; cbn; [|constructor].
    destruct (Hok d sr ss Hd) as (_ & _ & Hlt).
    apply StronglySorted_app_2.
    + intros sp1 sp2 H1 H2. destruct sr as [sr|]; [|now apply elem_of_nil in H1].
      destruct ss as [ss|]; [|now apply elem_of_nil in H2].
      pose proof H1 as (l1 & r1 & _ & Hr1 & _ & ->)%elem_of_axvspan.
      pose proof H2 as (l2 & r2 & Hl2 & _ & _ & ->)%elem_of_axvspan.
      destruct (ts_min_Ts_inv _ _ _ Hr1) as [a ->].
      destruct (ts_max_Ts_inv _ _ _ Hl2) as [b ->].
      pose proof (ts_min_upper _ _ _ Hr1 a eq_refl).
      pose proof (ts_max_lower _ _ _ Hl2 b eq_refl).
      pose proof (Hlt a b eq_refl eq_refl). unfold span_before. cbn. lia.
    + destruct sr; [apply axvspan_sorted|constructor].
    + destruct ss; [apply axvspan_sorted|constructor].
  - rewrite app_nil_r.
    destruct (sun_map !! d ≫= _) as [ss|]; [|constructor].
    destruct (_ ≫= _) as [sr_next|]; [|constructor].
    destruct (dates_sorted_of sun_map !! (i + 1)%nat) as [d'|]; [|constructor].
    cbv zeta. destruct (Z.leb_spec (d' - d) 1) as [Hgap|Hgap]; [apply axvspan_sorted|].
    apply StronglySorted_app_2.
    + intros sp1 sp2 H1 H2.
      destruct (bool_decide _); [|now apply elem_of_nil in H2].
      apply elem_of_clamped_span in H1 as (a1 & b1 & l1 & r1 & _ & Hm1 & -> & _ & Hb1).
      apply elem_of_clamped_span in H2 as (a2 & b2 & l2 & r2 & Hm2 & _ & -> & Ha2 & _).
      unfold Timestamp_of_date in Hm1, Hm2. cbn in Hm1. injection Hm1 as <-.
      injection Hm2 as <-. unfold span_before. cbn. nia.
    + apply axvspan_sorted.
    + destruct (bool_decide _); [apply axvspan_sorted|constructor].
Qed.

(** On a sun table whose sunrises and sunsets lie within their days, the
    sunrise before the sunset, the intervals that the loop shades are
    disjoint and in chronological order: each ends before the next one
    begins (they may touch).  The plot window may be anything. *)
Theorem night_spans_in_order sun_map (start_dt end_dt : Timestamp) :
  sun_table_ok sun_map ->
  StronglySorted span_before (night_spans sun_map start_dt end_dt).
Proof.
  intros Hok. unfold night_spans. cbv zeta.
  apply StronglySorted_concat_imap.
  - intros i d _. now apply shade_iteration_sorted.
  - intros i j d1 d2 sp1 sp2 Hij Hi Hj H1 H2.
    assert (Hlen : length (dates_sorted_of sun_map) <> 1%nat).
    { apply lookup_lt_Some in Hj. lia. }
    assert (Hns : 0 < ns_per_day) by (unfold ns_per_day; lia).
    apply shade_iteration_between in H1
      as (d1' & l1 & r1 & Hi' & -> & _ & _ & Hr1); [|assumption..].
    apply shade_iteration_between in H2
      as (d2' & l2 & r2 & _ & -> & Hl2 & Hsr2 & _); [|assumption..].
    unfold span_before. cbn.
    assert (Hd : d1' <= d2).
    { destruct (decide (j = (i + 1)%nat)) as [->|Hne].
      - rewrite Hi' in Hj. injection Hj as <-. lia.
      - pose proof (dates_sorted_lt sun_map (i + 1) j d1' d2 ltac:(lia) Hi' Hj). lia. }
    destruct Hr1 as [Hr1|(sr' & ss' & Hd1' & Hr1)]; [nia|].
    destruct (Z.eq_dec d1' d2) as [->|Hne].
    + specialize (Hsr2 sr' ss' Hd1'). lia.
    + destruct (Hok d1' (Some (Ts sr')) ss' Hd1') as (Hw & _ & _).
      specialize (Hw (Ts sr') eq_refl). cbn in Hw. nia.
Qed.

Lemma sample_sun_table_ok : sun_table_ok Sample.sun_map.
Proof.
  intros d sr ss Hd. unfold Sample.sun_map, Sample.sun_row in Hd. cbn in Hd.
  repeat (apply lookup_insert_Some in Hd as [[<- Hd]|[_ Hd]];
          [injection Hd as <- <-;
           (split; [|split]); intros; simplify_eq; vm_compute;
           try split; congruence|]).
  now rewrite lookup_empty in Hd.
Qed.

Lemma night_spans_in_order_witness :
  StronglySorted span_before
    (night_spans Sample.sun_map (Ts Sample.plot_start) (Ts Sample.plot_end)).
Proof. apply night_spans_in_order, sample_sun_table_ok. Defined.

End ShadingOrder.

(** ** The solar position, the hour angle and the transit *)

Section SolarRanges.
Import Datetime Civil Combined.
Local Open Scope R_scope.




(** The clamp at work.  Where the cosines of latitude and declination are
    positive: if the sun's altitude at noon, whose sine is
    [cos (lat - dec)], stays below the altitude asked for, the hour angle is
    0; if its altitude at midnight, whose sine is [- cos (lat + dec)], stays
    above it, the hour angle is [pi].  The margin of [1e-9] on the sines
    and the altitude of at most 90 degrees keep the statement off the
    boundary of the clamp, where the last bit of a rounded quotient decides
    whether the clamp acts. *)
Theorem hour_angle_saturates (lat_rad dec altitude : R) :
  0 < cos lat_rad -> 0 < cos dec -> -90 <= altitude <= 90 ->
  (cos (lat_rad - dec) + 1e-9 <= sin (deg2rad altitude) ->
   hour_angle lat_rad dec altitude = Ok 0)
  /\ (sin (deg2rad altitude) + 1e-9 <= - cos (lat_rad + dec) ->
      hour_angle lat_rad dec altitude = Ok PI).
Proof.
  intros Hl Hd _.
  assert (Hden : 0 < cos lat_rad * cos dec) by nra.
  destruct (hour_angle_returns lat_rad dec altitude ltac:(lra)) as (H & HH & HHeq & _).
  rewrite HH, HHeq. clear HH HHeq.
  set (raw := (sin (deg2rad altitude) - sin lat_rad * sin dec) / (cos lat_rad * cos dec)).
  assert (Hraw : raw * (cos lat_rad * cos dec)
                 = sin (deg2rad altitude) - sin lat_rad * sin dec).
  { unfold raw. field. lra. }
  split; intros Hc.
  - rewrite cos_minus in Hc.
    assert (1 <= raw) by nra.
    replace (Py.min 1.0 (Py.max (-1.0) raw)) with 1.
    + now rewrite acos_1.
    + unfold Py.min, Py.max. repeat destruct Rlt_dec; lra.
  - rewrite cos_plus in Hc.
    assert (raw <= -1) by nra.
    replace (Py.min 1.0 (Py.max (-1.0) raw)) with (- (1)).
    + now rewrite acos_opp, acos_1, Rminus_0_r.
    + unfold Py.min, Py.max. repeat destruct Rlt_dec; lra.
Qed.

Lemma hour_angle_saturates_witness :
  hour_angle 1.5 (- (1.5)) (- (0.833)) = Ok 0
  /\ hour_angle 1.5 1.5 (- (0.833)) = Ok PI.
Proof.
  pose proof PI_bounds as HPI.
  assert (Hc : 0 < cos 1.5) by (apply cos_gt_0; lra).
  assert (Hc' : 0 < cos (- (1.5))) by (rewrite cos_neg; exact Hc).
  assert (H3 : cos 3 <= - (1 / 2)).
  { replace 3 with (PI - (PI - 3)) by lra.
    rewrite cos_minus, cos_PI, sin_PI.
    pose proof (cos_ge_quadratic (PI - 3) ltac:(lra)). nra. }
  assert (Ha : -0.0186 <= sin (deg2rad (- (0.833))) <= 0).
  { unfold deg2rad. replace (- (0.833) * PI / 180) with (- (0.833 * PI / 180)) by lra.
    rewrite sin_neg.
    assert (sin (0.833 * PI / 180) < 0.833 * PI / 180) by (apply sin_lt_x; lra).
    assert (0 <= sin (0.833 * PI / 180)) by (apply sin_ge_0; lra).
    lra. }
  split.
  - apply (hour_angle_saturates 1.5 (- (1.5)) (- (0.833))); try assumption; [lra|].
    replace (1.5 - - (1.5)) with 3 by lra. lra.
  - apply (hour_angle_saturates 1.5 1.5 (- (0.833))); try assumption; [lra|].
    replace (1.5 + 1.5) with 3 by lra. lra.
Defined.

(** The hour angle is the same in the two hemispheres: changing the sign of
    both the latitude and the declination changes nothing. *)
Theorem hour_angle_hemispheres (lat_rad dec altitude : R) :
  hour_angle (- lat_rad) (- dec) altitude = hour_angle lat_rad dec altitude.
Proof.
  unfold hour_angle. rewrite !sin_neg, !cos_neg.
  now replace (- sin lat_rad * - sin dec) with (sin lat_rad * sin dec) by lra.
Qed.

(** The transit that [sunrise_sunset_local] uses, by longitude.  East of
    0.33 degrees it is the local mean noon of the date, to within 0.0131
    days; from there westwards it is the local mean noon of the day
    before. *)
Theorem solar_transit_jd_local_noon (d : date) (lon_deg : R) :
  (0.33 <= lon_deg <= 180 ->
   julian_day d + 0.5 - lon_deg / 360 - 0.0113
   <= solar_transit_jd (julian_day d) (deg2rad (- lon_deg))
   <= julian_day d + 0.5 - lon_deg / 360 + 0.0131)
  /\ (-180 <= lon_deg <= 0.32 ->
      julian_day d + 0.5 - 1 - lon_deg / 360 - 0.0113
      <= solar_transit_jd (julian_day d) (deg2rad (- lon_deg))
      <= julian_day d + 0.5 - 1 - lon_deg / 360 + 0.0131).
Proof.
  pose proof PI_bounds as HPI.
  rewrite julian_day_jdn. set (n := jdn d).
  unfold solar_transit_jd. cbv zeta.
  assert (Hq : deg2rad (- lon_deg) / (2 * PI) = - (lon_deg / 360)).
  { unfold deg2rad. field. lra. }
  rewrite Hq. split; intros Hlon.
  - rewrite (round_unique _ (n - 2451545)) by (rewrite minus_IZR; lra).
    rewrite minus_IZR.
    match goal with
    | |- context [_ + 0.0053 * sin ?a - 0.0069 * sin ?b] =>
        pose proof (SIN_bound a); pose proof (SIN_bound b);
        set (sa := sin a) in *; set (sb := sin b) in *
    end.
    lra.
  - rewrite (round_unique _ (n - 2451546)) by (rewrite minus_IZR; lra).
    rewrite minus_IZR.
    match goal with
    | |- context [_ + 0.0053 * sin ?a - 0.0069 * sin ?b] =>
        pose proof (SIN_bound a); pose proof (SIN_bound b);
        set (sa := sin a) in *; set (sb := sin b) in *
    end.
    lra.
Qed.

Lemma solar_transit_jd_local_noon_witness :
  (julian_day (mkdate 2023 4 18) + 0.5 - 118.0385 / 360 - 0.0113
   <= solar_transit_jd (julian_day (mkdate 2023 4 18)) (deg2rad (- (118.0385)))
   <= julian_day (mkdate 2023 4 18) + 0.5 - 118.0385 / 360 + 0.0131)
  /\ (julian_day (mkdate 2023 4 18) + 0.5 - 1 - (-77) / 360 - 0.0113
      <= solar_transit_jd (julian_day (mkdate 2023 4 18)) (deg2rad (- (-77)))
      <= julian_day (mkdate 2023 4 18) + 0.5 - 1 - (-77) / 360 + 0.0131).
Proof.
  split.
  - apply (proj1 (solar_transit_jd_local_noon (mkdate 2023 4 18) 118.0385)). lra.
  - apply (proj2 (solar_transit_jd_local_noon (mkdate 2023 4 18) (-77))). lra.
Defined.

End SolarRanges.

(** ** Julian Days to the second, exceptions and time zones *)

Section InstantsToTheSecond.
Import Datetime Civil Combined.
Local Open Scope Z_scope.

Lemma round_le (x y : R) : (x <= y)%R -> Py.round x <= Py.round y.
Proof.
  intros Hxy.
  destruct (Z_le_gt_dec (Py.round x) (Py.round y)) as [|Hgt]; [assumption|].
  exfalso. pose proof (round_bounds x) as Bx. pose proof (round_bounds y) as By.
  assert (Hi : (IZR (Py.round y) + 1 <= IZR (Py.round x))%R).
  { rewrite <- plus_IZR. apply IZR_le. lia. }
  assert (x = y) by lra. subst. lia.
Qed.

Lemma round_add_even (x : R) (k : Z) :
  Py.round (x + IZR (2 * k)) = Py.round x + 2 * k.
Proof.
  unfold Py.round. cbv zeta. rewrite Zfloor_addz, plus_IZR.
  replace (x + IZR (2 * k) - (IZR (Zfloor x) + IZR (2 * k)))%R
    with (x - IZR (Zfloor x))%R by lra.
  rewrite Z.even_add_mul_2.
  destruct Rlt_dec; [reflexivity|]. destruct Rlt_dec; [lia|].
  destruct (Z.even _); lia.
Qed.

(** In the Gregorian branch, up to the last day of the year 9999, the
    conversion is a rounding: Julian Day 1721424.5 is the midnight that
    begins ordinal day 0. *)
Lemma jd_to_utc_datetime_gregorian (J : R) :
  (2299161 <= J + 0.5 < 5373484)%R ->
  jd_to_utc_datetime J = Ok (Py.round ((J + 0.5 - 1721425) * 86400)).
Proof.
  intros HJ.
  pose proof (Zfloor_bound (J + 0.5)) as Hfl.
  set (Zi := Zfloor (J + 0.5)) in *.
  assert (HZ : 2299161 <= Zi <= 5373483).
  { split.
    - apply Zfloor_lub. lra.
    - apply Z.lt_succ_r, lt_IZR. rewrite succ_IZR. lra. }
  destruct (gregorian_of_jdn Zi) as (y & m & dd & Hof & V & Ho); [lia|].
  assert (Hy : 1 <= y <= 9999).
  { apply (year_of_ordinal y m dd V). unfold MAXORDINAL. lia. }
  assert (Hc : check_date_fields y m dd = true).
  { apply check_date_fields_valid. auto. }
  pose proof (round_seconds_range (J + 0.5 - IZR Zi) ltac:(lra)) as Hr.
  rewrite (jd_to_utc_datetime_of_jdn J (J + 0.5 - IZR Zi) Zi y m dd);
    [|lra|lra|lia|exact Hof|destruct V; lia].
  unfold Datetime.new. rewrite Hc. cbn.
  rewrite add_seconds_returns by lia. f_equal.
  rewrite Ho.
  replace ((J + 0.5 - 1721425) * 86400)%R
    with ((J + 0.5 - IZR Zi) * 86400 + IZR (2 * (43200 * (Zi - 1721425))))%R.
  - rewrite round_add_even. lia.
  - rewrite !mult_IZR, minus_IZR. lra.
Qed.




(** The exceptions of the conversions. *)
Lemma jd_to_utc_datetime_raises (J : R) (e : exn) :
  jd_to_utc_datetime J = Raise e -> e = ValueError \/ e = OverflowError.
Proof.
  unfold jd_to_utc_datetime. cbv zeta. unfold Datetime.new.
  destruct (check_date_fields _ _ _); cbn; [|intros [= <-]; now left].
  unfold add_seconds. cbv zeta.
  destruct (_ && _); [discriminate|intros [= <-]; now right].
Qed.

Lemma astimezone_naive_raises (t : datetime) (tz : tzinfo) (e : exn) :
  astimezone_naive t tz = Raise e -> e = OverflowError.
Proof.
  unfold astimezone_naive, add_seconds. cbv zeta.
  destruct (_ && _); [discriminate|now intros [= <-]].
Qed.

(** On a calendar date, at a latitude whose cosine is not zero,
    [sunrise_sunset_local] returns a pair or raises [ValueError] or
    [OverflowError], the exceptions of the [datetime] constructor and of the
    shifts by a [timedelta] and to the zone; it does not raise
    [ZeroDivisionError], the cosine of the declination being never zero. *)
Theorem sunrise_sunset_local_exceptions (d : date) (lat_deg lon_deg : R) (tz : tzinfo) :
  valid_date d = true -> cos (deg2rad lat_deg) <> 0%R ->
  returns (sunrise_sunset_local d lat_deg lon_deg tz)
  \/ sunrise_sunset_local d lat_deg lon_deg tz = Raise ValueError
  \/ sunrise_sunset_local d lat_deg lon_deg tz = Raise OverflowError.
Proof.
  intros Hv Hn.
  destruct (sunrise_sunset_local_shape d lat_deg lon_deg tz Hv Hn)
    as (Jt & h & _ & _ & _ & Eq).
  rewrite Eq. clear Eq.
  destruct (jd_to_utc_datetime (Jt - h)) as [t1|e] eqn:E1; cbn;
    [|apply jd_to_utc_datetime_raises in E1 as [->| ->]; auto].
  destruct (astimezone_naive t1 tz) as [sr|e] eqn:A1; cbn;
    [|apply astimezone_naive_raises in A1 as ->; auto].
  destruct (jd_to_utc_datetime (Jt + h)) as [t2|e] eqn:E2; cbn;
    [|apply jd_to_utc_datetime_raises in E2 as [->| ->]; auto].
  destruct (astimezone_naive t2 tz) as [ss|e] eqn:A2; cbn;
    [|apply astimezone_naive_raises in A2 as ->; auto].
  left. now eexists.
Qed.

Lemma sunrise_sunset_local_exceptions_witness :
  returns (sunrise_sunset_local (mkdate 1500 3 9) 80 118.0385 (fixed_offset 28800))
  \/ sunrise_sunset_local (mkdate 1500 3 9) 80 118.0385 (fixed_offset 28800)
     = Raise ValueError
  \/ sunrise_sunset_local (mkdate 1500 3 9) 80 118.0385 (fixed_offset 28800)
     = Raise OverflowError.
Proof.
  pose proof PI_bounds as HPI.
  apply (sunrise_sunset_local_exceptions (mkdate 1500 3 9) 80 118.0385
           (fixed_offset 28800)).
  - reflexivity.
  - assert (0 < cos (deg2rad 80))%R; [|lra]. apply cos_gt_0; unfold deg2rad; lra.
Defined.

(** The two UTC instants of a call do not depend on the zone. *)
Lemma sunrise_sunset_local_utc (d : date) (lat_deg lon_deg : R) :
  valid_date d = true -> cos (deg2rad lat_deg) <> 0%R ->
  1583 <= year d <= 9998 ->
  exists t1 t2,
    t1 <= t2 <= t1 + 86400
    /\ 86400 * (toordinal d - 2) <= t1 /\ t2 <= 86400 * (toordinal d + 2)
    /\ forall tz,
         sunrise_sunset_local d lat_deg lon_deg tz
         = (sr ← astimezone_naive t1 tz; ss ← astimezone_naive t2 tz; mret (sr, ss)).
Proof.
  intros Hv Hcl Hyr.
  destruct (solar_coords_of_date d Hv) as (M & lam & dec & alpha & eps & E & Hd).
  pose proof (cos_declination_pos dec Hd) as Hcd.
  destruct (hour_angle_returns (deg2rad lat_deg) dec (-0.833))
    as (H & HH & _ & HHr); [nra|].
  pose proof (hour_fraction_range H HHr) as Hh.
  set (h := (rad2deg H / 360.0)%R) in *.
  pose proof (solar_transit_jd_near (julian_day d) (deg2rad (- lon_deg))) as Hnear.
  set (Jt := solar_transit_jd (julian_day d) (deg2rad (- lon_deg))) in *.
  pose proof Hv as [Hy [Hm Hdd]]%check_date_fields_spec.
  pose proof (jdn_toordinal d Hm) as Hj.
  assert (Hn : 2299239 <= jdn d <= 5373119).
  { rewrite Hj. unfold toordinal.
    pose proof (cal_year_end is_leap days_before_year days_before_year_succ
                  (year d) (month d) (day d) (conj Hm Hdd)) as E'.
    change (cal_ord is_leap days_before_year) with ymd2ord in E'.
    pose proof (before_year_mono is_leap days_before_year days_before_year_succ
                  1583 (year d) ltac:(lia)) as M1.
    pose proof (before_year_mono is_leap days_before_year days_before_year_succ
                  (year d + 1) 9999 ltac:(lia)) as M2.
    change (days_before_year 1583) with 577813 in M1.
    change (days_before_year 9999) with 3651694 in M2. lia. }
  assert (Hjd' : julian_day d = (IZR (jdn d) - 0.5)%R) by apply julian_day_jdn.
  assert (Hlo : (2299239 <= IZR (jdn d) <= 5373119)%R).
  { split; apply IZR_le; lia. }
  assert (E1 := jd_to_utc_datetime_gregorian (Jt - h)).
  assert (E2 := jd_to_utc_datetime_gregorian (Jt + h)).
  specialize (E1 ltac:(lra)). specialize (E2 ltac:(lra)).
  set (t1 := Py.round ((Jt - h + 0.5 - 1721425) * 86400)) in *.
  set (t2 := Py.round ((Jt + h + 0.5 - 1721425) * 86400)) in *.
  assert (H12 : t1 <= t2) by (apply round_le; lra).
  assert (H21 : t2 <= t1 + 86400).
  { replace (t1 + 86400) with (t1 + 2 * 43200) by lia.
    unfold t1. rewrite <- round_add_even. apply round_le.
    rewrite mult_IZR. lra. }
  assert (B1 : 86400 * (jdn d - 1721425 - 2) <= t1).
  { replace (86400 * (jdn d - 1721425 - 2)) with
      (Py.round (IZR (86400 * (jdn d - 1721425 - 2)))) by apply round_IZR.
    apply round_le. rewrite mult_IZR, !minus_IZR. lra. }
  assert (B2 : t2 <= 86400 * (jdn d - 1721425 + 2)).
  { replace (86400 * (jdn d - 1721425 + 2)) with
      (Py.round (IZR (86400 * (jdn d - 1721425 + 2)))) by apply round_IZR.
    apply round_le. rewrite mult_IZR, plus_IZR, minus_IZR. lra. }
  exists t1, t2. split; [lia|]. split; [lia|]. split; [lia|].
  intros tz. unfold sunrise_sunset_local. cbv zeta. rewrite E. cbn. rewrite HH. cbn.
  fold Jt. fold h. rewrite E1. cbn.
  destruct (astimezone_naive t1 tz); [|reflexivity]. cbn. now rewrite E2.
Qed.

(** What a call returns in a zone of fixed offset. *)
Lemma sunrise_sunset_local_value (d : date) (lat_deg lon_deg : R) (off : Z) :
  valid_date d = true -> cos (deg2rad lat_deg) <> 0%R ->
  1583 <= year d <= 9998 -> -86400 < off < 86400 ->
  exists t1 t2,
    sunrise_sunset_local d lat_deg lon_deg (fixed_offset off)
    = Ok (t1 + off, t2 + off)
    /\ t1 <= t2 <= t1 + 86400.
Proof.
  intros Hv Hcl Hyr Hoff.
  destruct (sunrise_sunset_local_utc d lat_deg lon_deg Hv Hcl Hyr)
    as (t1 & t2 & Ht & B1 & B2 & E).
  pose proof (ymd2ord_range _ _ _ Hv) as Hr. fold (toordinal d) in Hr.
  unfold MAXORDINAL in Hr.
  assert (Hn : 577814 <= toordinal d <= 3651694).
  { pose proof Hv as [Hy [Hm Hdd]]%check_date_fields_spec. unfold toordinal.
    pose proof (cal_year_end is_leap days_before_year days_before_year_succ
                  (year d) (month d) (day d) (conj Hm Hdd)) as E'.
    change (cal_ord is_leap days_before_year) with ymd2ord in E'.
    pose proof (before_year_mono is_leap days_before_year days_before_year_succ
                  1583 (year d) ltac:(lia)) as M1.
    pose proof (before_year_mono is_leap days_before_year days_before_year_succ
                  (year d + 1) 9999 ltac:(lia)) as M2.
    change (days_before_year 1583) with 577813 in M1.
    change (days_before_year 9999) with 3651694 in M2. lia. }
  exists t1, t2. split; [|exact Ht].
  rewrite E. unfold astimezone_naive, fixed_offset. cbn.
  rewrite (add_seconds_returns t1 off), (add_seconds_returns t2 off) by lia.
  reflexivity.
Qed.





(** *** Before the Gregorian calendar *)

Lemma ten_days_early_window : all_from Switch.ten_days_early 2268993 30168 = true.
Proof. vm_cast_no_check (eq_refl true). Qed.

(** For the dates from 1500-03-11 to 1582-10-14 the round trip through the
    Julian Day does not return the date: [jd_to_utc_datetime] reads the
    Julian Day in the Julian calendar and returns the midnight of the date
    ten days earlier. *)
Theorem jd_to_utc_datetime_julian_day_ten_days_early (d : date) :
  valid_date d = true ->
  toordinal (mkdate 1500 3 11) <= toordinal d < toordinal Spec.gregorian_start ->
  jd_to_utc_datetime (julian_day d) = Ok ((toordinal d - 10) * 86400).
Proof.
  intros Hv Hr. pose proof Hv as [Hy [Hm Hd]]%check_date_fields_spec.
  change (toordinal (mkdate 1500 3 11)) with 547568 in Hr.
  change (toordinal Spec.gregorian_start) with 577736 in Hr.
  pose proof (jdn_toordinal d Hm) as Hj.
  pose proof (all_from_spec _ _ _ ten_days_early_window (jdn d) ltac:(lia)) as Hw.
  unfold Switch.ten_days_early in Hw.
  destruct (of_jdn (jdn d)) as [[y m] dd] eqn:Hof.
  apply andb_true_iff in Hw as [Hc Ho]. apply Z.eqb_eq in Ho.
  pose proof Hc as [_ [_ Hdd]]%check_date_fields_spec.
  rewrite (jd_to_utc_datetime_of_jdn (julian_day d) 0 (jdn d) y m dd);
    [|rewrite julian_day_jdn; lra|lra|lia|exact Hof|lia].
  unfold Datetime.new. rewrite Hc. cbn.
  rewrite Rmult_0_l, (round_IZR 0), Ho.
  rewrite add_seconds_returns by lia. f_equal. lia.
Qed.

Lemma jd_to_utc_datetime_julian_day_ten_days_early_witness :
  jd_to_utc_datetime (julian_day (mkdate 1582 10 14))
  = Ok ((toordinal (mkdate 1582 10 14) - 10) * 86400).
Proof.
  apply jd_to_utc_datetime_julian_day_ten_days_early.
  - reflexivity.
  - vm_compute. split; [discriminate|reflexivity].
Defined.

End InstantsToTheSecond.

(** ** The Julian Day at midnight and the day of the events *)

Section MidnightJulianDay.
Import Datetime Civil Combined.
Local Open Scope R_scope.

Lemma cos_PI_minus (x : R) : cos (PI - x) = - cos x.
Proof. rewrite cos_minus, cos_PI, sin_PI. lra. Qed.

(** An angle whose cosine is at least -0.39 is at most 2.9 radians. *)
Lemma acos_upper (c : R) : -1 <= c <= 1 -> -0.39 <= c -> acos c <= 2.9.
Proof.
  intros Hc Hlo. pose proof PI_bounds as HPI.
  pose proof (acos_bound c) as Hb. pose proof (cos_acos c Hc) as Hca.
  destruct (Rle_dec (acos c) 2.9) as [|N]; [assumption|]. exfalso.
  apply Rnot_le_lt in N.
  assert (H1 : cos (acos c) <= cos 2.9) by (apply cos_decr_1; lra).
  assert (H2 : cos 1.1 <= cos (PI - 2.9)) by (apply cos_decr_1; lra).
  rewrite cos_PI_minus in H2.
  assert (H3 : 0.395 <= cos 1.1).
  { replace 1.1 with (2 * 0.55) by lra. rewrite cos_2a_sin.
    assert (sin 0.55 < 0.55) by (apply sin_lt_x; lra).
    assert (0 <= sin 0.55) by (apply sin_ge_0; lra).
    nra. }
  lra.
Qed.

(** At the equator the sun is above -0.833 degrees for less than 0.484 of a
    day on either side of the transit. *)
Lemma hour_angle_equator (dec : R) :
  - deg2rad 23.7 <= dec <= deg2rad 23.7 ->
  exists H, hour_angle (deg2rad 0) dec (-0.833) = Ok H
            /\ 0 <= rad2deg H / 360.0 <= 0.484.
Proof.
  intros Hdec. pose proof PI_bounds as HPI.
  pose proof (cos_declination_pos dec Hdec) as Hcd.
  assert (E0 : deg2rad 0 = 0) by (unfold deg2rad; lra).
  rewrite E0.
  destruct (hour_angle_returns 0 dec (-0.833)) as (H & HH & HHeq & HHr).
  { rewrite cos_0. lra. }
  exists H. split; [exact HH|].
  assert (Hcos : 0.86 <= cos dec).
  { unfold deg2rad in Hdec. destruct (Rle_dec 0 dec).
    - pose proof (cos_ge_quadratic dec ltac:(lra)). nra.
    - rewrite <- cos_neg. pose proof (cos_ge_quadratic (- dec) ltac:(lra)). nra. }
  assert (Halt : -0.0186 <= sin (deg2rad (-0.833))).
  { unfold deg2rad. replace (-0.833 * PI / 180) with (- (0.833 * PI / 180)) by lra.
    rewrite sin_neg.
    assert (sin (0.833 * PI / 180) < 0.833 * PI / 180) by (apply sin_lt_x; lra).
    lra. }
  rewrite sin_0, cos_0 in HHeq.
  set (raw := (sin (deg2rad (-0.833)) - 0 * sin dec) / (1 * cos dec)) in *.
  assert (Hraw : raw * cos dec = sin (deg2rad (-0.833))).
  { unfold raw. field. lra. }
  pose proof (COS_bound dec) as Bd.
  assert (Hlo : -0.39 <= raw) by nra.
  pose proof (clamp_range raw) as Hcr.
  assert (Hcl : -0.39 <= Py.min 1.0 (Py.max (-1.0) raw)).
  { unfold Py.min, Py.max. repeat destruct Rlt_dec; lra. }
  pose proof (acos_upper _ Hcr Hcl) as Hup. rewrite <- HHeq in Hup.
  unfold rad2deg, Rdiv.
  assert (Hi : 0 < / PI) by (apply Rinv_0_lt_compat; lra).
  assert (Hp : PI * / PI = 1) by (apply Rinv_r; lra).
  set (i := / PI) in *. nra.
Qed.

Lemma solar_transit_jd_greenwich_noon (n : Z) :
  IZR n - 0.0113 <= solar_transit_jd (IZR n) (deg2rad (- 0)) <= IZR n + 0.0131.
Proof.
  pose proof PI_bounds as HPI.
  unfold solar_transit_jd. cbv zeta.
  assert (Hq : deg2rad (- 0) / (2 * PI) = 0).
  { unfold deg2rad. field. lra. }
  rewrite Hq.
  rewrite (round_unique _ (n - 2451545)) by (rewrite minus_IZR; lra).
  rewrite minus_IZR.
  match goal with
  | |- context [_ + 0.0053 * sin ?a - 0.0069 * sin ?b] =>
      pose proof (SIN_bound a); pose proof (SIN_bound b);
      set (sa := sin a) in *; set (sb := sin b) in *
  end.
  lra.
Qed.

Lemma sunrise_sunset_local_steps (d : date) (lat_deg lon_deg : R) (tz : tzinfo)
    (M lam dec alpha eps H : R) :
  solar_coords (jd_to_jcent (julian_day d)) = Ok (M, lam, dec, alpha, eps) ->
  hour_angle (deg2rad lat_deg) dec (-0.833) = Ok H ->
  sunrise_sunset_local d lat_deg lon_deg tz
  = (sr_utc ← jd_to_utc_datetime
               (solar_transit_jd (julian_day d) (deg2rad (- lon_deg))
                - rad2deg H / 360.0);
     sr ← astimezone_naive sr_utc tz;
     ss_utc ← jd_to_utc_datetime
                (solar_transit_jd (julian_day d) (deg2rad (- lon_deg))
                 + rad2deg H / 360.0);
     ss ← astimezone_naive ss_utc tz;
     mret (sr, ss)).
Proof.
  intros E HH. unfold sunrise_sunset_local. cbv zeta. rewrite E. cbn.
  rewrite HH. reflexivity.
Qed.

(** C2.  The code contradicts the claim.  For 2000-01-01 [julian_day]
    returns 2451544.5, the Julian Day of 00:00 UTC, where the Julian Day at
    12:00 UTC is 2451545.  The half day decides which solar cycle
    [solar_transit_jd] rounds to: at longitude 0 the transit computed from
    the value of [julian_day] is the noon of 1999-12-31 (Julian Day 2451544)
    where the noon value gives the noon of 2000-01-01, and the sunrise and
    the sunset that [sunrise_sunset_local] returns for 2000-01-01 at
    latitude 0, longitude 0 in UTC both fall on 1999-12-31. *)
Theorem julian_day_midnight_previous_day :
  julian_day (mkdate 2000 1 1) = 2451544.5
  /\ Spec.julian_day_at_noon (mkdate 2000 1 1) = 2451545
  /\ 2451544 - 0.0113
     <= solar_transit_jd (julian_day (mkdate 2000 1 1)) (deg2rad (- 0))
     <= 2451544 + 0.0131
  /\ 2451545 - 0.0113
     <= solar_transit_jd (Spec.julian_day_at_noon (mkdate 2000 1 1)) (deg2rad (- 0))
     <= 2451545 + 0.0131
  /\ exists sr ss,
       sunrise_sunset_local (mkdate 2000 1 1) 0 0 (fixed_offset 0) = Ok (sr, ss)
       /\ (toordinal (mkdate 1999 12 31) * 86400 <= sr)%Z
       /\ (sr <= ss)%Z
       /\ (ss < toordinal (mkdate 2000 1 1) * 86400)%Z.
Proof.
  pose proof PI_bounds as HPI.
  assert (Ejd : julian_day (mkdate 2000 1 1) = 2451544.5).
  { rewrite julian_day_jdn. change (jdn (mkdate 2000 1 1)) with 2451545%Z. lra. }
  assert (Enoon : Spec.julian_day_at_noon (mkdate 2000 1 1) = 2451545).
  { unfold Spec.julian_day_at_noon.
    now change (Spec.julian_day_number (mkdate 2000 1 1)) with 2451545%Z. }
  pose proof (solar_transit_jd_greenwich 2451545) as Ht.
  replace (IZR 2451545 - 0.5) with 2451544.5 in Ht by lra.
  rewrite <- Ejd in Ht.
  pose proof (solar_transit_jd_greenwich_noon 2451545) as Hn.
  rewrite <- Enoon in Hn at 2.
  split; [exact Ejd|]. split; [exact Enoon|].
  split; [lra|]. split; [rewrite Enoon in Hn |- *; lra|].
  (* the call *)
  destruct (solar_coords_of_date (mkdate 2000 1 1) eq_refl)
    as (M & lam & dec & alpha & eps & E & Hd).
  destruct (hour_angle_equator dec Hd) as (H & HH & Hh).
  set (h := rad2deg H / 360.0) in *.
  set (Jt := solar_transit_jd (julian_day (mkdate 2000 1 1)) (deg2rad (- 0))) in *.
  assert (E1 := jd_to_utc_datetime_gregorian (Jt - h)).
  assert (E2 := jd_to_utc_datetime_gregorian (Jt + h)).
  specialize (E1 ltac:(lra)). specialize (E2 ltac:(lra)).
  set (t1 := Py.round ((Jt - h + 0.5 - 1721425) * 86400)) in *.
  set (t2 := Py.round ((Jt + h + 0.5 - 1721425) * 86400)) in *.
  change (toordinal (mkdate 1999 12 31)) with 730119%Z.
  change (toordinal (mkdate 2000 1 1)) with 730120%Z.
  assert (B1 : (730119 * 86400 <= t1)%Z).
  { replace (730119 * 86400)%Z with (Py.round (IZR (730119 * 86400)))
      by apply round_IZR.
    apply round_le. rewrite mult_IZR. lra. }
  assert (H12 : (t1 <= t2)%Z) by (apply round_le; lra).
  assert (B2 : (t2 < 730120 * 86400)%Z).
  { pose proof (round_bounds ((Jt + h + 0.5 - 1721425) * 86400)) as Hr.
    fold t2 in Hr. apply lt_IZR. rewrite mult_IZR. lra. }
  exists t1, t2. split; [|lia].
  rewrite (sunrise_sunset_local_steps _ _ _ _ _ _ _ _ _ _ E HH).
  fold Jt. fold h. rewrite E1. cbn.
  unfold astimezone_naive, fixed_offset. cbn.
  rewrite (add_seconds_returns t1 0%Z) by lia. cbn. rewrite E2. cbn.
  rewrite (add_seconds_returns t2 0%Z) by lia. cbn.
  now rewrite !Z.add_0_r.
Qed.

End MidnightJulianDay.

(** ** The sun tables: [compute_sun_map] and [compute_sun_table] *)

Section SunTables.
Import Datetime Civil Combined.
Local Open Scope Z_scope.

Lemma foldl_insert_lookup_notin {A V : Type} (f : A -> Z) (g : A -> V)
    (l : list A) (acc : gmap Z V) (k : Z) :
  k ∉ f <$> l ->
  foldl (fun m a => <[f a := g a]> m) acc l !! k = acc !! k.
Proof.
  revert acc. induction l as [|x l IH]; intros acc Hk; [reflexivity|].
  cbn. rewrite fmap_cons, not_elem_of_cons in Hk. destruct Hk as [Hx Hl].
  rewrite IH by assumption. apply lookup_insert_ne. congruence.
Qed.

Lemma foldl_insert_lookup_in {A V : Type} (f : A -> Z) (g : A -> V) (l : list A) :
  forall (acc : gmap Z V) (a : A),
    a ∈ l -> (forall a', a' ∈ l -> f a' = f a -> g a' = g a) ->
    foldl (fun m a => <[f a := g a]> m) acc l !! f a = Some (g a).
Proof.
  induction l as [|x l IH]; intros acc a Ha Hg; [now apply elem_of_nil in Ha|].
  cbn. destruct (decide (f a ∈ f <$> l)) as [Hin|Hnin].
  - apply list_elem_of_fmap in Hin as (a' & Hfa & Ha').
    rewrite Hfa, <- (Hg a') by (auto using list_elem_of_further).
    apply IH; [exact Ha'|]. intros a'' Ha'' Hf.
    rewrite (Hg a''), (Hg a') by (auto using list_elem_of_further; congruence).
    reflexivity.
  - rewrite foldl_insert_lookup_notin by exact Hnin.
    apply elem_of_cons in Ha as [->|Ha].
    + apply lookup_insert_eq.
    + exfalso. apply Hnin, list_elem_of_fmap. eauto.
Qed.

Lemma toordinal_inj (d1 d2 : date) :
  valid_date d1 = true -> valid_date d2 = true ->
  toordinal d1 = toordinal d2 -> d1 = d2.
Proof.
  intros H1 H2 Ho. pose proof H2 as [_ V2]%check_date_fields_valid.
  destruct (ymd2ord_inj _ _ _ _ _ _ H1 V2 Ho) as (Ey & Em & Ed).
  destruct d1, d2. cbn in *. congruence.
Qed.

Lemma compute_sun_map_entry (unique_days : list date) (lat lon : R) (tz : tzinfo)
    (d : date) :
  Forall (fun d => valid_date d = true) unique_days -> d ∈ unique_days ->
  Fig10Plot.compute_sun_map unique_days lat lon tz !! toordinal d
  = Some (Fig10Plot.sun_entry (Fig10.sunrise_sunset_local d lat lon tz)).
Proof.
  intros Hv Hd. rewrite Forall_forall in Hv. unfold Fig10Plot.compute_sun_map.
  apply (foldl_insert_lookup_in toordinal
           (fun d => Fig10Plot.sun_entry (Fig10.sunrise_sunset_local d lat lon tz)));
    [exact Hd|].
  intros d' Hd' Ho. now rewrite (toordinal_inj d' d) by auto.
Qed.

(** [compute_sun_map] never raises, and the dictionary it returns has one
    entry for each day of [unique_days] and no other: the pair that
    [sunrise_sunset_local] returns for the day, or [(None, None)] when the
    call raises. *)
Theorem compute_sun_map_lookup (unique_days : list date) (lat lon : R) (tz : tzinfo) :
  Forall (fun d => valid_date d = true) unique_days ->
  (forall d, d ∈ unique_days ->
     Fig10Plot.compute_sun_map unique_days lat lon tz !! toordinal d
     = Some (Fig10Plot.sun_entry (Fig10.sunrise_sunset_local d lat lon tz)))
  /\ (forall k, k ∉ toordinal <$> unique_days ->
        Fig10Plot.compute_sun_map unique_days lat lon tz !! k = None).
Proof.
  intros Hv. split.
  - intros d Hd. now apply compute_sun_map_entry.
  - intros k Hk. unfold Fig10Plot.compute_sun_map.
    now rewrite (foldl_insert_lookup_notin toordinal
                   (fun d => Fig10Plot.sun_entry (Fig10.sunrise_sunset_local d lat lon tz))).
Qed.

Lemma compute_sun_map_lookup_witness :
  Fig10Plot.compute_sun_map [mkdate 2023 4 18; mkdate 2023 4 19] 5.4139 118.0385
    (fixed_offset 28800) !! toordinal (mkdate 2023 4 19)
  = Some (Fig10Plot.sun_entry
            (Fig10.sunrise_sunset_local (mkdate 2023 4 19) 5.4139 118.0385
               (fixed_offset 28800))).
Proof.
  apply (compute_sun_map_lookup [mkdate 2023 4 18; mkdate 2023 4 19]).
  - repeat constructor.
  - apply list_elem_of_further, list_elem_of_here.
Defined.

(** The entry that the loop of [optional_plot] and [compute_sun_map] store
    for a day is the same. *)
Lemma sun_entry_copies (d : date) (lat lon : R) (tz : tzinfo) :
  Fig10Plot.sun_entry (Fig10.sunrise_sunset_local d lat lon tz)
  = match sunrise_sunset_local d lat lon tz with
    | Ok (sr, ss) =>
        (Some (Fig10Plot.to_timestamp sr), Some (Fig10Plot.to_timestamp ss))
    | Raise _ => (None, None)
    end.
Proof.
  replace (Fig10.sunrise_sunset_local d lat lon tz)
    with (sunrise_sunset_local d lat lon tz); [reflexivity|].
  unfold sunrise_sunset_local, Fig10.sunrise_sunset_local.
  rewrite julian_day_copies.
  unfold jd_to_jcent, deg2rad, rad2deg.
  rewrite solar_coords_copies.
  destruct (Fig10.solar_coords _) as [[[[[M lam] dec] alpha] eps]|e]; [|reflexivity].
  cbn. rewrite hour_angle_copies, solar_transit_jd_copies.
  destruct (Fig10.hour_angle _ _ _) as [H|e]; [|reflexivity].
  cbn. now rewrite !jd_to_utc_datetime_copies.
Qed.

(** The sun table that [optional_plot] builds when the file has no Sunrise
    and Sunset columns is the one [compute_sun_map] of fig10 builds. *)
Theorem plot_sun_map_compute_sun_map (unique_days : list date) (lat lon : R)
    (tz : tzinfo) :
  CombinedPlot.plot_sun_map unique_days lat lon tz
  = Fig10Plot.compute_sun_map unique_days lat lon tz.
Proof.
  unfold CombinedPlot.plot_sun_map, Fig10Plot.compute_sun_map.
  generalize (∅ : gmap Z (option Timestamp * option Timestamp)).
  induction unique_days as [|d l IH]; intros acc; [reflexivity|].
  cbn. rewrite sun_entry_copies. apply IH.
Qed.



End SunTables.

Section SunTable.
Import Datetime Civil Combined CombinedPlot.
Local Open Scope Z_scope.

Lemma sun_rows_returns (days : list date) (lat lon : R) (tz : tzinfo) :
  returns (sun_rows days lat lon tz)
  <-> Forall (fun d => returns (sunrise_sunset_local d lat lon tz)) days.
Proof.
  induction days as [|d days IH]; cbn.
  - split; [constructor|intros _; now eexists].
  - rewrite Forall_cons, <- IH. clear IH.
    destruct (sunrise_sunset_local d lat lon tz) as [[sr ss]|e]; cbn.
    + destruct (sun_rows days lat lon tz) as [recs|e]; cbn.
      * split; [intros _; split; now eexists|intros _; now eexists].
      * split; [intros [? [=]]|intros [_ [? [=]]]].
    + split; [intros [? [=]]|intros [[? [=]] _]].
Qed.

Lemma elem_of_sorted_days (dates : list (option date)) (d : date) :
  d ∈ merge_sort date_le (remove_dups (omap (fun d => d) dates)) <-> Some d ∈ dates.
Proof.
  rewrite merge_sort_Permutation, elem_of_remove_dups, list_elem_of_omap.
  split; [intros (x & Hx & ->); exact Hx|intros H; eauto].
Qed.

(** Unlike [compute_sun_map], [compute_sun_table] has no [try]: it returns
    a table exactly when the call returns for every date of its input, the
    [NaT] ones apart; one date for which [sunrise_sunset_local] raises makes
    the whole call raise. *)
Theorem compute_sun_table_returns_iff (dates : list (option date)) (lat lon : R)
    (tz : tzinfo) :
  returns (compute_sun_table dates lat lon tz)
  <-> forall d, Some d ∈ dates -> returns (sunrise_sunset_local d lat lon tz).
Proof.
  unfold compute_sun_table. rewrite sun_rows_returns, Forall_forall.
  split; intros H d Hd; apply H; now apply elem_of_sorted_days.
Qed.

Lemma sun_rows_Ok (days : list date) (lat lon : R) (tz : tzinfo) :
  forall rows,
    sun_rows days lat lon tz = Ok rows ->
    Forall2 (fun d r => Date r = Timestamp_of_date (toordinal d)
                        /\ sunrise_sunset_local d lat lon tz = Ok (Sunrise r, Sunset r))
      days rows.
Proof.
  induction days as [|d days IH]; cbn; intros rows Hok.
  - injection Hok as <-. constructor.
  - destruct (sunrise_sunset_local d lat lon tz) as [[sr ss]|e] eqn:E; [|discriminate].
    cbn in Hok. destruct (sun_rows days lat lon tz) as [recs|e]; [|discriminate].
    cbn in Hok. injection Hok as <-. constructor; [|now apply IH].
    split; [reflexivity|exact E].
Qed.

Lemma date_le_total : Total date_le.
Proof.
  intros [y1 m1 d1] [y2 m2 d2]. unfold date_le, date_lt. cbn.
  destruct (decide (y1 = y2 /\ m1 = m2 /\ d1 = d2)) as [(-> & -> & ->)|N].
  - left. now right.
  - assert (H : (y1 < y2 \/ y1 = y2 /\ (m1 < m2 \/ m1 = m2 /\ d1 < d2))
                \/ (y2 < y1 \/ y2 = y1 /\ (m2 < m1 \/ m2 = m1 /\ d2 < d1))) by lia.
    destruct H; [left|right]; now left.
Qed.

Lemma date_lt_trans (a b c : date) : date_lt a b -> date_lt b c -> date_lt a c.
Proof. unfold date_lt. lia. Qed.

Lemma date_le_trans : Transitive date_le.
Proof.
  intros a b c [Hab|Hab] [Hbc|Hbc]; subst.
  - left. eapply date_lt_trans; eassumption.
  - now left.
  - now left.
  - now right.
Qed.

Lemma StronglySorted_strict (l : list date) :
  StronglySorted date_le l -> NoDup l -> StronglySorted date_lt l.
Proof.
  induction 1 as [|a l Hs IH Ha]; intros Hnd; [constructor|].
  apply NoDup_cons in Hnd as [Hna Hnd]. constructor; [now apply IH|].
  rewrite Forall_forall in Ha |- *. intros b Hb.
  destruct (Ha b Hb) as [Hlt| ->]; [exact Hlt|contradiction].
Qed.

Lemma date_lt_toordinal (a b : date) :
  valid_date a = true -> valid_date b = true -> date_lt a b ->
  toordinal a < toordinal b.
Proof.
  intros [_ Va]%check_date_fields_valid [_ Vb]%check_date_fields_valid Hlt.
  apply (cal_ord_rank_lt is_leap days_before_year days_before_year_succ);
    [exact Va|exact Vb|].
  destruct Va as [? ?], Vb as [? ?].
  pose proof (cal_days_in_month_le is_leap (year a) (month a)).
  pose proof (cal_days_in_month_le is_leap (year b) (month b)).
  unfold rank, date_lt in *. lia.
Qed.

(** A table that [compute_sun_table] returns has its rows in strictly
    increasing order of [Date], one row for each distinct date of the input
    and no other, and each row holds the midnight of its date and the pair
    that [sunrise_sunset_local] returns for it. *)
Theorem compute_sun_table_rows (dates : list (option date)) (lat lon : R)
    (tz : tzinfo) (rows : list sun_row) :
  (forall d, Some d ∈ dates -> valid_date d = true) ->
  compute_sun_table dates lat lon tz = Ok rows ->
  StronglySorted (fun a b => ts_lt a b = true) (Date <$> rows)
  /\ (forall d, Some d ∈ dates ->
        exists r, r ∈ rows /\ Date r = Timestamp_of_date (toordinal d)
                  /\ sunrise_sunset_local d lat lon tz = Ok (Sunrise r, Sunset r))
  /\ (forall r, r ∈ rows ->
        exists d, Some d ∈ dates /\ Date r = Timestamp_of_date (toordinal d)
                  /\ sunrise_sunset_local d lat lon tz = Ok (Sunrise r, Sunset r)).
Proof.
  intros Hv Hok. unfold compute_sun_table in Hok.
  set (days := merge_sort date_le (remove_dups (omap (fun d => d) dates))) in *.
  pose proof (sun_rows_Ok days lat lon tz rows Hok) as HF.
  assert (Hdays : forall d, d ∈ days <-> Some d ∈ dates)
    by (intros d; apply elem_of_sorted_days).
  assert (Hs : StronglySorted date_lt days).
  { apply StronglySorted_strict.
    - exact (@StronglySorted_merge_sort _ date_le _ date_le_trans date_le_total _).
    - unfold days. rewrite merge_sort_Permutation. apply NoDup_remove_dups. }
  assert (Hvd : Forall (fun d => valid_date d = true) days).
  { apply Forall_forall. intros d Hd. now apply Hv, Hdays. }
  split; [|split].
  - clear Hok Hdays. induction HF as [|d r days' rows' [Hr _] HF IH]; [constructor|].
    cbn. apply StronglySorted_inv in Hs as [Hs Hd].
    apply Forall_cons in Hvd as [Hvd0 Hvd].
    constructor; [now apply IH|].
    rewrite Forall_fmap. clear IH Hs.
    induction HF as [|d' r' days'' rows'' [Hr' _] HF IH]; [constructor|].
    apply Forall_cons in Hd as [Hd0 Hd]. apply Forall_cons in Hvd as [Hvd1 Hvd].
    constructor; [|now apply IH].
    cbn. rewrite Hr, Hr'. unfold Timestamp_of_date, ts_lt, ns_per_day.
    apply Z.ltb_lt. pose proof (date_lt_toordinal d d' Hvd0 Hvd1 Hd0). lia.
  - intros d Hd. apply Hdays in Hd.
    apply list_elem_of_lookup in Hd as [i Hi].
    destruct (Forall2_lookup_l _ _ _ _ _ HF Hi) as (r & Hr & Hd1 & Hd2).
    exists r. split; [|auto]. eapply list_elem_of_lookup_2; exact Hr.
  - intros r Hr. apply list_elem_of_lookup in Hr as [i Hi].
    destruct (Forall2_lookup_r _ _ _ _ _ HF Hi) as (d & Hd & Hd1 & Hd2).
    exists d. split; [|auto]. apply Hdays. eapply list_elem_of_lookup_2; exact Hd.
Qed.

Lemma sample_call_returns (d : date) :
  d ∈ [mkdate 2023 4 19; mkdate 2023 4 18] ->
  returns (sunrise_sunset_local d 5.4139 118.0385 (fixed_offset 28800)).
Proof.
  intros Hd. pose proof PI_bounds as HPI.
  assert (Hc : cos (deg2rad 5.4139) <> 0%R).
  { assert (0 < cos (deg2rad 5.4139))%R; [|lra]. apply cos_gt_0; unfold deg2rad; lra. }
  assert (Hd' : d = mkdate 2023 4 19 \/ d = mkdate 2023 4 18).
  { rewrite !elem_of_cons, elem_of_nil in Hd. tauto. }
  destruct Hd' as [-> | ->].
  - destruct (sunrise_sunset_local_value (mkdate 2023 4 19) 5.4139 118.0385 28800)
      as (t1 & t2 & E & _); [reflexivity|exact Hc|cbn; lia|lia|].
    unfold returns. rewrite E. eauto.
  - destruct (sunrise_sunset_local_value (mkdate 2023 4 18) 5.4139 118.0385 28800)
      as (t1 & t2 & E & _); [reflexivity|exact Hc|cbn; lia|lia|].
    unfold returns. rewrite E. eauto.
Qed.

Lemma sample_dates (d : date) :
  Some d ∈ [Some (mkdate 2023 4 19); None; Some (mkdate 2023 4 18);
            Some (mkdate 2023 4 19)] ->
  d ∈ [mkdate 2023 4 19; mkdate 2023 4 18].
Proof.
  rewrite !elem_of_cons, !elem_of_nil.
  intros [[= ->]|[[=]|[[= ->]|[[= ->]|[]]]]]; auto.
Qed.

Lemma compute_sun_table_returns_iff_witness :
  returns (compute_sun_table
             [Some (mkdate 2023 4 19); None; Some (mkdate 2023 4 18);
              Some (mkdate 2023 4 19)] 5.4139 118.0385 (fixed_offset 28800)).
Proof.
  apply (proj2 (compute_sun_table_returns_iff _ _ _ _)).
  intros d Hd. apply sample_call_returns, sample_dates, Hd.
Defined.

Lemma compute_sun_table_rows_witness :
  exists rows,
    compute_sun_table
      [Some (mkdate 2023 4 19); None; Some (mkdate 2023 4 18);
       Some (mkdate 2023 4 19)] 5.4139 118.0385 (fixed_offset 28800) = Ok rows
    /\ StronglySorted (fun a b => ts_lt a b = true) (Date <$> rows).
Proof.
  assert (Hr : returns (compute_sun_table
             [Some (mkdate 2023 4 19); None; Some (mkdate 2023 4 18);
              Some (mkdate 2023 4 19)] 5.4139 118.0385 (fixed_offset 28800))).
  { unfold compute_sun_table. apply sun_rows_returns, Forall_forall.
    intros d Hd. apply sample_call_returns, sample_dates, elem_of_sorted_days, Hd. }
  destruct Hr as [rows E]. exists rows. split; [exact E|].
  apply (compute_sun_table_rows _ _ _ _ rows) in E as [Hs _]; [exact Hs|].
  intros d Hd. apply sample_dates in Hd.
  rewrite !elem_of_cons, elem_of_nil in Hd. destruct Hd as [->|[->|[]]]; reflexivity.
Defined.

End SunTable.

(** ** The file name of the plot *)

Section PlotFileName.
Import CombinedPlot.
Local Open Scope N_scope.

Lemma elem_of_replace_char (old : N) (new s : str) (x : N) :
  x ∈ replace_char old new s <-> (x ∈ s /\ x <> old) \/ (old ∈ s /\ x ∈ new).
Proof.
  unfold replace_char. rewrite list_elem_of_bind. split.
  - intros (c & Hx & Hc). destruct (N.eqb_spec c old) as [E|Hne].
    + right. rewrite <- E. auto.
    + apply list_elem_of_singleton in Hx. rewrite Hx. left. auto.
  - intros [[Hx Hne]|[Ho Hx]].
    + exists x. split; [|exact Hx].
      destruct (N.eqb_spec x old); [contradiction|]. apply list_elem_of_here.
    + exists old. split; [|exact Ho]. now rewrite N.eqb_refl.
Qed.

Lemma replace_char_absent (old : N) (new s : str) :
  old ∉ s -> replace_char old new s = s.
Proof.
  unfold replace_char. induction s as [|c s IH]; intros Hn; [reflexivity|].
  apply not_elem_of_cons in Hn as [Hc Hs]. cbn.
  destruct (N.eqb_spec c old) as [E|_]; [now rewrite E in Hc|].
  cbn. f_equal. now apply IH.
Qed.

Lemma replace_char_avoids (F : list N) (old : N) (new s : str) :
  Forall (fun x => x ∉ F) s -> old ∉ new -> Forall (fun x => x ∉ F) new ->
  Forall (fun x => x ∉ old :: F) (replace_char old new s).
Proof.
  rewrite !Forall_forall. intros Hs Ho Hn x Hx.
  apply elem_of_replace_char in Hx as [[Hx Hne]|[_ Hx]]; apply not_elem_of_cons.
  - auto.
  - split; [|auto]. intros E. now rewrite E in Hx.
Qed.

Ltac other_chars :=
  repeat first [apply Forall_nil_2 | apply Forall_cons_2];
  rewrite ?not_elem_of_cons; repeat split;
  first [discriminate | apply not_elem_of_nil].

(** The file name of the plot holds none of the characters that the
    sanitising removes or replaces: no colon, slash, plus-minus sign, space,
    parenthesis or comma, whatever the title is. *)
Theorem safe_title_clean (title : str) (c : N) :
  c ∈ safe_title title -> c ∉ [58; 47; 177; 32; 40; 41; 44].
Proof.
  intros Hc.
  assert (H : Forall (fun x => x ∉ [44; 41; 40; 32; 177; 47; 58]) (safe_title title)).
  { unfold safe_title.
    repeat (apply replace_char_avoids; [| other_chars | other_chars]).
    apply Forall_forall. intros x _. apply not_elem_of_nil. }
  rewrite Forall_forall in H. specialize (H c Hc).
  rewrite !not_elem_of_cons in H |- *. tauto.
Qed.

Lemma safe_title_clean_witness :
  (95 : N) ∈ safe_title [40; 32; 41]
  /\ (95 : N) ∉ [58; 47; 177; 32; 40; 41; 44].
Proof.
  assert (H : (95 : N) ∈ safe_title [40; 32; 41])
    by (vm_compute; apply list_elem_of_here).
  split; [exact H|]. exact (safe_title_clean [40; 32; 41] 95 H).
Defined.

(** A title without these characters is its own file name. *)
Theorem safe_title_unchanged (title : str) :
  (forall c, c ∈ title -> c ∉ [58; 47; 177; 32; 40; 41; 44]) ->
  safe_title title = title.
Proof.
  intros H. unfold safe_title.
  assert (Hn : forall x, x ∈ [58; 47; 177; 32; 40; 41; 44] -> x ∉ title).
  { intros x Hx Hin. now apply (H x Hin). }
  rewrite (replace_char_absent 58 _ title) by (apply Hn; set_solver).
  rewrite (replace_char_absent 47 _ title) by (apply Hn; set_solver).
  rewrite (replace_char_absent 177 _ title) by (apply Hn; set_solver).
  rewrite (replace_char_absent 32 _ title) by (apply Hn; set_solver).
  rewrite (replace_char_absent 40 _ title) by (apply Hn; set_solver).
  rewrite (replace_char_absent 41 _ title) by (apply Hn; set_solver).
  apply replace_char_absent, Hn. set_solver.
Qed.

Lemma safe_title_unchanged_witness : safe_title [55; 46; 48; 55; 56] = [55; 46; 48; 55; 56].
Proof.
  apply safe_title_unchanged. intros c Hc.
  rewrite !elem_of_cons, elem_of_nil in Hc.
  destruct Hc as [->|[->|[->|[->|[->|[]]]]]]; other_chars.
Defined.

End PlotFileName.

(** ** The shape of the foF2 estimate *)

Section EstimatorShape.
Import Estimator.
Local Open Scope R_scope.

Ltac clip := unfold Darwin.calculate_fof2_from_signal,
    Guam.calculate_fof2_from_signal, np_clip, Rmin, Rmax; cbv zeta;
  repeat destruct Rle_dec; try lra.

(** The estimate does not decrease when the signal increases, whatever the
    frequency argument is. *)
Theorem calculate_fof2_from_signal_monotone (s1 s2 f1 f2 : R) :
  s1 <= s2 ->
  Darwin.calculate_fof2_from_signal s1 f1 <= Darwin.calculate_fof2_from_signal s2 f2
  /\ Guam.calculate_fof2_from_signal s1 f1 <= Guam.calculate_fof2_from_signal s2 f2.
Proof. intros H. split; clip. Qed.

Lemma calculate_fof2_from_signal_monotone_witness :
  Darwin.calculate_fof2_from_signal (-20) 7.0 <= Darwin.calculate_fof2_from_signal (-8) 7.0
  /\ Guam.calculate_fof2_from_signal (-20) 7.0 <= Guam.calculate_fof2_from_signal (-8) 7.0.
Proof. apply calculate_fof2_from_signal_monotone. lra. Defined.

(** Where the clip acts.  From 72 dB on the Darwin estimate is its maximum
    15 and up to -72 dB its minimum 3; from 75 dB on the Guam estimate is 18
    and up to -65 dB it is 4; in between the clip changes nothing and the
    estimate is the sum of the baseline and the scaled signal. *)
Theorem calculate_fof2_from_signal_saturation (s f : R) :
  (72 <= s -> Darwin.calculate_fof2_from_signal s f = 15)
  /\ (s <= -72 -> Darwin.calculate_fof2_from_signal s f = 3)
  /\ (-72 <= s <= 72 -> Darwin.calculate_fof2_from_signal s f = 9.0 + s / 12.0)
  /\ (75 <= s -> Guam.calculate_fof2_from_signal s f = 18)
  /\ (s <= -65 -> Guam.calculate_fof2_from_signal s f = 4)
  /\ (-65 <= s <= 75 -> Guam.calculate_fof2_from_signal s f = 10.5 + s / 10.0).
Proof. repeat split; intros H; revert H; clip. Qed.

Lemma calculate_fof2_from_signal_saturation_witness :
  Darwin.calculate_fof2_from_signal 80 7.0 = 15
  /\ Darwin.calculate_fof2_from_signal (-80) 7.0 = 3
  /\ Guam.calculate_fof2_from_signal (-20) 7.0 = 10.5 + (-20) / 10.0.
Proof.
  pose proof (calculate_fof2_from_signal_saturation 80 7.0) as (H1 & _).
  pose proof (calculate_fof2_from_signal_saturation (-80) 7.0) as (_ & H2 & _).
  pose proof (calculate_fof2_from_signal_saturation (-20) 7.0)
    as (_ & _ & _ & _ & _ & H3).
  split; [apply H1|split; [apply H2|apply H3]]; lra.
Defined.

End EstimatorShape.
